(** * node-server-template: the queue-mediated RPC gateway

    A shallow embedding of the gateway's TypeScript sources:
    - [decorator.ts]: the worker-side binding directives [Guard], [Cache],
      [Path] and the [Queue] class wrapper with its [find]/[run] methods;
    - [interface.ts]: the [Dependencies] registry and the envelope types;
    - [utils.ts]: [inTransaction];
    - [index.ts]: the master's RESTful handler and its health check, the
      worker's job processor, and the processes [main] starts;
    - [plugin.ts]: the hooks that run on a request.

    Asynchronous functions are modelled as computations of a state and
    exception monad: an [await] sequences two computations, a rejected
    promise is a thrown exception. *)

From Stdlib Require Import ZArith String Ascii List Bool Lia.
From stdpp Require Import base option list strings gmap pretty.

Open Scope string_scope.

(** ** JavaScript values, exceptions and completions *)

Module Js.

(** Values of type [any]: primitives and objects. An object is known by
    the name of its constructor ([constructor.name]) and by its reference;
    two objects are the same instance when both agree. [Builtin name] is
    the member [name] that every object inherits from [Object.prototype]:
    a function, or for [__proto__] the prototype itself. *)
Inductive value : Type :=
| Undefined
| Null
| Bool (b : bool)
| Num (z : Z)
| Str (s : string)
| Obj (cls : string) (ref : nat)
| Builtin (name : string).

(** ToBoolean: what [!v], [v || d] and [if (v)] test. *)
Definition to_boolean (v : value) : bool :=
  match v with
  | Undefined | Null => false
  | Bool b => b
  | Num z => negb (z =? 0)%Z
  | Str s => negb (s =? "")
  | Obj _ _ => true
  | Builtin _ => true
  end.

(** An error object as the handlers read it: [e.statusCode] is a number
    or undefined, [e.message] a string, [e.extra] any value. *)
Record Exn : Type := mkExn {
  name : string;
  statusCode : option Z;
  message : string;
  extra : value
}.

(** The [http-errors] constructors the sources use, and the TypeError the
    runtime raises for a property access on [undefined]. *)
Definition Forbidden : Exn := mkExn "ForbiddenError" (Some 403%Z) "Forbidden" Undefined.
Definition NotFound : Exn := mkExn "NotFoundError" (Some 404%Z) "Not Found" Undefined.
Definition InternalServerError (msg : string) : Exn :=
  mkExn "InternalServerError" (Some 500%Z) msg Undefined.
Definition TypeError (msg : string) : Exn := mkExn "TypeError" None msg Undefined.

(** [e.statusCode || d]: the left operand when it is truthy (a number
    other than 0), the default otherwise. *)
Definition or_default (c : option Z) (d : Z) : Z :=
  match c with
  | Some z => if (z =? 0)%Z then d else z
  | None => d
  end.

(** What a [throw] statement or a rejected promise carries: an error
    object, or [null] or [undefined], which have no properties (reading
    one is a TypeError). Error objects are thrown values by coercion; a
    thrown string, number or boolean is left out. *)
Inductive Thrown : Type :=
| Error_object (e : Exn)
| Nullish.
Coercion Error_object : Exn >-> Thrown.

(** How a statement or an awaited promise completes. *)
Inductive Completion (A : Type) : Type :=
| Normal (a : A)
| Throw (e : Thrown).
Arguments Normal {A} a.
Arguments Throw {A} e.

(** A computation over a world [W]. *)
Definition M (W A : Type) : Type := W -> Completion A * W.

Definition ret {W A} (a : A) : M W A := fun w => (Normal a, w).
Definition throw {W A} (e : Thrown) : M W A := fun w => (Throw e, w).
Definition bind {W A B} (m : M W A) (k : A -> M W B) : M W B :=
  fun w => match m w with
           | (Normal a, w') => k a w'
           | (Throw e, w') => (Throw e, w')
           end.

(** [try { body } catch (e) { handler }] *)
Definition try_catch {W A} (body : M W A) (handler : Thrown -> M W A) : M W A :=
  fun w => match body w with
           | (Normal a, w') => (Normal a, w')
           | (Throw e, w') => handler e w'
           end.

(** [try { body } finally { fin }]: the block's completion stands unless
    the finally clause itself throws. *)
Definition try_finally {W A} (body : M W A) (fin : M W unit) : M W A :=
  fun w => let '(r, w') := body w in
           match fin w' with
           | (Normal _, w'') => (r, w'')
           | (Throw e, w'') => (Throw e, w'')
           end.

(** [Array.prototype.reduce] with an effectful callback. *)
Fixpoint reduce {W A B} (f : B -> A -> M W B) (l : list A) (init : B) : M W B :=
  match l with
  | [] => ret init
  | x :: xs => bind (f init x) (fun acc => reduce f xs acc)
  end.

(** [Array.prototype.find] with an effectful predicate: the first element
    the predicate accepts, [None] for [undefined]. *)
Fixpoint array_find {W A} (p : A -> M W bool) (l : list A) : M W (option A) :=
  match l with
  | [] => ret None
  | x :: xs => bind (p x) (fun b => if b then ret (Some x) else array_find p xs)
  end.

(** A computation on a part of the state, run on the whole. *)
Definition zoom {S W A} (get : S -> W) (set : W -> S -> S) (m : M W A) : M S A :=
  fun s => let '(r, w) := m (get s) in (r, set w s).

End Js.

Import Js.

Declare Scope js_scope.
Delimit Scope js_scope with js.
Notation "'let*' x ':=' c 'in' k" := (bind c (fun x => k))
  (at level 10, x name, c at level 100, k at level 200) : js_scope.
Notation "c ';;;' k" := (bind c (fun _ => k))
  (at level 100, k at level 200, right associativity) : js_scope.
Open Scope js_scope.

(** [String.prototype.toLocaleUpperCase] on the ASCII letters of a method
    name. *)
Definition upper_ascii (c : ascii) : ascii :=
  let n := nat_of_ascii c in
  if (97 <=? n)%nat && (n <=? 122)%nat then ascii_of_nat (n - 32) else c.

Fixpoint toLocaleUpperCase (s : string) : string :=
  match s with
  | EmptyString => EmptyString
  | String c s' => String (upper_ascii c) (toLocaleUpperCase s')
  end.

(** [s.endsWith(suffix)] *)
Definition endsWith (s suffix : string) : bool :=
  (String.length suffix <=? String.length s)%nat &&
  (substring (String.length s - String.length suffix) (String.length suffix) s =? suffix).

(** [s.startsWith(p)] *)
Definition startsWith (s p : string) : bool := String.prefix p s.

(** ** interface.ts: the envelopes *)

Record ICache : Type := mkCache {
  cache_private : option bool;
  noCache : option bool;
  noStore : option bool;
  maxAge : option Z;
  lastModified : option string
}.

(** [IRequest]: the job data. [body] and [user] are optional members. *)
Record IRequest : Type := mkRequest {
  method : string;
  url : string;
  headers : value;
  query : value;
  params : value;
  body : option value;
  user : option value;
  req_extra : value
}.

Definition with_url (u : string) (d : IRequest) : IRequest :=
  mkRequest (method d) u (headers d) (query d) (params d) (body d) (user d) (req_extra d).
Definition with_method (m : string) (d : IRequest) : IRequest :=
  mkRequest m (url d) (headers d) (query d) (params d) (body d) (user d) (req_extra d).
Definition with_body (b : value) (d : IRequest) : IRequest :=
  mkRequest (method d) (url d) (headers d) (query d) (params d) (Some b) (user d) (req_extra d).

(** [IResult]: [result], [cache] and [elapsed] are optional members. *)
Record IResult : Type := mkResult {
  res_statusCode : Z;
  result : option value;
  cache : option ICache;
  res_elapsed : option Z
}.

(** ** node-match-path *)

(** The result of [match(path, url)]: always an object, which the master
    destructures as [const { matches } = match(path, url.pathname)]. *)
Record Match : Type := mkMatch {
  matches : bool;
  match_params : option (list (string * string))
}.

(** [!!m] for a [Match]: an object converts to [true], whatever its
    members. *)
Definition Match_to_boolean (m : Match) : bool := true.

(** ** decorator.ts *)

Module Decorator.

Section Decorator.

(** The world the predicates and the handlers of a module act on. *)
Context {W : Type}.

(** [fixUrl] of [utils] and [match] of [node-match-path], both outside the
    sources at hand. *)
Variable fixUrl : string -> string.
Variable match_ : string -> string -> Match.

(** The receiver of a call of a method: [this] is the instance of the
    module class of that name, as in [target[1].apply(this, [data])], or
    [undefined], as in the plain call [func(data)]. *)
Inductive Receiver : Type :=
| Unbound
| Instance (cls : string).

Definition CheckData : Type := IRequest -> M W bool.
Definition PathFunction : Type := Receiver -> IRequest -> M W IResult.

(** [Guard(...guardFuncs)] replaces the handler [func] by
    [[
      async (data) => {
        const result = guardFuncs.reduce((r, f) => r && f(data), true);
        if (!result) throw new Forbidden();
        return await func(data);
      }
    ]]
    [r && f(data)] calls [f] only when [r] is true. The wrapper is an
    arrow function and [func(data)] a plain call: whatever the receiver
    of the wrapper, [func] runs with [this] undefined. *)
Definition Guard (guardFuncs : list CheckData) (func : PathFunction) : PathFunction :=
  fun _ data =>
    let* result := reduce (fun (r : bool) (f : CheckData) =>
                             if r then f data else ret r) guardFuncs true in
    if negb result then throw Forbidden else func Unbound data.

(** [Cache(options)] replaces the handler [func] by
    [[
      async (data) => {
        const result = await func(data);
        return { ...result, cache: options };
      }
    ]]
    Here too [func] runs with [this] undefined. *)
Definition Cache (options : ICache) (func : PathFunction) : PathFunction :=
  fun _ data =>
    let* r := func Unbound data in
    ret (mkResult (res_statusCode r) (result r) (Some options) (res_elapsed r)).

(** An element of a bin: [[CheckData, PathFunction]]. *)
Definition Entry : Type := CheckData * PathFunction.

(** The predicate [Path] makes of a string [url_]:
    [({ url: url__ }) => !!match(fixUrl(url_), fixUrl(url__))]. *)
Definition string_check (url_ : string) : CheckData :=
  fun data => ret (Match_to_boolean (match_ (fixUrl url_) (fixUrl (url data)))).

(** [Path(method, url = '')]: a string [url] is turned into a predicate;
    the decorator then pushes [[url, func]] on the bin of the upper-cased
    method of [target.constructor.name], creating table and bin when they
    are missing. The registry is read as a map: class names and methods
    are taken not to be names of members of [Object.prototype]. *)
Definition Path (method_ : string) (url_ : string + CheckData)
    (target_constructor_name : string) (func : PathFunction)
    (paths : gmap string (gmap string (list Entry))) : gmap string (gmap string (list Entry)) :=
  let check : CheckData :=
    match url_ with
    | inl url_ => string_check url_
    | inr check => check
    end in
  let table : gmap string (list Entry) := default ∅ (paths !! target_constructor_name) in
  let METHOD := toLocaleUpperCase method_ in
  let bin := default [] (table !! METHOD) in
  <[target_constructor_name := <[METHOD := (bin ++ [(check, func)])%list]> table]> paths.

(** What [find] and [run] act on: the module-level registry [paths]
    (class name, then method bin, then the bin's entries in registration
    order) and the handlers' world. *)
Record Store : Type := mkStore {
  paths : gmap string (gmap string (list Entry));
  world : W
}.

Definition in_world {A} (m : M W A) : M Store A :=
  zoom world (fun w s => mkStore (paths s) w) m.

(** The [while] loop of [Queue]: drop the last character as long as the
    string ends with a slash. Every round shortens the string, so its
    length bounds the number of rounds. *)
Fixpoint strip_trailing (rounds : nat) (baseUrl : string) : string :=
  match rounds with
  | O => baseUrl
  | S rounds' =>
      if endsWith baseUrl "/"
      then strip_trailing rounds' (substring 0 (String.length baseUrl - 1) baseUrl)
      else baseUrl
  end.

(** [// fix base url] *)
Definition fix_base_url (baseUrl : string) : string :=
  if negb (baseUrl =? "") then
    let baseUrl := if negb (startsWith baseUrl "/") then "/" ++ baseUrl else baseUrl in
    strip_trailing (String.length baseUrl) baseUrl
  else baseUrl.

(** The class [Queue(baseUrl)(constructor)] returns. It extends
    [constructor], whose name addresses the registry, and closes over the
    fixed [baseUrl]. *)
Record QueueClass : Type := mkQueueClass {
  baseUrl : string;
  constructor_name : string
}.

Definition Queue (baseUrl : string) (constructor : string) : QueueClass :=
  mkQueueClass (fix_base_url baseUrl) constructor.

(** [find(data)]: reading a bin of a class without a table is a property
    access on [undefined]; a missing bin is created empty; the bin is
    searched with the request's url fixed. *)
Definition find (this : QueueClass) (data : IRequest) : M Store (option Entry) :=
  fun s =>
    match paths s !! constructor_name this with
    | None => (Throw (TypeError "Cannot read properties of undefined"), s)
    | Some table =>
        let s1 :=
          match table !! method data with
          | None => mkStore (<[constructor_name this := <[method data := []]> table]> (paths s))
                            (world s)
          | Some _ => s
          end in
        let bin := default [] (table !! method data) in
        array_find (fun entry : Entry =>
                      in_world (entry.1 (with_url (fixUrl (url data)) data))) bin s1
    end.

(** [run(data)]:
    [[
      const target = this.find(data) || this.find({ ...data, method: 'ALL' });
      if (!target) throw new NotFound();
      return await target[1].apply(this, [data]);
    ]] *)
Definition run (this : QueueClass) (data : IRequest) : M Store IResult :=
  let* first := find this data in
  let* target := match first with
                 | Some t => ret (Some t)
                 | None => find this (with_method "ALL" data)
                 end in
  match target with
  | None => throw NotFound
  | Some t => in_world (t.2 (Instance (constructor_name this)) data)
  end.

(** *** Vocabulary of the properties *)

(** The predicates of [gs], called in order from the world [w], all
    return true; the result is the world they leave. *)
Fixpoint all_true (data : IRequest) (gs : list CheckData) (w : W) : option W :=
  match gs with
  | [] => Some w
  | g :: gs' =>
      match g data w with
      | (Normal true, w1) => all_true data gs' w1
      | _ => None
      end
  end.

(** The predicates of the entries of [bin], called in order from the
    world [w], all return false; the result is the world they leave. *)
Fixpoint rejected_by_all (d : IRequest) (bin : list Entry) (w : W) : option W :=
  match bin with
  | [] => Some w
  | e :: bin' =>
      match e.1 d w with
      | (Normal false, w1) => rejected_by_all d bin' w1
      | _ => None
      end
  end.

End Decorator.

End Decorator.

(** ** interface.ts: the dependency registry *)

Module Registry.

(** [dependency.constructor.name]: [undefined] and [null] have no
    properties, a primitive answers with its wrapper class. *)
Definition constructor_name (dependency : value) : Completion string :=
  match dependency with
  | Undefined | Null => Throw (TypeError "Cannot read properties of undefined")
  | Bool _ => Normal "Boolean"
  | Num _ => Normal "Number"
  | Str _ => Normal "String"
  | Obj cls _ => Normal cls
  | Builtin name => Normal (if name =? "__proto__" then "Object" else "Function")
  end.

(** The field [dependencies] is the object literal [{}]: its properties
    are those assigned to it, kept here in a map, and behind them those of
    its prototype. The key [__proto__] stands for the prototype itself:
    assigning an object to it replaces the prototype, and reading it gives
    the prototype. Without an entry for that key the prototype is
    [Object.prototype], whose members have these names. *)
Definition Object_prototype : list string :=
  ["constructor"; "__defineGetter__"; "__defineSetter__"; "hasOwnProperty";
   "__lookupGetter__"; "__lookupSetter__"; "isPrototypeOf"; "propertyIsEnumerable";
   "toString"; "valueOf"; "__proto__"; "toLocaleString"].

(** [register(dependency)], acting on the field [dependencies] of the one
    [Dependencies] instance:
    [this.dependencies[dependency.constructor.name] = dependency]. Only an
    object can be named [__proto__], so that the assignment to that key
    always takes effect. *)
Definition register (dependency : value) : M (gmap string value) unit :=
  fun dependencies =>
    match constructor_name dependency with
    | Normal key => (Normal tt, <[key := dependency]> dependencies)
    | Throw e => (Throw e, dependencies)
    end.

Section Registry.

(** Outside the model: the property [key] of an object, its own or
    inherited, which is what the registry inherits once an object has been
    made its prototype. *)
Variable member : value -> string -> value.

(** [this.dependencies[key]]: the property assigned under [key], or else
    the one inherited from the prototype. *)
Definition read (dependencies : gmap string value) (key : string) : value :=
  match dependencies !! key with
  | Some v => v
  | None =>
      match dependencies !! "__proto__" with
      | Some prototype => member prototype key
      | None => if bool_decide (key ∈ Object_prototype) then Builtin key else Undefined
      end
  end.

(** [get(dependency)], the class [dependency] given by its [name]:
    [[
      const key = dependency.name;
      const result = this.dependencies[key];
      if (!result) throw new InternalServerError(`Dependency ${key} Not Found`);
      return result;
    ]] *)
Definition get (dependency_name : string) : M (gmap string value) value :=
  fun dependencies =>
    let key := dependency_name in
    let result := read dependencies key in
    if negb (to_boolean result)
    then (Throw (InternalServerError ("Dependency " ++ key ++ " Not Found")), dependencies)
    else (Normal result, dependencies).

End Registry.

(** Registering a list of dependencies in order, as [workerMain] does. *)
Fixpoint register_all (ds : list value) : M (gmap string value) unit :=
  match ds with
  | [] => ret tt
  | d :: ds' => register d ;;; register_all ds'
  end.

End Registry.

(** ** utils.ts *)

Module Utils.

(** A local variable of a function body: [local init m] runs [m] with the
    variable set to [init] and drops it at the end. *)
Definition local {L W A} (init : L) (m : M (L * W) A) : M W A :=
  fun w => let '(r, s) := m (init, w) in (r, s.2).
Definition outer {L W A} (m : M W A) : M (L * W) A :=
  zoom snd (fun w (s : L * W) => (s.1, w)) m.
Definition read_local {L W} : M (L * W) L := fun s => (Normal s.1, s).
Definition write_local {L W} (l : L) : M (L * W) unit := fun s => (Normal tt, (l, s.2)).

Section InTransaction.

Context {W Transaction T : Type}.

(** The storage layer: [sequelize.transaction()], [transaction.commit()]
    and [transaction.rollback()]. Each may reject. *)
Variable sequelize_transaction : M W Transaction.
Variable commit : Transaction -> M W unit.
Variable rollback : Transaction -> M W unit.

(** Modelled from the spec: [MyException.throw] of [./exceptions], which
    is not among the sources. The spec has the failure of the scope
    propagate after the rollback; the exception it raises for the function
    name and the caught error is [MyException func e]. *)
Variable MyException : string -> Thrown -> Thrown.
Definition MyException_throw {S A} (func : string) (e : Thrown) : M S A :=
  throw (MyException func e).

(** [inTransaction(sequelize, callback, transaction?)] *)
Definition inTransaction (callback : Transaction -> M W T)
    (transaction : option Transaction) : M W T :=
  let withTransaction := bool_decide (is_Some transaction) in
  local false (
    let* transaction :=
      match transaction with
      | Some t => ret t
      | None => outer sequelize_transaction
      end in
    try_finally
      (try_catch
         (outer (callback transaction))
         (fun e =>
            (if negb withTransaction
             then outer (rollback transaction) ;;; write_local true
             else ret tt) ;;;
            MyException_throw "inTransaction" e))
      (let* rolled_back := read_local in
       if negb withTransaction && negb rolled_back
       then outer (commit transaction)
       else ret tt)).

End InTransaction.

End Utils.

(** ** index.ts: the master *)

Module Master.

(** The parts of fastify's request and reply the handlers touch. *)
Record Request : Type := mkReq {
  req_method : string;
  req_url : string;
  req_headers : value;
  req_query : value;
  req_params : value;
  req_body : value
}.

Record Reply : Type := mkReply {
  status : Z;
  reply_headers : list (string * string)
}.

(** [IError] and [IResponse = IResult | IError]. *)
Record IError : Type := mkError {
  err_statusCode : Z;
  error : string;
  err_extra : value;
  err_elapsed : option Z
}.

Inductive IResponse : Type :=
| Result (r : IResult)
| Error (e : IError).

Definition response_statusCode (r : IResponse) : Z :=
  match r with
  | Result r => res_statusCode r
  | Error e => err_statusCode e
  end.

Definition response_elapsed (r : IResponse) : option Z :=
  match r with
  | Result r => res_elapsed r
  | Error e => err_elapsed e
  end.

(** The constants of [http-status] in use. *)
Definition OK : Z := 200.
Definition NOT_FOUND : Z := 404.
Definition INTERNAL_SERVER_ERROR : Z := 500.
Definition SERVICE_UNAVAILABLE : Z := 503.
Definition NAME_500 : string := "INTERNAL_SERVER_ERROR".

(** The members of [IMasterConfig] the handlers read. *)
Record IMasterConfig : Type := mkConfig {
  port : option Z;
  timeout : option Z;
  config_cache : option ICache
}.

(** One element of the health check's [result] array: the spread probe
    result or the error members, with the [queue] member added. *)
Record ProbeEntry : Type := mkProbe {
  entry : IResponse;
  entry_queue : string
}.

(** What the health check returns. *)
Inductive HealthResponse : Type :=
| HealthResult (statusCode : Z) (result : list ProbeEntry) (elapsed : Z)
| HealthError (statusCode : Z) (error : string) (elapsed : Z).

(** Vocabulary of the properties: the number of jobs of [js] created on
    the queue [q], and whether a probe's entry carries the status OK. *)
Definition submitted_to (q : string) (js : list (string * IRequest)) : nat :=
  length (filter (fun j => j.1 = q) js).

Definition entry_ok (p : ProbeEntry) : bool :=
  (response_statusCode (entry p) =? OK)%Z.

(** [uniq] of [lodash.uniq]: the first occurrence of every element, in
    the order of the array. *)
Fixpoint uniq_from (array result : list string) : list string :=
  match array with
  | [] => result
  | x :: rest =>
      if bool_decide (x ∈ result)
      then uniq_from rest result
      else uniq_from rest (result ++ [x])%list
  end.

Definition uniq (array : list string) : list string := uniq_from array [].

(** [await Promise.all(ps)]. The promises of the health check have all
    been started by [keys.map] when [Promise.all] is called; they run
    concurrently, each settles on its own, and a rejection stops none of
    the others. The embedding runs every one of them, in the order of the
    array, which is the order of their values in the result; the first
    rejection rejects the whole. *)
Fixpoint Promise_all {S A} (ps : list (M S A)) : M S (list A) :=
  match ps with
  | [] => ret []
  | p :: ps' =>
      fun s =>
        let '(r, s1) := p s in
        let '(rs, s2) := Promise_all ps' s1 in
        (match r, rs with
         | Normal a, Normal rest => Normal (a :: rest)
         | Normal _, Throw e => Throw e
         | Throw e, _ => Throw e
         end, s2)
  end.

Section Master.

(** The world outside the process: the broker, the clock, whatever the
    hooks reach. *)
Context {W BeeQueue Job : Type}.

(** What a handler acts on: the reply under construction, the jobs this
    process has asked the broker to create (queue name and data, oldest
    first), and the outside world. *)
Record MState : Type := mkMState {
  reply : Reply;
  jobs : list (string * IRequest);
  ext : W
}.

Definition in_ext {A} (m : M W A) : M MState A :=
  zoom ext (fun w s => mkMState (reply s) (jobs s) w) m.

(** A hook that is handed the reply acts on the reply and the world. *)
Definition in_reply_ext {A} (m : M (Reply * W) A) : M MState A :=
  zoom (fun s => (reply s, ext s)) (fun rw s => mkMState rw.1 (jobs s) rw.2) m.

(** [IMapper], with the hooks [pre(request, data)] and
    [post(request, reply, result)] the handler destructures. [method] is
    declared optional ([method?: HttpMethods]). The hooks are handed the
    objects themselves: [pre] yields the request and the data as it leaves
    them, [post] the result as it leaves it, acting on the reply. *)
Record IMapper : Type := mkMapper {
  m_method : option string;
  m_path : string;
  m_queue : string;
  pre : option (Request -> IRequest -> M W (Request * IRequest));
  post : option (Request -> IResult -> M (Reply * W) IResult)
}.

(** Outside the sources at hand: [Date.now()], the [pathname] of
    [new URL(url, base)] (which throws on an invalid url), [match] of
    [node-match-path], and [connectQueue], [applyCache] and [wait] of
    [utils], with the queue's [createJob(data).save()]. *)
Variable Date_now : W -> Z * W.
Variable URL_pathname : string -> Z -> Completion string.
Variable match_ : string -> string -> Match.
Variable connectQueue : string -> string -> BeeQueue.
Variable save : BeeQueue -> IRequest -> M W Job.
Variable wait : BeeQueue -> Job -> Z -> M W IResult.
Variable applyCache : Reply -> ICache -> Reply.

Variable config : IMasterConfig.
Variable mapper : list IMapper.

Definition now : M MState Z :=
  in_ext (fun w => let '(t, w') := Date_now w in (Normal t, w')).

(** Vocabulary of the properties: whether the method (equal to the
    request's, or ALL) and the path of an entry match the request; [None]
    for an entry without a method. *)
Definition entry_matches (request : Request) (pathname : string) (m : IMapper) : option bool :=
  match m_method m with
  | Some method =>
      let REQ_METHOD := toLocaleUpperCase (req_method request) in
      let MAP_METHOD := toLocaleUpperCase method in
      Some (((REQ_METHOD =? MAP_METHOD) || ("ALL" =? MAP_METHOD))
            && matches (match_ (m_path m) pathname))
  | None => None
  end.

(** [reply.status(code)], [reply.header(k, v)] and [applyCache(reply, c)]
    on the reply under construction. The reply is fastify's: it is taken
    to accept every status code it is given. *)
Definition reply_status (code : Z) : M MState unit :=
  fun s => (Normal tt, mkMState (mkReply code (reply_headers (reply s))) (jobs s) (ext s)).

Definition reply_header (k v : string) : M MState unit :=
  fun s => (Normal tt,
            mkMState (mkReply (status (reply s)) (reply_headers (reply s) ++ [(k, v)])%list)
                     (jobs s) (ext s)).

Definition reply_applyCache (c : ICache) : M MState unit :=
  fun s => (Normal tt, mkMState (applyCache (reply s) c) (jobs s) (ext s)).

(** [await queue.createJob(data).save()] on the queue connected for
    [key]. *)
Definition createJob_save (key : string) (data : IRequest) : M MState Job :=
  fun s =>
    in_ext (save (connectQueue "server" key) data)
           (mkMState (reply s) (jobs s ++ [(key, data)])%list (ext s)).

(** The body of the [if (matches)] block for one mapping entry. *)
Definition forward (request : Request) (start : Z) (REQ_METHOD : string) (m : IMapper)
    : M MState IResponse :=
  let key := m_queue m in
  let data := mkRequest REQ_METHOD (req_url request) (req_headers request)
                        (req_query request) (req_params request) None None Undefined in
  let* hooked := match pre m with
                 | Some pre => in_ext (pre request data)
                 | None => ret (request, data)
                 end in
  let request := hooked.1 in
  let data := hooked.2 in
  let queue := connectQueue "server" key in
  let data := if bool_decide (REQ_METHOD ∈ ["POST"; "PUT"; "PATCH"])
              then with_body (req_body request) data else data in
  let* job := createJob_save key data in
  let* res := in_ext (wait queue job (or_default (timeout config) (30 * 1000))) in
  reply_status (res_statusCode res) ;;;
  let* res := match post m with
              | Some post => in_reply_ext (post request res)
              | None => ret res
              end in
  let* res := match cache res with
              | Some c =>
                  reply_applyCache c ;;;
                  ret (mkResult (res_statusCode res) (result res) None (res_elapsed res))
              | None => ret res
              end in
  let* t := now in
  ret (Result (mkResult (res_statusCode res) (result res) (cache res) (Some (t - start)%Z))).

(** The [for (const { method, path, pre, post, queue: key } of mapper)]
    loop, followed by the statements after it. Calling
    [toLocaleUpperCase] on a [method] that is [undefined] is a
    TypeError. *)
Fixpoint for_of (request : Request) (start : Z) (pathname : string) (entries : list IMapper)
    : M MState IResponse :=
  match entries with
  | [] => reply_status NOT_FOUND ;;; throw NotFound
  | m :: rest =>
      let REQ_METHOD := toLocaleUpperCase (req_method request) in
      let* MAP_METHOD :=
        match m_method m with
        | Some method => ret (toLocaleUpperCase method)
        | None => throw (TypeError "Cannot read properties of undefined")
        end in
      if (REQ_METHOD =? MAP_METHOD) || ("ALL" =? MAP_METHOD) then
        if matches (match_ (m_path m) pathname)
        then forward request start REQ_METHOD m
        else for_of request start pathname rest
      else for_of request start pathname rest
  end.

(** The [try] block of the RESTful handler. *)
Definition restful_try (request : Request) (start : Z) : M MState IResponse :=
  let* pathname := (fun s => (URL_pathname (req_url request) (or_default (port config) 8080), s)) in
  for_of request start pathname mapper.

(** The [catch (e)] block of the RESTful handler:
    [[
      const statusCode = e.statusCode || httpStatus.INTERNAL_SERVER_ERROR;
      reply.status(statusCode);
      return { statusCode, error: e.message, extra: e.extra,
               elapsed: Date.now() - start };
    ]]
    Reading [e.statusCode] of a failure that is [null] or [undefined]
    throws a TypeError out of the block. *)
Definition restful_catch (start : Z) (e : Thrown) : M MState IResponse :=
  match e with
  | Nullish => throw (TypeError "Cannot read properties of undefined")
  | Error_object e =>
      let statusCode := or_default (statusCode e) INTERNAL_SERVER_ERROR in
      reply_status statusCode ;;;
      let* t := now in
      ret (Error (mkError statusCode (message e) (extra e) (Some (t - start)%Z)))
  end.

(** The [try]/[catch] statement of the RESTful handler. *)
Definition restful_guarded (request : Request) (start : Z) : M MState IResponse :=
  try_catch (restful_try request start) (restful_catch start).

(** [app.all('*', async (request, reply) => ...)] *)
Definition restful (request : Request) : M MState IResponse :=
  match config_cache config with
  | Some c => reply_applyCache c
  | None => ret tt
  end ;;;
  let* start := now in
  restful_guarded request start.

(** The data of a health probe. *)
Definition health_data (request : Request) : IRequest :=
  mkRequest "HEALTH" "" (req_headers request) (Obj "Object" 0) (Obj "Object" 0)
            None None Undefined.

(** Vocabulary of the properties: the entry of the queue [key] when its
    probe was answered with [res], and when it failed with the error
    object [e], the clock being read at [t]. *)
Definition answered (start : Z) (key : string) (res : IResult) (t : Z) : ProbeEntry :=
  mkProbe (Result (mkResult (res_statusCode res) None (cache res) (Some (t - start)%Z))) key.

Definition failed (start : Z) (key : string) (e : Exn) (t : Z) : ProbeEntry :=
  mkProbe (Error (mkError (or_default (statusCode e) INTERNAL_SERVER_ERROR) (message e)
                          Undefined (Some (t - start)%Z))) key.

(** The callback of [keys.map] in the health check: one probe. A failure
    that is [null] or [undefined] makes the [catch] block throw, reading
    [e.statusCode]. *)
Definition probe (request : Request) (start : Z) (key : string) : M MState ProbeEntry :=
  try_catch
    (let queue := connectQueue "server" key in
     let data := health_data request in
     let* job := createJob_save key data in
     let* res := in_ext (wait queue job (3 * 1000)) in
     let* t := now in
     ret (mkProbe (Result (mkResult (res_statusCode res) None (cache res)
                                    (Some (t - start)%Z))) key))
    (fun e =>
       match e with
       | Nullish => throw (TypeError "Cannot read properties of undefined")
       | Error_object e =>
           let* t := now in
           ret (mkProbe (Error (mkError (or_default (statusCode e) INTERNAL_SERVER_ERROR)
                                        (message e) Undefined (Some (t - start)%Z))) key)
       end).

(** [const keys = uniq(mapper.map((m) => m.queue))] *)
Definition health_keys : list string := uniq (map m_queue mapper).

(** [app.get('/health', async (request, reply) => ...)]. The probes run
    concurrently; each catches the failures of its own save and wait, and
    the array keeps the order of [keys]. A rejected probe rejects the
    [await], and with it the handler. *)
Definition health (request : Request) : M MState HealthResponse :=
  reply_header "cache-control" "no-cache, no-store" ;;;
  let* start := now in
  let keys := health_keys in
  let* result := Promise_all (map (probe request start) keys) in
  let unavailable :=
    List.find (fun r => negb (response_statusCode (entry r) =? OK)%Z) result in
  let statusCode := match unavailable with
                    | Some _ => SERVICE_UNAVAILABLE
                    | None => OK
                    end in
  reply_status statusCode ;;;
  let* t := now in
  ret (match unavailable with
       | Some _ => HealthError statusCode NAME_500 (t - start)
       | None => HealthResult statusCode result (t - start)
       end).

End Master.

End Master.

(** ** The wait-with-timeout primitive *)

Module Wait.

(** Modelled from the spec: the signals of section 4.5, which [wait] of
    [utils] (not among the sources) listens for. The broker and the clock
    can deliver the success signal of a job with its result, the failure
    signal of a job with the reported status code and message, and the
    firing of the timer. *)
Inductive Signal : Type :=
| Succeeded (jobId : nat) (res : IResult)
| Failed (jobId : nat) (code : Z) (msg : string)
| TimerFired.

(** Modelled from the spec: how the wait is resolved, with the Result
    Envelope or by signalling a failure. *)
Inductive Settlement : Type :=
| Resolved (res : IResult)
| Rejected (e : Exn).

(** Modelled from the spec: the Gateway Timeout failure of the timer. *)
Definition GatewayTimeout : Exn :=
  mkExn "GatewayTimeoutError" (Some 504%Z) "Gateway Timeout" Undefined.

(** Modelled from the spec: [wait(queue, job, timeout)] of [utils], which
    is not among the sources. Section 4.5: one listener for the job's
    success signal and one for its failure signal, both keyed by job id,
    and a timer; whichever outcome wins, the other listeners and the timer
    are detached or cleared. A state holds the job id each listener is
    attached for, whether the timer is armed, and every resolution made so
    far, oldest first. *)
Record Waiting : Type := mkWaiting {
  on_succeeded : option nat;
  on_failed : option nat;
  timer : bool;
  settlements : list Settlement
}.

(** Modelled from the spec: the state right after [wait] has registered
    its listeners and started its timer. *)
Definition start (jobId : nat) : Waiting :=
  mkWaiting (Some jobId) (Some jobId) true [].

(** Modelled from the spec: resolve with [o], detaching both listeners
    and clearing the timer. *)
Definition settle (o : Settlement) (st : Waiting) : Waiting :=
  mkWaiting None None false (settlements st ++ [o])%list.

(** Modelled from the spec: the delivery of one signal. A signal reaches
    the wait only through a listener attached for its job id, or through
    the armed timer. *)
Definition deliver (st : Waiting) (sig : Signal) : Waiting :=
  match sig with
  | Succeeded jobId res =>
      if bool_decide (on_succeeded st = Some jobId) then settle (Resolved res) st else st
  | Failed jobId code msg =>
      if bool_decide (on_failed st = Some jobId)
      then settle (Rejected (mkExn "Error" (Some code) msg Undefined)) st
      else st
  | TimerFired =>
      if timer st then settle (Rejected GatewayTimeout) st else st
  end.

(** The wait after a sequence of deliveries. *)
Definition run (st : Waiting) (sigs : list Signal) : Waiting :=
  fold_left deliver sigs st.

(** The signals that concern the wait on [jobId]: those of this job, and
    the timer. *)
Definition concerns (jobId : nat) (sig : Signal) : bool :=
  match sig with
  | Succeeded j _ | Failed j _ _ => bool_decide (j = jobId)
  | TimerFired => true
  end.

(** The outcome a signal stands for. *)
Definition outcome (sig : Signal) : Settlement :=
  match sig with
  | Succeeded _ res => Resolved res
  | Failed _ code msg => Rejected (mkExn "Error" (Some code) msg Undefined)
  | TimerFired => Rejected GatewayTimeout
  end.

End Wait.

(** ** decorator.ts: the decorators of one method *)

Module Methods.

Section Methods.

Context {W : Type}.
Variable fixUrl : string -> string.
Variable match_ : string -> string -> Match.

(** A decorator written on a method of a module class. *)
Inductive MethodDecorator : Type :=
| AtGuard (guardFuncs : list (@Decorator.CheckData W))
| AtCache (options : ICache)
| AtPath (method_ : string) (url_ : string + @Decorator.CheckData W).

(** What a decorator of a method of the class named [target] acts on:
    [descriptor.value] and the registry [paths]. [Guard] and [Cache]
    replace [descriptor.value] by the wrapped function; [Path] reads
    [descriptor.value] and pushes it on the registry, leaving the
    descriptor as it is. *)
Definition apply (target : string) (d : MethodDecorator)
    (st : @Decorator.PathFunction W * gmap string (gmap string (list (@Decorator.Entry W))))
    : @Decorator.PathFunction W * gmap string (gmap string (list (@Decorator.Entry W))) :=
  match d with
  | AtGuard guardFuncs => (Decorator.Guard guardFuncs st.1, st.2)
  | AtCache options => (Decorator.Cache options st.1, st.2)
  | AtPath method_ url_ => (st.1, Decorator.Path fixUrl match_ method_ url_ target st.1 st.2)
  end.

(** The decorators [ds] of one method [func], in the order they are
    written above it. TypeScript applies the decorators of a declaration
    from the last written to the first, each on the descriptor the one
    before it left; the three decorators return nothing, so the descriptor
    they were given stands. *)
Definition decorate (target : string) (ds : list MethodDecorator) (func : @Decorator.PathFunction W)
    (paths : gmap string (gmap string (list (@Decorator.Entry W))))
    : @Decorator.PathFunction W * gmap string (gmap string (list (@Decorator.Entry W))) :=
  fold_right (apply target) (func, paths) ds.

(** Vocabulary of the properties: a decorator that wraps the method and
    registers nothing. *)
Definition wraps (d : MethodDecorator) : bool :=
  match d with
  | AtPath _ _ => false
  | _ => true
  end.

(** Vocabulary of the properties: the bin of a class and a method in a
    registry, empty when there is none. *)
Definition bin_of (paths : gmap string (gmap string (list (@Decorator.Entry W))))
    (cname method_ : string) : list (@Decorator.Entry W) :=
  default [] (default ∅ (paths !! cname) !! method_).

End Methods.

End Methods.

(** ** index.ts: the worker's job processor *)

Module Worker.

(** What the processor hands to the broker's [done] callback:
    [done(null, result)] or [done(err)]; or nothing, when the callback of
    [catch] itself throws [err], which nothing handles. *)
Inductive Report : Type :=
| Done (res : IResult)
| Failed (err : Exn)
| Unhandled (err : Exn).

Section Worker.

Context {W : Type}.
Variable fixUrl : string -> string.

(** [queueLogger.info] and [queueLogger.error]. *)
Variable logger_info : IRequest -> W -> W.
Variable logger_error : Exn -> W -> W.

(** [new Error(e.statusCode)]: the message is the number as a string. *)
Definition Error_of_status (code : Z) : Exn := mkExn "Error" None (pretty code) Undefined.

(** The callback of [queue.process]:
    [[
      queueLogger.info(job.data);
      queueInst.run(job.data)
        .then((result) => done(null, result))
        .catch((e) => {
          queueLogger.error(e, e.message);
          done(e.statusCode ? new Error(e.statusCode) : e);
        });
    ]]
    The arguments of [queueLogger.error] are evaluated first: for a
    failure that is [null] or [undefined], reading [e.message] throws. *)
Definition process (queueInst : Decorator.QueueClass) (job_data : IRequest)
    (s : @Decorator.Store W) : Report * @Decorator.Store W :=
  let s0 := Decorator.mkStore (Decorator.paths s) (logger_info job_data (Decorator.world s)) in
  match Decorator.run fixUrl queueInst job_data s0 with
  | (Normal res, s1) => (Done res, s1)
  | (Throw (Error_object e), s1) =>
      let s2 := Decorator.mkStore (Decorator.paths s1) (logger_error e (Decorator.world s1)) in
      (Failed (match statusCode e with
               | Some code => if (code =? 0)%Z then e else Error_of_status code
               | None => e
               end), s2)
  | (Throw Nullish, s1) => (Unhandled (TypeError "Cannot read properties of undefined"), s1)
  end.

End Worker.

End Worker.

(** ** interface.ts: the [Dependencies] class as an object on the heap *)

Module Dependencies.

(** The objects [new Dependencies()] has allocated, each with its field
    [dependencies]; the static field [Dependencies.instance]; and the next
    free reference. *)
Record Heap : Type := mkHeap {
  objects : gmap nat (gmap string value);
  instance : option nat;
  next : nat
}.

(** [new Dependencies()]: a fresh object [this] is allocated and its
    field initialised ([dependencies = {}]); then the constructor runs:
    [[
      if (!Dependencies.instance) Dependencies.instance = this;
      return Dependencies.instance;
    ]]
    A constructor that returns an object makes [new] evaluate to that
    object. *)
Definition new : M Heap nat :=
  fun h =>
    let this := next h in
    let objects' := <[this := ∅]> (objects h) in
    let instance' := match instance h with
                     | Some i => i
                     | None => this
                     end in
    (Normal instance', mkHeap objects' (Some instance') (S this)).

(** A method called on the object [this], acting on its field
    [dependencies]. *)
Definition on {A} (this : nat) (m : M (gmap string value) A) : M Heap A :=
  zoom (fun h => default ∅ (objects h !! this))
       (fun d h => mkHeap (<[this := d]> (objects h)) (instance h) (next h)) m.

Definition register (this : nat) (dependency : value) : M Heap unit :=
  on this (Registry.register dependency).

Definition get (member : value -> string -> value) (this : nat) (dependency_name : string)
    : M Heap value :=
  on this (Registry.get member dependency_name).

(** Vocabulary of the properties: the field [dependencies] of the one
    instance, and the heaps the class produces (the instance, when there
    is one, has been allocated). *)
Definition the_registry (h : Heap) : gmap string value :=
  match instance h with
  | Some i => default ∅ (objects h !! i)
  | None => ∅
  end.

Definition allocated (h : Heap) : Prop :=
  match instance h with
  | Some i => i < next h
  | None => True
  end.

(** The heap before the first [new Dependencies()]. *)
Definition empty : Heap := mkHeap ∅ None 0.

End Dependencies.

(** ** index.ts: [main] *)

Module Main.

(** [config.clusters?: boolean | number], a number being an integer. *)
Inductive Clusters : Type :=
| ClustersTrue
| ClustersFalse
| ClustersNumber (n : Z)
| ClustersAbsent.

(** What [main] reads of the configuration: [clusters], and whether the
    keys [port] and [modules] are there. *)
Record IConfig : Type := mkConfig {
  config_clusters : Clusters;
  has_port : bool;
  has_modules : bool
}.

Inductive ServerType : Type := MASTER | WORKER | HYBRID.

(** What a process does in [main]. *)
Inductive Action : Type := Fork | MasterMain | WorkerMain.

#[global] Instance Action_eq_dec : EqDecision Action.
Proof. solve_decision. Defined.

(** [[
      if (config.clusters === true) clusters = cpus().length;
      else if (config.clusters === false) clusters = 0;
      else clusters = config.clusters;
    ]]
    [None] for [undefined]. *)
Definition clusters (config : IConfig) (cpus_length : Z) : option Z :=
  match config_clusters config with
  | ClustersTrue => Some cpus_length
  | ClustersFalse => Some 0%Z
  | ClustersNumber n => Some n
  | ClustersAbsent => None
  end.

(** The [switch (true)] on ['port' in config] and ['modules' in config];
    without a matching case [serverType] stays [undefined]. *)
Definition serverType (config : IConfig) : option ServerType :=
  if has_port config && has_modules config then Some HYBRID
  else if has_port config then Some MASTER
  else if has_modules config then Some WORKER
  else None.

Definition is_type (t : ServerType) (s : option ServerType) : bool :=
  match s, t with
  | Some MASTER, MASTER | Some WORKER, WORKER | Some HYBRID, HYBRID => true
  | _, _ => false
  end.

(** [for (let i = 0; i < clusters; i++) cluster.fork();] *)
Definition forks (clusters : Z) : list Action := replicate (Z.to_nat clusters) Fork.

(** [main], after the configuration is loaded, in a process for which
    [cluster.isPrimary] is [isPrimary]. [!clusters] holds for [undefined]
    and for 0. *)
Definition main (isPrimary : bool) (config : IConfig) (cpus_length : Z) : list Action :=
  let serverType := serverType config in
  if negb (to_boolean (match clusters config cpus_length with
                       | Some n => Num n
                       | None => Undefined
                       end))
  then
    ((if negb (is_type WORKER serverType) then [MasterMain] else []) ++
     (if negb (is_type MASTER serverType) then [WorkerMain] else []))%list
  else
    if isPrimary then
      (forks (default 0%Z (clusters config cpus_length)) ++
       (if is_type HYBRID serverType then [MasterMain] else []))%list
    else if is_type MASTER serverType then [MasterMain]
    else [WorkerMain].

Definition count (a : Action) (l : list Action) : nat :=
  length (filter (fun x => x = a) l).

(** The processes of a deployment: the primary, and one process per
    [cluster.fork()], which runs the same script with [cluster.isPrimary]
    false. *)
Definition processes (config : IConfig) (cpus_length : Z) : list (list Action) :=
  let primary := main true config cpus_length in
  primary :: replicate (count Fork primary) (main false config cpus_length).

(** The number of processes that run [a]. *)
Definition running (a : Action) (ps : list (list Action)) : nat :=
  length (filter (fun p => a ∈ p) ps).

End Main.

(** ** plugin.ts: the hooks that run on a request *)

Module Plugin.

(** [req.extra], once it is an object: the three tokens, each a string or
    [undefined]. *)
Record Extra : Type := mkExtra {
  device : option string;
  access : option string;
  refresh : option string
}.

(** [IMapper] as [interface.ts] declares it. *)
Record IMapper : Type := mkMapper {
  method : option string;
  path : string;
  queue : string;
  plugins : option (list string)
}.

(** What the hooks read and write of a [FastifyRequest]. [extra],
    [jwtPayload], [start] and [mapper] are [undefined] until a hook sets
    them. *)
Record FastifyRequest : Type := mkFastifyRequest {
  req_method : string;
  req_url : string;
  req_headers : gmap string string;
  daoHelper : value;
  extra : option Extra;
  req_mapper : option IMapper;
  jwtPayload : option value;
  start : option Z
}.

(** The members of [IMasterConfig] the hooks read. *)
Record IMasterConfig : Type := mkConfig {
  port : option Z;
  mapper : list IMapper;
  access_token_secret : option string
}.

Definition deviceTokenKey : string := "x-device-token".
Definition refreshTokenKey : string := "x-refresh-token".

(** [BadRequest] of [http-errors]. *)
Definition BadRequest (msg : string) : Exn := mkExn "BadRequestError" (Some 400%Z) msg Undefined.

(** ToBoolean of a string or [undefined]. *)
Definition truthy (s : option string) : bool :=
  match s with
  | Some s => negb (s =? "")
  | None => false
  end.

(** [s.substring(7)] *)
Definition substring_7 (s : string) : string := substring 7 (String.length s - 7) s.

Definition with_daoHelper (d : value) (req : FastifyRequest) : FastifyRequest :=
  mkFastifyRequest (req_method req) (req_url req) (req_headers req) d (extra req)
    (req_mapper req) (jwtPayload req) (start req).
Definition with_extra (e : Extra) (req : FastifyRequest) : FastifyRequest :=
  mkFastifyRequest (req_method req) (req_url req) (req_headers req) (daoHelper req) (Some e)
    (req_mapper req) (jwtPayload req) (start req).
Definition with_mapper (m : option IMapper) (req : FastifyRequest) : FastifyRequest :=
  mkFastifyRequest (req_method req) (req_url req) (req_headers req) (daoHelper req) (extra req)
    m (jwtPayload req) (start req).
Definition with_jwtPayload (p : value) (req : FastifyRequest) : FastifyRequest :=
  mkFastifyRequest (req_method req) (req_url req) (req_headers req) (daoHelper req) (extra req)
    (req_mapper req) (Some p) (start req).
Definition with_start (t : Z) (req : FastifyRequest) : FastifyRequest :=
  mkFastifyRequest (req_method req) (req_url req) (req_headers req) (daoHelper req) (extra req)
    (req_mapper req) (jwtPayload req) (Some t).

Section Plugin.

Context {W URL : Type}.

(** Outside the sources at hand: [new URL(url, base)] with the base
    [http://localhost:${config.port}] and its [pathname], [matchUrl] and
    [verify] of [utils], [Date.now()], and the [DaoHelper] the first
    plugin builds. *)
Variable new_URL : string -> option Z -> Completion URL.
Variable pathname : URL -> string.
Variable matchUrl : string -> URL -> list IMapper -> option IMapper.
Variable verify : string -> option string -> M W value.
Variable Date_now : W -> Z * W.
Variable the_daoHelper : value.

Variable config : IMasterConfig.

(** A hook: what it does to the request, in the world. *)
Definition Hook : Type := FastifyRequest -> M W FastifyRequest.

(** [connectDB]: [req.daoHelper = daoHelper] *)
Definition connectDB : Hook := fun req => ret (with_daoHelper the_daoHelper req).

(** [getDeviceToken]:
    [[
      if (!req.extra) req.extra = {};
      req.extra.device = req.headers[deviceTokenKey];
    ]] *)
Definition getDeviceToken : Hook :=
  fun req =>
    let e := match extra req with
             | Some e => e
             | None => mkExtra None None None
             end in
    ret (with_extra (mkExtra (req_headers req !! deviceTokenKey) (access e) (refresh e)) req).

(** [getAccessToken]:
    [[
      if (req.headers.authorization) {
        req.extra.access = req.headers.authorization.substring(7);
      }
    ]]
    Setting a property of [undefined] is a TypeError. *)
Definition getAccessToken : Hook :=
  fun req =>
    if truthy (req_headers req !! "authorization") then
      match extra req with
      | Some e =>
          ret (with_extra
                 (mkExtra (device e)
                    (Some (substring_7 (default "" (req_headers req !! "authorization"))))
                    (refresh e)) req)
      | None => throw (TypeError "Cannot set properties of undefined")
      end
    else ret req.

(** [getRefreshToken]: [req.extra.refresh = req.headers[refreshTokenKey]] *)
Definition getRefreshToken : Hook :=
  fun req =>
    match extra req with
    | Some e => ret (with_extra (mkExtra (device e) (access e)
                                   (req_headers req !! refreshTokenKey)) req)
    | None => throw (TypeError "Cannot set properties of undefined")
    end.

(** [mapUrl]:
    [[
      const url = new URL(req.url, `http://localhost:${config.port}`);
      const mapper = (req.mapper = matchUrl(req.method, url, ...config.mapper));
      if (!mapper && url.pathname !== '/health') throw new NotFound();
    ]] *)
Definition mapUrl : Hook :=
  fun req =>
    let* url := (fun w => (new_URL (req_url req) (port config), w)) in
    let mapper := matchUrl (req_method req) url (mapper config) in
    let req := with_mapper mapper req in
    match mapper with
    | Some _ => ret req
    | None => if negb (pathname url =? "/health") then throw NotFound else ret req
    end.

(** [authenticate]:
    [[
      if (req.extra.access &&
          req.mapper.plugins?.find((p) => p === 'authenticate')) {
        if (!req.extra.device) throw new BadRequest('Missing Device Token');
        req.jwtPayload = await verify(req.extra.access, config.auth.access_token.secret);
      }
    ]]
    Reading a property of [undefined] is a TypeError; [?.] guards
    [plugins] only. *)
Definition authenticate : Hook :=
  fun req =>
    match extra req with
    | None => throw (TypeError "Cannot read properties of undefined")
    | Some e =>
        if truthy (access e) then
          match req_mapper req with
          | None => throw (TypeError "Cannot read properties of undefined")
          | Some m =>
              if truthy (match plugins m with
                         | Some ps => List.find (fun p => p =? "authenticate") ps
                         | None => None
                         end)
              then
                if negb (truthy (device e)) then throw (BadRequest "Missing Device Token")
                else
                  let* payload := verify (default "" (access e)) (access_token_secret config) in
                  ret (with_jwtPayload payload req)
              else ret req
          end
        else ret req
    end.

(** [markElapsed], on a request: [req.start = Date.now()] *)
Definition markElapsed : Hook :=
  fun req w => let '(t, w') := Date_now w in (Normal (with_start t req), w').

(** The [onRequest] hooks, which run in the order in which the plugins
    add them: the order of the array the file exports. A hook that throws
    ends the chain. *)
Definition onRequest : Hook :=
  fun req =>
    let* req := connectDB req in
    let* req := getDeviceToken req in
    let* req := getAccessToken req in
    let* req := getRefreshToken req in
    let* req := mapUrl req in
    let* req := authenticate req in
    markElapsed req.

End Plugin.

End Plugin.

(** ** Concrete modules, mappers and stores

    The instances the examples below are evaluated on. *)

Module Demo.

(** A world that records what ran, in order. *)
Definition log (msg : string) : M (list string) unit :=
  fun w => (Normal tt, (w ++ [msg])%list).

(** The guards [g1 = false] and [g2 = side effect], and a handler. *)
Definition g1 : IRequest -> M (list string) bool := fun _ => log "g1" ;;; ret false.
Definition g2 : IRequest -> M (list string) bool := fun _ => log "g2" ;;; ret true.
Definition handler : Decorator.Receiver -> IRequest -> M (list string) IResult :=
  fun _ _ => log "handler" ;;; ret (mkResult 200 None None None).

(** A handler that reads a field of its instance, as in
    [this.dependencies.get(...)]: without a receiver the read is a
    TypeError. *)
Definition reads_this : Decorator.Receiver -> IRequest -> M (list string) IResult :=
  fun this _ =>
    match this with
    | Decorator.Instance cls => log ("this: " +:+ cls) ;;; ret (mkResult 200 None None None)
    | Decorator.Unbound => throw (TypeError "Cannot read properties of undefined")
    end.

Definition get_orders : IRequest :=
  mkRequest "GET" "/orders" Undefined Undefined Undefined None None Undefined.

(** A path matcher that compares literally. *)
Definition exact_match (path url_ : string) : Match := mkMatch (path =? url_) None.

(** Modelled from the spec: [fixUrl] of [utils], which is not among the
    sources. Section 4.1: leading [/] enforced, trailing [/] stripped,
    which is what [Queue] does to its base url. *)
Definition fixUrl : string -> string := Decorator.fix_base_url.

(** A module [UserQueue] with [@Path('get', '/users') users] and
    [@Path('all', '/orders') orders]. *)
Definition users : Decorator.Receiver -> IRequest -> M (list string) IResult :=
  fun _ _ => log "users" ;;; ret (mkResult 200 (Some (Str "users")) None None).
Definition orders : Decorator.Receiver -> IRequest -> M (list string) IResult :=
  fun _ _ => log "orders" ;;; ret (mkResult 200 (Some (Str "orders")) None None).

Definition UserQueue_paths : gmap string (gmap string (list Decorator.Entry)) :=
  Decorator.Path fixUrl exact_match "all" (inl "/orders") "UserQueue" orders
    (Decorator.Path fixUrl exact_match "get" (inl "/users") "UserQueue" users ∅).

(** A module [ItemQueue] whose routes are bound by predicates:
    [@Path('get', is_items) items] and [@Path('all', is_any) fallback]. *)
Definition is_items : IRequest -> M (list string) bool :=
  fun data => log "is_items" ;;; ret (url data =? "/items").
Definition is_orders : IRequest -> M (list string) bool :=
  fun data => log "is_orders" ;;; ret (url data =? "/orders").
Definition items : Decorator.Receiver -> IRequest -> M (list string) IResult :=
  fun _ _ => log "items" ;;; ret (mkResult 200 (Some (Str "items")) None None).

Definition ItemQueue_paths : gmap string (gmap string (list Decorator.Entry)) :=
  Decorator.Path fixUrl exact_match "all" (inr is_orders) "ItemQueue" orders
    (Decorator.Path fixUrl exact_match "get" (inr is_items) "ItemQueue" items ∅).

(** A storage layer that records its calls. *)
Definition begin : M (list string) nat := fun w => (Normal 7, (w ++ ["BEGIN"])%list).
Definition commit (t : nat) : M (list string) unit := log "COMMIT".
Definition rollback (t : nat) : M (list string) unit := log "ROLLBACK".
Definition rollback_fails (t : nat) : M (list string) unit :=
  log "ROLLBACK" ;;; throw (InternalServerError "connection lost").
Definition MyException (func : string) (e : Thrown) : Thrown :=
  match e with
  | Error_object e => mkExn "MyException" (statusCode e) (message e) (extra e)
  | Nullish => mkExn "MyException" None "" Undefined
  end.
Definition insert_row (t : nat) : M (list string) Z := log "INSERT" ;;; ret 42%Z.
Definition violate (t : nat) : M (list string) Z :=
  log "INSERT" ;;; throw (InternalServerError "constraint").

(** A master whose world is the clock. Every queue answers 200, except
    that jobs cannot be saved on the queue [orders]. *)
Definition Date_now (w : Z) : Z * Z := (w, (w + 1)%Z).
Definition URL_pathname (u : string) (port : Z) : Completion string := Normal u.
Definition connectQueue (type key : string) : string := key.
Definition save (queue : string) (data : IRequest) : M Z nat :=
  if queue =? "orders" then throw (mkExn "Error" None "ECONNREFUSED" Undefined) else ret 1.
Definition wait (queue : string) (job : nat) (ms : Z) : M Z IResult :=
  ret (mkResult 200 (Some (Str queue)) None None).
Definition applyCache (r : Master.Reply) (c : ICache) : Master.Reply := r.
Definition config : Master.IMasterConfig := Master.mkConfig None None None.

Definition get_b : Master.Request :=
  Master.mkReq "GET" "/b" Undefined Undefined Undefined Undefined.

Definition state0 : @Master.MState Z :=
  Master.mkMState (Master.mkReply 200 []) [] 0%Z.

Definition post_b : @Master.IMapper Z := Master.mkMapper (Some "POST") "/b" "q1" None None.
Definition get_b_q2 : @Master.IMapper Z := Master.mkMapper (Some "GET") "/b" "q2" None None.
Definition all_b_q3 : @Master.IMapper Z := Master.mkMapper (Some "ALL") "/b" "q3" None None.

(** An entry that leaves [method] out, as [IMapper] allows. *)
Definition a_without_method : @Master.IMapper Z := Master.mkMapper None "/a" "q1" None None.

(** An entry whose [pre] hook fails with the status code 0. *)
Definition boom : Exn := mkExn "Error" (Some 0%Z) "boom" Undefined.
Definition get_b_boom : @Master.IMapper Z :=
  Master.mkMapper (Some "GET") "/b" "q2" (Some (fun _ _ => throw boom)) None.

Definition restful (mapper : list (@Master.IMapper Z)) : Master.Request -> M Master.MState Master.IResponse :=
  Master.restful Date_now URL_pathname exact_match connectQueue save wait applyCache config mapper.

End Demo.

(** ** Further closed instances *)

Module Examples.

(** A module [AdminQueue] whose one method is written
    [[
      @Guard(g1)
      @Path('get', is_orders)
      @Guard(g2)
      handler(data) { ... }
    ]] *)
Definition above : list (@Methods.MethodDecorator (list string)) :=
  [Methods.AtGuard [Demo.g1]].
Definition below : list (@Methods.MethodDecorator (list string)) :=
  [Methods.AtGuard [Demo.g2]].

Definition AdminQueue_paths : gmap string (gmap string (list Decorator.Entry)) :=
  (Methods.decorate Demo.fixUrl Demo.exact_match "AdminQueue"
     (above ++ Methods.AtPath "get" (inr Demo.is_orders) :: below)%list Demo.handler ∅).2.

(** A module [AuditQueue] whose one route is guarded by [g2] and [g1]:
    [@Path('get', is_orders) @Guard(g2, g1) handler]. *)
Definition AuditQueue_paths : gmap string (gmap string (list Decorator.Entry)) :=
  (Methods.decorate Demo.fixUrl Demo.exact_match "AuditQueue"
     [Methods.AtPath "get" (inr Demo.is_orders); Methods.AtGuard [Demo.g2; Demo.g1]]
     Demo.handler ∅).2.

(** A queue logger that records its calls in the world. *)
Definition logger_info (data : IRequest) (w : list string) : list string :=
  (w ++ ["info"])%list.
Definition logger_error (e : Exn) (w : list string) : list string :=
  (w ++ [String.append "error: " (message e)])%list.

Definition get_users : IRequest :=
  mkRequest "GET" "/users" Undefined Undefined Undefined None None Undefined.

(** A request [post /b] with a body, and an entry whose [pre] hook puts
    one body on the data and another on the request. *)
Definition post_b_request : Master.Request :=
  Master.mkReq "post" "/b" Undefined Undefined Undefined (Str "payload").
Definition hook_body : Master.Request -> IRequest -> M Z (Master.Request * IRequest) :=
  fun request data =>
    ret (Master.mkReq (Master.req_method request) (Master.req_url request)
           (Master.req_headers request) (Master.req_query request)
           (Master.req_params request) (Str "set on the request"),
         with_body (Str "set on the data") data).
Definition post_b_hook : @Master.IMapper Z :=
  Master.mkMapper (Some "POST") "/b" "q1" (Some hook_body) None.

Definition get_c : Master.Request :=
  Master.mkReq "GET" "/c" Undefined Undefined Undefined Undefined.

(** A heap on which the class was instantiated once and a [Sequelize]
    registered. *)
Definition one_registered : Dependencies.Heap :=
  (Dependencies.register 0 (Obj "Sequelize" 1) (Dependencies.new Dependencies.empty).2).2.

(** Objects without properties of their own or inherited. *)
Definition member (object : value) (key : string) : value := Undefined.

(** A module [ReaderQueue] whose handler reads its instance, behind a
    guard that lets every request pass:
    [@Path('get', is_orders) @Guard(g2) reads_this]; and the same module
    without the guard. *)
Definition ReaderQueue_paths : gmap string (gmap string (list Decorator.Entry)) :=
  (Methods.decorate Demo.fixUrl Demo.exact_match "ReaderQueue"
     [Methods.AtPath "get" (inr Demo.is_orders); Methods.AtGuard [Demo.g2]]
     Demo.reads_this ∅).2.
Definition ReaderQueue_unguarded : gmap string (gmap string (list Decorator.Entry)) :=
  (Methods.decorate Demo.fixUrl Demo.exact_match "ReaderQueue"
     [Methods.AtPath "get" (inr Demo.is_orders)] Demo.reads_this ∅).2.

(** A master on which the wait for a job of the queue [stale] is rejected
    with an error that carries the status code 200, and the save of a job
    on the queue [down] is rejected with [null]. *)
Definition wait_200 (queue : string) (job : nat) (ms : Z) : M Z IResult :=
  if queue =? "stale" then throw (mkExn "Error" (Some 200%Z) "stale" Undefined)
  else ret (mkResult 200 (Some (Str queue)) None None).
Definition save_null (queue : string) (data : IRequest) : M Z nat :=
  if queue =? "down" then throw Nullish else ret 1.
Definition get_stale : @Master.IMapper Z := Master.mkMapper (Some "GET") "/s" "stale" None None.
Definition get_down : @Master.IMapper Z := Master.mkMapper (Some "GET") "/d" "down" None None.

(** An entry whose [pre] hook is rejected with [undefined]. *)
Definition get_b_null : @Master.IMapper Z :=
  Master.mkMapper (Some "GET") "/b" "q2" (Some (fun _ _ => throw Nullish)) None.

(** A master whose workers answer with cache directives, and an
    [applyCache] that writes them on the reply. *)
Definition one_hour : ICache := mkCache (Some true) None None (Some 3600%Z) None.
Definition wait_cached (queue : string) (job : nat) (ms : Z) : M Z IResult :=
  ret (mkResult 200 (Some (Str queue)) (Some one_hour) None).
Definition applyCache_header (r : Master.Reply) (c : ICache) : Master.Reply :=
  Master.mkReply (Master.status r)
    (Master.reply_headers r ++ [("cache-control", "private, max-age")])%list.

(** A master whose one route, [GET /me], lists the plugin
    [authenticate]; [verify] accepts any token and records the call. *)
Definition me : Plugin.IMapper :=
  Plugin.mkMapper (Some "GET") "/me" "users" (Some ["signTokens"; "authenticate"]).
Definition plugin_config : Plugin.IMasterConfig :=
  Plugin.mkConfig (Some 8080%Z) [me] (Some "secret").
Definition new_URL (u : string) (port : option Z) : Completion string := Normal u.
Definition pathname (u : string) : string := u.
Definition matchUrl (method_ : string) (u : string) (mapper : list Plugin.IMapper)
    : option Plugin.IMapper :=
  List.find (fun m => Plugin.path m =? u) mapper.
Definition verify (token : string) (secret : option string) : M (list string) value :=
  Demo.log (String.append "verify " token) ;;; ret (Obj "Payload" 1).
Definition Date_now (w : list string) : Z * list string := (0%Z, (w ++ ["now"])%list).

Definition get_me (headers : gmap string string) : Plugin.FastifyRequest :=
  Plugin.mkFastifyRequest "GET" "/me" headers Undefined None None None None.
Definition get_health (headers : gmap string string) : Plugin.FastifyRequest :=
  Plugin.mkFastifyRequest "GET" "/health" headers Undefined None None None None.

Definition onRequest : Plugin.FastifyRequest -> M (list string) Plugin.FastifyRequest :=
  Plugin.onRequest new_URL pathname matchUrl verify Date_now (Obj "DaoHelper" 2) plugin_config.

End Examples.

(** ** Proof automation *)

(** Unfolds a transaction scope down to the calls of the storage layer. *)
Ltac run_scope :=
  unfold Utils.inTransaction, Utils.local, Utils.outer, Utils.read_local,
    Utils.write_local, Utils.MyException_throw, try_finally, try_catch, zoom,
    bind, ret, throw; simpl.

(** Splits the next case distinction of the computation in [H], dropping
    the branches that contradict [H]. *)
Ltac split_match H :=
  match type of H with
  | context [match ?x with _ => _ end] =>
      let E := fresh "E" in destruct x eqn:E; simpl in H; try discriminate H
  | context [let (_, _) := ?x in _] =>
      let E := fresh "E" in destruct x eqn:E; simpl in H; try discriminate H
  end.

(** * Properties *)

(** ** Strings *)

Lemma length_substring_prefix (s : string) (n : nat) :
  n <= String.length s -> String.length (substring 0 n s) = n.
Proof.
  revert n. induction s as [|c s IH]; intros [|n] H; simpl in *; try lia.
  rewrite IH; lia.
Qed.

Lemma endsWith_nonempty (s : string) : endsWith s "/" = true -> 1 <= String.length s.
Proof.
  unfold endsWith. intros H. apply andb_true_iff in H as [H _].
  apply Nat.leb_le in H. exact H.
Qed.

Lemma startsWith_slash (c : ascii) (s : string) :
  startsWith (String c s) "/" = true <-> c = "/"%char.
Proof.
  unfold startsWith. cbn [String.prefix].
  destruct (ascii_dec "/" c) as [E|E].
  - split; [intros _; symmetry; exact E | intros _; destruct s; reflexivity].
  - split; [discriminate | intros H; congruence].
Qed.

Lemma substring_prefix_keeps_head (s : string) (n : nat) :
  startsWith s "/" = true ->
  substring 0 n s = "" \/ startsWith (substring 0 n s) "/" = true.
Proof.
  destruct s as [|c s]; [discriminate|].
  intros H. destruct n; [left; reflexivity|].
  right. change (substring 0 (S n) (String c s)) with (String c (substring 0 n s)).
  apply startsWith_slash. apply startsWith_slash in H. exact H.
Qed.

(** The loop of [Queue] has reached its exit condition once it has been
    given as many rounds as the string has characters. *)
Lemma strip_trailing_stops (rounds : nat) (s : string) :
  String.length s <= rounds ->
  endsWith (Decorator.strip_trailing rounds s) "/" = false.
Proof.
  revert s. induction rounds as [|n IH]; intros s Hlen; simpl.
  - destruct s; [reflexivity | simpl in Hlen; lia].
  - destruct (endsWith s "/") eqn:E; [|exact E].
    apply IH. pose proof (endsWith_nonempty _ E).
    rewrite length_substring_prefix; lia.
Qed.

Lemma strip_trailing_keeps_head (rounds : nat) (s : string) :
  startsWith s "/" = true ->
  Decorator.strip_trailing rounds s = "" \/
  startsWith (Decorator.strip_trailing rounds s) "/" = true.
Proof.
  revert s. induction rounds as [|n IH]; intros s H; simpl.
  - right. exact H.
  - destruct (endsWith s "/"); [|right; exact H].
    destruct (substring_prefix_keeps_head s (String.length s - 1) H) as [E|E].
    + rewrite E. left. destruct n; reflexivity.
    + apply IH, E.
Qed.

Lemma fix_base_url_normal (b : string) :
  endsWith (Decorator.fix_base_url b) "/" = false /\
  (Decorator.fix_base_url b = "" \/ startsWith (Decorator.fix_base_url b) "/" = true).
Proof.
  unfold Decorator.fix_base_url.
  destruct (b =? "") eqn:Eb; simpl.
  - apply String.eqb_eq in Eb. subst. split; [reflexivity | left; reflexivity].
  - split.
    + apply strip_trailing_stops. lia.
    + apply strip_trailing_keeps_head.
      destruct (startsWith b "/") eqn:E; cbn [negb]; [exact E|].
      apply startsWith_slash. reflexivity.
Qed.

(** ** decorator.ts: guards *)

Section GuardProperties.

Context {W : Type}.
Implicit Types (data : IRequest) (w : W) (gs : list (@Decorator.CheckData W)).

(** The callback [(r, f) => r && f(data)] of [Guard]. *)
Local Abbreviation guard_step data :=
  (fun (r : bool) (f : @Decorator.CheckData W) => if r then f data else ret r).

Lemma reduce_app {A B} (f : B -> A -> M W B) (l1 l2 : list A) (init : B) w :
  reduce f (l1 ++ l2)%list init w = bind (reduce f l1 init) (fun acc => reduce f l2 acc) w.
Proof.
  revert init w. induction l1 as [|x l1 IH]; intros init w; simpl.
  - reflexivity.
  - unfold bind. destruct (f init x w) as [[acc|e] w1]; [|reflexivity].
    rewrite IH. reflexivity.
Qed.

(** Once the accumulator is false no predicate is called any more. *)
Lemma reduce_after_false data gs w :
  reduce (guard_step data) gs false w = (Normal false, w).
Proof.
  induction gs as [|g gs IH]; simpl; [reflexivity|].
  unfold bind. simpl. exact IH.
Qed.

Lemma reduce_all_true data gs w w1 :
  Decorator.all_true data gs w = Some w1 ->
  reduce (guard_step data) gs true w = (Normal true, w1).
Proof.
  revert w. induction gs as [|g gs IH]; simpl; intros w H.
  - inversion H. reflexivity.
  - unfold bind. simpl. destruct (g data w) as [[[|]|e] w']; try discriminate.
    apply IH, H.
Qed.

(** The predicates of a guarded handler are evaluated in order and
    evaluation stops at the first that returns false: when the predicates
    [pre] have all returned true and [g] returns false in the world [w2],
    the call fails with Forbidden in that very world [w2], so neither a
    predicate of [post] nor the handler has run. When all predicates
    return true, the call is the handler's call in the world the
    predicates leave, made without a receiver whatever the receiver of the
    guarded call. *)
Lemma Guard_short_circuit :
  (forall (pre post : list Decorator.CheckData) (g : Decorator.CheckData)
          (func : Decorator.PathFunction) (this : Decorator.Receiver) data w w1 w2,
      Decorator.all_true data pre w = Some w1 ->
      g data w1 = (Normal false, w2) ->
      Decorator.Guard (pre ++ g :: post)%list func this data w = (Throw Forbidden, w2))
  /\
  (forall (guardFuncs : list Decorator.CheckData) (func : Decorator.PathFunction)
          (this : Decorator.Receiver) data w w1,
      Decorator.all_true data guardFuncs w = Some w1 ->
      Decorator.Guard guardFuncs func this data w = func Decorator.Unbound data w1).
Proof.
  split.
  - intros pre post g func this data w w1 w2 Hpre Hg.
    unfold Decorator.Guard.
    unfold bind at 1. rewrite reduce_app. unfold bind at 1.
    rewrite (reduce_all_true _ _ _ _ Hpre). simpl.
    unfold bind at 1. simpl. rewrite Hg.
    rewrite reduce_after_false. reflexivity.
  - intros gs func this data w w1 H.
    unfold Decorator.Guard.
    unfold bind. rewrite (reduce_all_true _ _ _ _ H). reflexivity.
Qed.

End GuardProperties.

(** C3, on the module [ReaderQueue], whose handler reads its instance.
    The guards [g1 = false, g2 = side effect] stop at [g1]: [g2] leaves no
    trace and the call fails with Forbidden. Without a guard, [run]
    dispatches GET /orders to the handler, which reads its instance and
    returns. Behind the guard [g2], which lets the request pass, the
    handler is called without a receiver: it fails with a TypeError and
    returns nothing. *)
Lemma Guard_calls_handler_without_receiver :
  Decorator.Guard [Demo.g1; Demo.g2] Demo.reads_this (Decorator.Instance "ReaderQueue")
    Demo.get_orders [] = (Throw Forbidden, ["g1"])
  /\ Decorator.run Demo.fixUrl (Decorator.Queue "" "ReaderQueue") Demo.get_orders
       (Decorator.mkStore Examples.ReaderQueue_unguarded [])
     = (Normal (mkResult 200 None None None),
        Decorator.mkStore Examples.ReaderQueue_unguarded ["is_orders"; "this: ReaderQueue"])
  /\ Decorator.run Demo.fixUrl (Decorator.Queue "" "ReaderQueue") Demo.get_orders
       (Decorator.mkStore Examples.ReaderQueue_paths [])
     = (Throw (TypeError "Cannot read properties of undefined"),
        Decorator.mkStore Examples.ReaderQueue_paths ["is_orders"; "g2"]).
Proof. repeat split. Qed.

(** ** decorator.ts: the route table *)

Section QueueProperties.

Context {W : Type}.
Variable fixUrl : string -> string.
Variable match_ : string -> string -> Match.

Local Abbreviation Store := (@Decorator.Store W).
Local Abbreviation Entry := (@Decorator.Entry W).
Local Abbreviation find := (Decorator.find fixUrl).
Local Abbreviation run := (Decorator.run fixUrl).

(** C10. The class [Queue] builds for a base url [b1] resolves and
    dispatches every request exactly as the class it builds for a base url
    [b2]: [find] and [run] never read the base url. The base url the
    wrapper keeps has its trailing slashes stripped and, unless it is
    empty, starts with a slash. *)
Theorem Queue_base_url_irrelevant (b1 b2 constructor : string) (data : IRequest) (s : Store) :
  run (Decorator.Queue b1 constructor) data s = run (Decorator.Queue b2 constructor) data s
  /\ find (Decorator.Queue b1 constructor) data s
     = find (Decorator.Queue b2 constructor) data s
  /\ endsWith (Decorator.baseUrl (Decorator.Queue b1 constructor)) "/" = false
  /\ (Decorator.baseUrl (Decorator.Queue b1 constructor) = "" \/
      startsWith (Decorator.baseUrl (Decorator.Queue b1 constructor)) "/" = true).
Proof.
  split; [reflexivity|]. split; [reflexivity|]. apply fix_base_url_normal.
Qed.

(** The predicate applied to an entry by [find]. *)
Local Abbreviation checking d :=
  (fun entry : Entry => Decorator.in_world (entry.1 d)).

Lemma array_find_rejects (d : IRequest) (bin : list Entry)
    (ps : gmap string (gmap string (list Entry))) (w w1 : W) :
  Decorator.rejected_by_all d bin w = Some w1 ->
  array_find (checking d) bin (Decorator.mkStore ps w) = (Normal None, Decorator.mkStore ps w1).
Proof.
  revert w. induction bin as [|e bin IH]; intros w H; simpl in *.
  - inversion H. reflexivity.
  - unfold bind, Decorator.in_world at 1, zoom. simpl.
    destruct (e.1 d w) as [[[|]|ex] w']; simpl in *; try discriminate.
    apply IH, H.
Qed.

Lemma array_find_first (d : IRequest) (before after : list Entry) (e : Entry)
    (ps : gmap string (gmap string (list Entry))) (w w1 w2 : W) :
  Decorator.rejected_by_all d before w = Some w1 ->
  e.1 d w1 = (Normal true, w2) ->
  array_find (checking d) (before ++ e :: after)%list (Decorator.mkStore ps w)
    = (Normal (Some e), Decorator.mkStore ps w2).
Proof.
  revert w. induction before as [|x before IH]; intros w H He; simpl in *.
  - inversion H; subst. unfold bind, Decorator.in_world, zoom. simpl.
    rewrite He. reflexivity.
  - unfold bind, Decorator.in_world at 1, zoom. simpl.
    destruct (x.1 d w) as [[[|]|ex] w']; simpl in *; try discriminate.
    apply IH; assumption.
Qed.

(** [find] on a class that has a table searches the bin of the request's
    method; the registry it leaves has the same bins, up to empty ones. *)
Lemma find_eq (this : Decorator.QueueClass) (data : IRequest)
    (ps : gmap string (gmap string (list Entry))) (w : W) (table : gmap string (list Entry)) :
  ps !! Decorator.constructor_name this = Some table ->
  exists ps',
    find this data (Decorator.mkStore ps w) =
      array_find (checking (with_url (fixUrl (url data)) data))
                 (default [] (table !! method data)) (Decorator.mkStore ps' w)
    /\ exists table',
        ps' !! Decorator.constructor_name this = Some table'
        /\ forall k, default [] (table' !! k) = default [] (table !! k).
Proof.
  intros Ht. unfold Decorator.find. simpl. rewrite Ht.
  destruct (table !! method data) as [bin|] eqn:Eb; simpl.
  - exists ps. split; [reflexivity|]. exists table. auto.
  - exists (<[Decorator.constructor_name this := <[method data := []]> table]> ps).
    split; [reflexivity|].
    exists (<[method data := []]> table). split; [apply lookup_insert_eq|].
    intros k. destruct (decide (method data = k)) as [<-|Hne].
    + rewrite lookup_insert_eq, Eb. reflexivity.
    + rewrite lookup_insert_ne by exact Hne. reflexivity.
Qed.

(** X2. Resolution over the predicates of a route table. The first entry
    of the request-method bin whose predicate accepts the request with its
    url fixed is dispatched to; when that bin is missing or rejects, the
    first accepting entry of the ALL bin is, its predicate being given the
    same fixed url and the method ALL; when both reject, NotFound is
    thrown. The handler is given the request as it came, and the
    instance as its receiver. *)
Theorem run_resolution (this : Decorator.QueueClass) (data : IRequest)
    (ps : gmap string (gmap string (list Entry))) (table : gmap string (list Entry)) :
  ps !! Decorator.constructor_name this = Some table ->
  let d := with_url (fixUrl (url data)) data in
  let dALL := with_url (fixUrl (url data)) (with_method "ALL" data) in
  (forall (before after : list Entry) (e : Entry) (w w1 w2 : W),
      table !! method data = Some (before ++ e :: after)%list ->
      Decorator.rejected_by_all d before w = Some w1 ->
      e.1 d w1 = (Normal true, w2) ->
      exists ps',
        run this data (Decorator.mkStore ps w)
          = Decorator.in_world
              (e.2 (Decorator.Instance (Decorator.constructor_name this)) data)
              (Decorator.mkStore ps' w2))
  /\
  (forall (before after : list Entry) (e : Entry) (w w1 w2 w3 : W),
      Decorator.rejected_by_all d (default [] (table !! method data)) w = Some w1 ->
      table !! "ALL" = Some (before ++ e :: after)%list ->
      Decorator.rejected_by_all dALL before w1 = Some w2 ->
      e.1 dALL w2 = (Normal true, w3) ->
      exists ps',
        run this data (Decorator.mkStore ps w)
          = Decorator.in_world
              (e.2 (Decorator.Instance (Decorator.constructor_name this)) data)
              (Decorator.mkStore ps' w3))
  /\
  (forall (w w1 w2 : W),
      Decorator.rejected_by_all d (default [] (table !! method data)) w = Some w1 ->
      Decorator.rejected_by_all dALL (default [] (table !! "ALL")) w1 = Some w2 ->
      exists ps',
        run this data (Decorator.mkStore ps w) = (Throw NotFound, Decorator.mkStore ps' w2)).
Proof.
  intros Ht d dALL. subst d dALL. repeat split.
  - intros before after e w w1 w2 Hbin Hrej Hacc.
    unfold Decorator.run, bind.
    destruct (find_eq this data ps w table Ht) as (ps' & -> & _).
    rewrite Hbin. cbn [default from_option id].
    rewrite (array_find_first _ before after e ps' w w1 w2 Hrej Hacc).
    eauto.
  - intros before after e w w1 w2 w3 Hrej Hbin HrejA Hacc.
    unfold Decorator.run, bind.
    destruct (find_eq this data ps w table Ht) as (ps' & -> & table' & Ht' & Hsame).
    rewrite (array_find_rejects _ _ ps' w w1 Hrej).
    destruct (find_eq this (with_method "ALL" data) ps' w1 table' Ht') as (ps'' & -> & _).
    cbn [method with_method url]. rewrite Hsame, Hbin. cbn [default from_option id].
    rewrite (array_find_first _ before after e ps'' w1 w2 w3 HrejA Hacc).
    eauto.
  - intros w w1 w2 Hrej HrejA.
    unfold Decorator.run, bind.
    destruct (find_eq this data ps w table Ht) as (ps' & -> & table' & Ht' & Hsame).
    rewrite (array_find_rejects _ _ ps' w w1 Hrej).
    destruct (find_eq this (with_method "ALL" data) ps' w1 table' Ht') as (ps'' & -> & _).
    cbn [method with_method url]. rewrite Hsame.
    rewrite (array_find_rejects _ _ ps'' w1 w2 HrejA). eauto.
Qed.

End QueueProperties.

(** On [ItemQueue], GET /orders is rejected by the predicate of the GET
    bin and resolved by the ALL bin. *)
Lemma run_resolution_witness :
  exists ps',
    Decorator.run Demo.fixUrl (Decorator.Queue "" "ItemQueue") Demo.get_orders
      (Decorator.mkStore Demo.ItemQueue_paths [])
    = Decorator.in_world (Demo.orders (Decorator.Instance "ItemQueue") Demo.get_orders)
        (Decorator.mkStore ps' ["is_items"; "is_orders"]).
Proof.
  apply (proj1 (proj2 (run_resolution Demo.fixUrl (Decorator.Queue "" "ItemQueue")
                         Demo.get_orders Demo.ItemQueue_paths
                         (<["ALL" := [(Demo.is_orders, Demo.orders)]]>
                            (<["GET" := [(Demo.is_items, Demo.items)]]> ∅))
                         eq_refl))
           [] [] (Demo.is_orders, Demo.orders) [] ["is_items"] ["is_items"]
           ["is_items"; "is_orders"]); reflexivity.
Defined.

(** C2, on the module [UserQueue]. The request GET /orders does not match
    the path [/users] of the only entry of the GET bin, and matches the
    path of the entry of the ALL bin; [run] dispatches it to the handler
    bound to [/users]. *)
Lemma run_string_path_always_matches :
  matches (Demo.exact_match (Demo.fixUrl "/users") (Demo.fixUrl (url Demo.get_orders))) = false
  /\ matches (Demo.exact_match (Demo.fixUrl "/orders") (Demo.fixUrl (url Demo.get_orders))) = true
  /\ Decorator.run Demo.fixUrl (Decorator.Queue "" "UserQueue") Demo.get_orders
       (Decorator.mkStore Demo.UserQueue_paths [])
     = (Normal (mkResult 200 (Some (Str "users")) None None),
        Decorator.mkStore Demo.UserQueue_paths ["users"]).
Proof. repeat split. Qed.

(** ** interface.ts: the dependency registry *)

Lemma register_lookup_other (d : value) (key : string) (deps deps' : gmap string value)
    (r : Completion unit) :
  Registry.constructor_name d <> Normal key ->
  Registry.register d deps = (r, deps') ->
  deps' !! key = deps !! key.
Proof.
  unfold Registry.register. intros Hne H.
  destruct (Registry.constructor_name d) as [k|e]; inversion H; subst; [|reflexivity].
  apply lookup_insert_ne. congruence.
Qed.

Lemma register_all_lookup_other (ds : list value) (key : string)
    (deps deps' : gmap string value) (r : Completion unit) :
  Forall (fun d => Registry.constructor_name d <> Normal key) ds ->
  Registry.register_all ds deps = (r, deps') ->
  deps' !! key = deps !! key.
Proof.
  intros Hall. revert deps. induction Hall as [|d ds Hd _ IH]; intros deps H; simpl in H.
  - inversion H. reflexivity.
  - unfold bind in H. destruct (Registry.register d deps) as [[[]|e] deps1] eqn:E.
    + rewrite (IH _ H). eapply register_lookup_other; eauto.
    + inversion H; subst. eapply register_lookup_other; eauto.
Qed.

Section RegistryProperties.

Variable member : value -> string -> value.

Local Abbreviation get := (Registry.get member).

Lemma get_of_lookup (key : string) (v : value) (deps : gmap string value) :
  deps !! key = Some v -> to_boolean v = true ->
  get key deps = (Normal v, deps).
Proof. unfold Registry.get, Registry.read. intros -> Hv. simpl. rewrite Hv. reflexivity. Qed.

Lemma get_of_falsy (key : string) (v : value) (deps : gmap string value) :
  deps !! key = Some v -> to_boolean v = false ->
  get key deps =
    (Throw (InternalServerError ("Dependency " ++ key ++ " Not Found")), deps).
Proof. unfold Registry.get, Registry.read. intros -> Hv. simpl. rewrite Hv. reflexivity. Qed.

Lemma get_of_missing (key : string) (deps : gmap string value) :
  deps !! key = None ->
  deps !! "__proto__" = None ->
  get key deps =
    if bool_decide (key ∈ Registry.Object_prototype)
    then (Normal (Builtin key), deps)
    else (Throw (InternalServerError ("Dependency " ++ key ++ " Not Found")), deps).
Proof.
  unfold Registry.get, Registry.read. intros -> ->. simpl.
  destruct (bool_decide _); reflexivity.
Qed.

(** C9, as amended. A truthy instance [v] that has been registered is
    what a later lookup by its constructor's name returns, whatever was
    registered under that name before, and whatever is registered under
    other names afterwards; of two truthy instances registered under one
    name the lookup returns the later. A lookup by a name under which
    nothing was registered, in a registry that holds no instance of a
    class named [__proto__], throws the InternalServerError
    "Dependency <name> Not Found", unless the name is that of a member of
    [Object.prototype]: then the lookup returns that member. A lookup by a
    name under which a falsy value is registered throws the same error. *)
Theorem registry_lookup :
  (forall (v : value) (key : string) (later : list value) (deps deps' : gmap string value),
      Registry.constructor_name v = Normal key ->
      to_boolean v = true ->
      Forall (fun d => Registry.constructor_name d <> Normal key) later ->
      (Registry.register v ;;; Registry.register_all later) deps = (Normal tt, deps') ->
      get key deps' = (Normal v, deps'))
  /\
  (forall (v1 v2 : value) (key : string) (deps deps' : gmap string value),
      Registry.constructor_name v1 = Normal key ->
      Registry.constructor_name v2 = Normal key ->
      to_boolean v2 = true ->
      (Registry.register v1 ;;; Registry.register v2) deps = (Normal tt, deps') ->
      get key deps' = (Normal v2, deps'))
  /\
  (forall (key : string) (ds : list value) (deps' : gmap string value) (r : Completion unit),
      Forall (fun d => Registry.constructor_name d <> Normal key) ds ->
      Forall (fun d => Registry.constructor_name d <> Normal "__proto__") ds ->
      Registry.register_all ds ∅ = (r, deps') ->
      get key deps' =
        if bool_decide (key ∈ Registry.Object_prototype)
        then (Normal (Builtin key), deps')
        else (Throw (InternalServerError ("Dependency " ++ key ++ " Not Found")), deps'))
  /\
  (forall (v : value) (key : string) (later : list value) (deps deps' : gmap string value),
      Registry.constructor_name v = Normal key ->
      to_boolean v = false ->
      Forall (fun d => Registry.constructor_name d <> Normal key) later ->
      (Registry.register v ;;; Registry.register_all later) deps = (Normal tt, deps') ->
      get key deps' =
        (Throw (InternalServerError ("Dependency " ++ key ++ " Not Found")), deps')).
Proof.
  split; [|split; [|split]].
  - intros v key later deps deps' Hk Hv Hlater H.
    unfold bind, Registry.register in H. rewrite Hk in H.
    apply get_of_lookup; [|exact Hv].
    rewrite (register_all_lookup_other _ _ _ _ _ Hlater H).
    apply lookup_insert_eq.
  - intros v1 v2 key deps deps' Hk1 Hk2 Hv H.
    unfold bind, Registry.register in H. rewrite Hk1, Hk2 in H. inversion H; subst.
    apply get_of_lookup; [apply lookup_insert_eq | exact Hv].
  - intros key ds deps' r Hds Hproto H.
    apply get_of_missing.
    + rewrite (register_all_lookup_other _ _ _ _ _ Hds H). apply lookup_empty.
    + rewrite (register_all_lookup_other _ _ _ _ _ Hproto H). apply lookup_empty.
  - intros v key later deps deps' Hk Hv Hlater H.
    unfold bind, Registry.register in H. rewrite Hk in H.
    apply (get_of_falsy key v); [|exact Hv].
    rewrite (register_all_lookup_other _ _ _ _ _ Hlater H).
    apply lookup_insert_eq.
Qed.

End RegistryProperties.

(** C9, as stated, fails for a class named [toString]: with only a
    [Sequelize] registered, the lookup by that class throws nothing and
    returns the function every object inherits under that name. *)
Lemma registry_finds_inherited_member :
  exists deps : gmap string value,
    Registry.register_all [Obj "Sequelize" 1] ∅ = (Normal tt, deps)
    /\ Forall (fun d => Registry.constructor_name d <> Normal "toString") [Obj "Sequelize" 1]
    /\ Registry.get Examples.member "toString" deps = (Normal (Builtin "toString"), deps).
Proof.
  eexists. split; [reflexivity|]. split; [|reflexivity].
  repeat constructor. discriminate.
Qed.

(** The registry of a worker with a [Sequelize] and a [DaoHelper]. *)
Lemma registry_lookup_witness :
  Registry.get Examples.member "Sequelize"
    (<["DaoHelper" := Obj "DaoHelper" 2]> (<["Sequelize" := Obj "Sequelize" 1]> ∅))
  = (Normal (Obj "Sequelize" 1),
     <["DaoHelper" := Obj "DaoHelper" 2]> (<["Sequelize" := Obj "Sequelize" 1]> ∅))
  /\ Registry.get Examples.member "Sequelize" (<["Sequelize" := Obj "Sequelize" 3]> ∅)
     = (Normal (Obj "Sequelize" 3), <["Sequelize" := Obj "Sequelize" 3]> ∅)
  /\ Registry.get Examples.member "Redis" (<["Sequelize" := Obj "Sequelize" 1]> ∅)
     = (Throw (InternalServerError "Dependency Redis Not Found"),
        <["Sequelize" := Obj "Sequelize" 1]> ∅)
  /\ Registry.get Examples.member "String" (<["String" := Str ""]> ∅)
     = (Throw (InternalServerError "Dependency String Not Found"), <["String" := Str ""]> ∅).
Proof.
  split; [|split; [|split]].
  - apply (proj1 (registry_lookup Examples.member) (Obj "Sequelize" 1) "Sequelize"
             [Obj "DaoHelper" 2] ∅).
    + reflexivity.
    + reflexivity.
    + repeat constructor. discriminate.
    + reflexivity.
  - apply (proj1 (proj2 (registry_lookup Examples.member)) (Obj "Sequelize" 1)
             (Obj "Sequelize" 3) "Sequelize" ∅); reflexivity.
  - apply (proj1 (proj2 (proj2 (registry_lookup Examples.member))) "Redis"
             [Obj "Sequelize" 1] _ (Normal tt)).
    + repeat constructor. discriminate.
    + repeat constructor. discriminate.
    + reflexivity.
  - apply (proj2 (proj2 (proj2 (registry_lookup Examples.member))) (Str "") "String" [] ∅).
    + reflexivity.
    + reflexivity.
    + constructor.
    + reflexivity.
Defined.

(** ** utils.ts: transactions *)

Section InTransactionProperties.

Context {W Transaction T : Type}.
Variable sequelize_transaction : M W Transaction.
Variable commit : Transaction -> M W unit.
Variable rollback : Transaction -> M W unit.
Variable MyException : string -> Thrown -> Thrown.

Local Abbreviation inTransaction :=
  (Utils.inTransaction (T := T) sequelize_transaction commit rollback MyException).

(** With a transaction passed in, [inTransaction] is the callback on
    that transaction, a failure being rethrown through [MyException]: the
    world is the one the callback leaves, neither [commit] nor [rollback]
    has run. With none passed in, a transaction is started; when the
    callback succeeds, [commit] runs on it next and the callback's value
    is returned; when the callback fails, [rollback] runs on it next and,
    if the rollback succeeds, the failure propagates from the world the
    rollback leaves, with no commit. *)
Lemma inTransaction_scope :
  (forall (callback : Transaction -> M W T) (t : Transaction) (w : W),
      inTransaction callback (Some t) w =
        match callback t w with
        | (Normal v, w') => (Normal v, w')
        | (Throw e, w') => (Throw (MyException "inTransaction" e), w')
        end)
  /\
  (forall (callback : Transaction -> M W T) (w w1 w2 : W) (t : Transaction) (v : T),
      sequelize_transaction w = (Normal t, w1) ->
      callback t w1 = (Normal v, w2) ->
      inTransaction callback None w =
        match commit t w2 with
        | (Normal _, w3) => (Normal v, w3)
        | (Throw e, w3) => (Throw e, w3)
        end)
  /\
  (forall (callback : Transaction -> M W T) (w w1 w2 w3 : W) (t : Transaction) (e : Thrown),
      sequelize_transaction w = (Normal t, w1) ->
      callback t w1 = (Throw e, w2) ->
      rollback t w2 = (Normal tt, w3) ->
      inTransaction callback None w = (Throw (MyException "inTransaction" e), w3)).
Proof.
  repeat split.
  - intros callback t w. run_scope.
    destruct (callback t w) as [[v|e] w']; reflexivity.
  - intros callback w w1 w2 t v Ht Hc. run_scope.
    rewrite Ht. simpl. rewrite Hc. simpl.
    destruct (commit t w2) as [[[]|e] w3]; reflexivity.
  - intros callback w w1 w2 w3 t e Ht Hc Hr. run_scope.
    rewrite Ht. simpl. rewrite Hc. simpl. rewrite Hr. reflexivity.
Qed.

(** X3. When the rollback itself rejects, the flag [rollback] stays false:
    the [finally] clause commits the transaction, and the error that
    propagates is the rollback's (or the commit's), not the callback's. *)
Theorem inTransaction_failed_rollback (callback : Transaction -> M W T) (w w1 w2 w3 : W)
    (t : Transaction) (e e' : Thrown) :
  sequelize_transaction w = (Normal t, w1) ->
  callback t w1 = (Throw e, w2) ->
  rollback t w2 = (Throw e', w3) ->
  inTransaction callback None w =
    match commit t w3 with
    | (Normal _, w4) => (Throw e', w4)
    | (Throw e'', w4) => (Throw e'', w4)
    end.
Proof.
  intros Ht Hc Hr. run_scope. rewrite Ht. simpl. rewrite Hc. simpl. rewrite Hr. simpl.
  destruct (commit t w3) as [[[]|e''] w4]; reflexivity.
Qed.

End InTransactionProperties.

(** C8, on the recording storage layer. A fresh scope that succeeds is
    committed, and one that fails is rolled back, with no commit, before
    the failure propagates; a scope on a transaction passed in neither
    commits nor rolls back. But when the rollback of a failed scope is
    itself rejected, the scope goes on to commit the transaction, and the
    rollback's error propagates in place of the callback's. *)
Lemma inTransaction_commits_after_failed_rollback :
  Utils.inTransaction Demo.begin Demo.commit Demo.rollback Demo.MyException
    Demo.insert_row None []
  = (Normal 42%Z, ["BEGIN"; "INSERT"; "COMMIT"])
  /\ Utils.inTransaction Demo.begin Demo.commit Demo.rollback Demo.MyException
       Demo.violate None []
     = (Throw (Demo.MyException "inTransaction" (InternalServerError "constraint")),
        ["BEGIN"; "INSERT"; "ROLLBACK"])
  /\ Utils.inTransaction Demo.begin Demo.commit Demo.rollback Demo.MyException
       Demo.violate (Some 7) []
     = (Throw (Demo.MyException "inTransaction" (InternalServerError "constraint")),
        ["INSERT"])
  /\ Utils.inTransaction Demo.begin Demo.commit Demo.rollback_fails Demo.MyException
       Demo.violate None []
     = (Throw (InternalServerError "connection lost"),
        ["BEGIN"; "INSERT"; "ROLLBACK"; "COMMIT"]).
Proof. repeat split. Qed.

(** On a storage layer whose rollback rejects, the failed scope ends with
    a commit. *)
Lemma inTransaction_failed_rollback_witness :
  Utils.inTransaction Demo.begin Demo.commit Demo.rollback_fails Demo.MyException
    Demo.violate None []
  = (Throw (InternalServerError "connection lost"),
     ["BEGIN"; "INSERT"; "ROLLBACK"; "COMMIT"]).
Proof.
  apply (inTransaction_failed_rollback Demo.begin Demo.commit Demo.rollback_fails
           Demo.MyException Demo.violate [] ["BEGIN"] ["BEGIN"; "INSERT"]
           ["BEGIN"; "INSERT"; "ROLLBACK"] 7 (InternalServerError "constraint")
           (InternalServerError "connection lost")); reflexivity.
Defined.

(** ** index.ts: the RESTful handler *)

Section MasterProperties.

Context {W BeeQueue Job : Type}.
Variable Date_now : W -> Z * W.
Variable URL_pathname : string -> Z -> Completion string.
Variable match_ : string -> string -> Match.
Variable connectQueue : string -> string -> BeeQueue.
Variable save : BeeQueue -> IRequest -> M W Job.
Variable wait : BeeQueue -> Job -> Z -> M W IResult.
Variable applyCache : Master.Reply -> ICache -> Master.Reply.
Variable config : Master.IMasterConfig.
Variable mapper : list (@Master.IMapper W).

Local Abbreviation MState := (@Master.MState W).
Local Abbreviation entry_matches := (Master.entry_matches match_).
Local Abbreviation forward :=
  (Master.forward Date_now connectQueue save wait applyCache config).
Local Abbreviation for_of :=
  (Master.for_of Date_now match_ connectQueue save wait applyCache config).
Local Abbreviation restful_try :=
  (Master.restful_try Date_now URL_pathname match_ connectQueue save wait applyCache
     config mapper).
Local Abbreviation restful_catch := (Master.restful_catch Date_now).
Local Abbreviation restful_guarded :=
  (Master.restful_guarded Date_now URL_pathname match_ connectQueue save wait applyCache
     config mapper).
Local Abbreviation restful :=
  (Master.restful Date_now URL_pathname match_ connectQueue save wait applyCache
     config mapper).
Local Abbreviation probe := (Master.probe Date_now connectQueue save wait).
Local Abbreviation health := (Master.health Date_now connectQueue save wait mapper).
Local Abbreviation health_keys := (Master.health_keys mapper).

Lemma now_total (s : MState) :
  exists t w, Date_now (Master.ext s) = (t, w)
    /\ Master.now Date_now s = (Normal t, Master.mkMState (Master.reply s) (Master.jobs s) w).
Proof.
  unfold Master.now, Master.in_ext, zoom. destruct (Date_now (Master.ext s)) as [t w].
  eauto.
Qed.

Lemma in_ext_jobs {A} (m : M W A) (s s' : MState) r :
  Master.in_ext m s = (r, s') -> Master.jobs s' = Master.jobs s.
Proof.
  unfold Master.in_ext, zoom. destruct (m (Master.ext s)). intros H. inversion H. reflexivity.
Qed.

Lemma in_reply_ext_jobs {A} (m : M (Master.Reply * W) A) (s s' : MState) r :
  Master.in_reply_ext m s = (r, s') -> Master.jobs s' = Master.jobs s.
Proof.
  unfold Master.in_reply_ext, zoom. destruct (m _). intros H. inversion H. reflexivity.
Qed.

Lemma createJob_save_jobs key data (s s' : MState) r :
  Master.createJob_save connectQueue save key data s = (r, s') ->
  Master.jobs s' = (Master.jobs s ++ [(key, data)])%list.
Proof. unfold Master.createJob_save. intros H. apply in_ext_jobs in H. exact H. Qed.

(** *** First match wins *)

(** Forwarding a request to an entry creates one job, on the entry's
    queue. *)
Lemma forward_submits request start REQ (m : Master.IMapper) (s s' : MState) r :
  forward request start REQ m s = (Normal r, s') ->
  exists data, Master.jobs s' = (Master.jobs s ++ [(Master.m_queue m, data)])%list.
Proof.
  unfold Master.forward, bind. intros H.
  match type of H with context [match ?x with _ => _ end] =>
    destruct x as [[data|?] s1] eqn:E1 end; [|discriminate].
  assert (J1 : Master.jobs s1 = Master.jobs s).
  { destruct (Master.pre m); [eapply in_ext_jobs; eauto | inversion E1; reflexivity]. }
  match type of H with context [Master.createJob_save _ _ ?k ?d ?st] =>
    destruct (Master.createJob_save connectQueue save k d st) as [[job|?] s2] eqn:E2;
    [|discriminate]; exists d end.
  apply createJob_save_jobs in E2.
  match type of H with context [Master.in_ext ?c ?st] =>
    destruct (Master.in_ext c st) as [[res|?] s3] eqn:E3; [|discriminate] end.
  apply in_ext_jobs in E3. simpl in H.
  match type of H with context [match ?x with _ => _ end] =>
    destruct x as [[res1|?] s4] eqn:E4 end; [|discriminate].
  assert (J4 : Master.jobs s4 = Master.jobs s3).
  { destruct (Master.post m);
      [apply in_reply_ext_jobs in E4; exact E4 | inversion E4; reflexivity]. }
  match type of H with context [match ?x with _ => _ end] =>
    destruct x as [[res2|?] s5] eqn:E5 end; [|discriminate].
  assert (J5 : Master.jobs s5 = Master.jobs s4).
  { destruct (cache res1); inversion E5; reflexivity. }
  destruct (Master.now Date_now s5) as [[t|?] s6] eqn:E6; [|discriminate].
  unfold Master.now in E6. apply in_ext_jobs in E6. inversion H; subst.
  rewrite E6, J5, J4, E3, E2, J1. reflexivity.
Qed.

(** The loop passes over the entries that carry a method and do not
    match. *)
Lemma for_of_skips request start pathname (before rest : list Master.IMapper) (s : MState) :
  Forall (fun m' => entry_matches request pathname m' = Some false) before ->
  for_of request start pathname (before ++ rest)%list s = for_of request start pathname rest s.
Proof.
  induction 1 as [|m' before Hm _ IH]; [reflexivity|].
  simpl. unfold bind at 1. unfold Master.entry_matches in Hm.
  destruct (Master.m_method m'); [|discriminate]. simpl.
  injection Hm as Hm.
  destruct (_ || _); simpl in Hm; [rewrite Hm|]; exact IH.
Qed.

(** X1. Over entries that carry a method, the Dispatcher forwards the
    request to the first entry, in the order of the mapper, whose method (equal to
    the request's, or ALL) and path match; entries appended to the mapper
    change nothing for such a request; and the job of a request that is
    answered was created on that entry's queue. *)
Theorem dispatch_first_match request start pathname (before after more : list Master.IMapper)
    (m : Master.IMapper) (s : MState) :
  Forall (fun m' => entry_matches request pathname m' = Some false) before ->
  entry_matches request pathname m = Some true ->
  for_of request start pathname (before ++ m :: after)%list s
    = forward request start (toLocaleUpperCase (Master.req_method request)) m s
  /\ for_of request start pathname (before ++ m :: after ++ more)%list s
     = for_of request start pathname (before ++ m :: after)%list s
  /\ (forall r s',
        for_of request start pathname (before ++ m :: after)%list s = (Normal r, s') ->
        exists data, Master.jobs s' = (Master.jobs s ++ [(Master.m_queue m, data)])%list).
Proof.
  intros Hbefore Hm.
  assert (Hhead : forall rest,
             for_of request start pathname (m :: rest) s
             = forward request start (toLocaleUpperCase (Master.req_method request)) m s).
  { intros rest. simpl. unfold bind at 1. unfold Master.entry_matches in Hm.
    destruct (Master.m_method m); [|discriminate]. simpl.
    injection Hm as Hm. apply andb_true_iff in Hm as [-> ->]. reflexivity. }
  rewrite !for_of_skips by exact Hbefore. rewrite !Hhead.
  split; [reflexivity|]. split; [reflexivity|].
  intros r s' H. eapply forward_submits, H.
Qed.

(** *** The top-level boundary *)

Lemma forward_elapsed request start REQ (m : Master.IMapper) (s s' : MState) r :
  forward request start REQ m s = (Normal r, s') ->
  is_Some (Master.response_elapsed r).
Proof.
  unfold Master.forward, bind. intros H.
  repeat split_match H.
  all: inversion H; subst; simpl; eauto.
Qed.

Lemma for_of_elapsed request start pathname (entries : list Master.IMapper) (s s' : MState) r :
  for_of request start pathname entries s = (Normal r, s') ->
  is_Some (Master.response_elapsed r).
Proof.
  revert s. induction entries as [|m rest IH]; intros s H; simpl in H.
  - unfold bind in H. simpl in H. discriminate.
  - unfold bind in H at 1. destruct (Master.m_method m); simpl in H; [|discriminate].
    destruct (_ || _); [destruct (matches _)|]; eauto using forward_elapsed.
Qed.

Lemma restful_try_elapsed request start (s s' : MState) r :
  restful_try request start s = (Normal r, s') ->
  is_Some (Master.response_elapsed r).
Proof.
  unfold Master.restful_try, bind. intros H.
  destruct (URL_pathname _ _); [|discriminate]. eauto using for_of_elapsed.
Qed.

(** The [catch] block answers a failure that is an error object, and
    does not throw then. *)
Lemma restful_catch_total start (e : Exn) (s : MState) :
  exists t s',
    restful_catch start e s =
      (Normal (Master.Error
                 (Master.mkError
                    (match statusCode e with
                     | Some c => if (c =? 0)%Z then 500%Z else c
                     | None => 500%Z
                     end)
                    (message e) (extra e) (Some (t - start)%Z))), s')
    /\ Master.status (Master.reply s') =
         match statusCode e with
         | Some c => if (c =? 0)%Z then 500%Z else c
         | None => 500%Z
         end
    /\ Master.jobs s' = Master.jobs s.
Proof.
  unfold Master.restful_catch, Master.now, Master.in_ext, Master.reply_status, zoom, bind.
  simpl. destruct (Date_now (Master.ext s)) as [t w'] eqn:E.
  exists t. eexists. split; [reflexivity|]. split; reflexivity.
Qed.

(** C5, as amended. A failure [e] signalled anywhere in the [try] block
    that is an error object is turned into the Error Envelope whose
    statusCode is [e.statusCode] when that is present and not 0, and 500
    otherwise, whose error is [e.message], and which carries the elapsed
    time; the reply gets that status. A failure that is [null] or
    [undefined] makes the [catch] block itself throw a TypeError, and no
    envelope is returned. A result of the [try] block is returned as it
    is, and carries the elapsed time. So every response the handler
    returns carries an elapsed time, and the only failure that leaves the
    handler is that TypeError. *)
Theorem restful_boundary (request : Master.Request) :
  (forall (start : Z) (s s1 : MState) (e : Exn),
      restful_try request start s = (Throw (Error_object e), s1) ->
      exists t s',
        restful_guarded request start s =
          (Normal (Master.Error
                     (Master.mkError
                        (match statusCode e with
                         | Some c => if (c =? 0)%Z then 500%Z else c
                         | None => 500%Z
                         end)
                        (message e) (extra e) (Some (t - start)%Z))), s')
        /\ Master.status (Master.reply s') =
             match statusCode e with
             | Some c => if (c =? 0)%Z then 500%Z else c
             | None => 500%Z
             end)
  /\
  (forall (start : Z) (s s1 : MState),
      restful_try request start s = (Throw Nullish, s1) ->
      restful_guarded request start s =
        (Throw (TypeError "Cannot read properties of undefined"), s1))
  /\
  (forall (start : Z) (s s1 : MState) (r : Master.IResponse),
      restful_try request start s = (Normal r, s1) ->
      restful_guarded request start s = (Normal r, s1)
      /\ is_Some (Master.response_elapsed r))
  /\
  (forall (s s' : MState) (resp : Master.IResponse),
      restful request s = (Normal resp, s') ->
      is_Some (Master.response_elapsed resp))
  /\
  (forall (s : MState),
      (exists resp s', restful request s = (Normal resp, s'))
      \/ (exists s',
             restful request s
             = (Throw (TypeError "Cannot read properties of undefined"), s'))).
Proof.
  assert (Hg : forall start (s : MState),
             (exists resp s',
                 restful_guarded request start s = (Normal resp, s')
                 /\ is_Some (Master.response_elapsed resp))
             \/ (exists s',
                    restful_guarded request start s
                    = (Throw (TypeError "Cannot read properties of undefined"), s'))).
  { intros start s. unfold Master.restful_guarded, try_catch.
    destruct (restful_try request start s) as [[r|[e|]] s1] eqn:E.
    - left. exists r, s1. split; [reflexivity|]. eauto using restful_try_elapsed.
    - left. destruct (restful_catch_total start e s1) as (t & s' & -> & _).
      eexists _, _. split; [reflexivity|]. simpl. eauto.
    - right. exists s1. reflexivity. }
  assert (Hr : forall (s : MState), exists start s0,
             restful request s = restful_guarded request start s0).
  { intros s. unfold Master.restful, bind.
    destruct (match Master.config_cache config with
              | Some c => Master.reply_applyCache applyCache c
              | None => ret ()
              end s) as [[[]|e] s0] eqn:E0.
    2:{ destruct (Master.config_cache config); discriminate. }
    destruct (now_total s0) as (start & w & _ & ->). eauto. }
  split; [|split; [|split; [|split]]].
  - intros start s s1 e H. unfold Master.restful_guarded, try_catch. rewrite H.
    destruct (restful_catch_total start e s1) as (t & s' & -> & Hst & _). eauto.
  - intros start s s1 H. unfold Master.restful_guarded, try_catch. rewrite H. reflexivity.
  - intros start s s1 r H. split.
    + unfold Master.restful_guarded, try_catch. rewrite H. reflexivity.
    + eauto using restful_try_elapsed.
  - intros s s' resp H. destruct (Hr s) as (start & s0 & Hs). rewrite Hs in H.
    destruct (Hg start s0) as [(resp' & s2 & H2 & Hel)|(s2 & H2)];
      rewrite H2 in H; inversion H; subst. exact Hel.
  - intros s. destruct (Hr s) as (start & s0 & ->).
    destruct (Hg start s0) as [(resp' & s2 & H2 & _)|(s2 & H2)]; eauto.
Qed.

(** *** The health check *)

Lemma uniq_from_spec (array result : list string) :
  NoDup result ->
  NoDup (Master.uniq_from array result)
  /\ forall x, x ∈ Master.uniq_from array result <-> x ∈ result \/ x ∈ array.
Proof.
  revert result. induction array as [|a array IH]; intros result Hnd; simpl.
  - split; [exact Hnd|]. intros x. rewrite elem_of_nil. tauto.
  - case_bool_decide as Hin.
    + destruct (IH result Hnd) as [H1 H2]. split; [exact H1|].
      intros x. rewrite H2, elem_of_cons. split; [tauto|].
      intros [?|[->|?]]; tauto.
    + assert (Hnd' : NoDup (result ++ [a])).
      { apply NoDup_app. repeat split; [exact Hnd| |apply NoDup_singleton].
        intros x Hx Hx'. apply list_elem_of_singleton in Hx'. subst. tauto. }
      destruct (IH _ Hnd') as [H1 H2]. split; [exact H1|].
      intros x. rewrite H2, elem_of_app, list_elem_of_singleton, elem_of_cons. tauto.
Qed.

Lemma uniq_NoDup (array : list string) : NoDup (Master.uniq array).
Proof. apply uniq_from_spec. constructor. Qed.

Lemma uniq_elem_of (array : list string) (x : string) : x ∈ Master.uniq array <-> x ∈ array.
Proof.
  unfold Master.uniq. rewrite (proj2 (uniq_from_spec array [] (NoDup_nil_2))).
  rewrite elem_of_nil. tauto.
Qed.

Lemma filter_eq_NoDup (q : string) (l : list string) :
  NoDup l -> length (filter (fun x => x = q) l) = if bool_decide (q ∈ l) then 1 else 0.
Proof.
  induction 1 as [|x l Hx Hnd IH]; [reflexivity|].
  rewrite filter_cons. destruct (decide (x = q)) as [->|Hne].
  - simpl. rewrite IH. rewrite bool_decide_eq_false_2 by exact Hx.
    rewrite bool_decide_eq_true_2 by (left). reflexivity.
  - rewrite IH. rewrite (bool_decide_ext (q ∈ x :: l) (q ∈ l)); [reflexivity|].
    rewrite elem_of_cons. split; [|tauto].
    intros [E|?]; [congruence|assumption].
Qed.

Lemma submitted_to_map (q : string) (d : IRequest) (keys : list string) :
  Master.submitted_to q (map (fun key => (key, d)) keys)
  = length (filter (fun x => x = q) keys).
Proof.
  unfold Master.submitted_to. induction keys as [|k keys IH]; [reflexivity|].
  simpl. rewrite !filter_cons. simpl. destruct (decide (k = q)); simpl; rewrite IH; reflexivity.
Qed.

(** What a probe does: it creates one job, on its queue, and leaves the
    reply alone. Its entry carries the status code of the result its wait
    was answered with; when the save or the wait is rejected with an error
    object, its entry is the error entry of that failure; when one of them
    is rejected with [null] or [undefined], the probe itself is rejected
    with a TypeError. *)
Lemma probe_eq request start key (s : MState) :
  probe request start key s =
    match save (connectQueue "server" key) (Master.health_data request) (Master.ext s) with
    | (Normal job, w1) =>
        match wait (connectQueue "server" key) job (3 * 1000) w1 with
        | (Normal res, w2) =>
            (Normal (Master.answered start key res (Date_now w2).1),
             Master.mkMState (Master.reply s)
               (Master.jobs s ++ [(key, Master.health_data request)])%list (Date_now w2).2)
        | (Throw (Error_object e), w2) =>
            (Normal (Master.failed start key e (Date_now w2).1),
             Master.mkMState (Master.reply s)
               (Master.jobs s ++ [(key, Master.health_data request)])%list (Date_now w2).2)
        | (Throw Nullish, w2) =>
            (Throw (TypeError "Cannot read properties of undefined"),
             Master.mkMState (Master.reply s)
               (Master.jobs s ++ [(key, Master.health_data request)])%list w2)
        end
    | (Throw (Error_object e), w1) =>
        (Normal (Master.failed start key e (Date_now w1).1),
         Master.mkMState (Master.reply s)
           (Master.jobs s ++ [(key, Master.health_data request)])%list (Date_now w1).2)
    | (Throw Nullish, w1) =>
        (Throw (TypeError "Cannot read properties of undefined"),
         Master.mkMState (Master.reply s)
           (Master.jobs s ++ [(key, Master.health_data request)])%list w1)
    end.
Proof.
  unfold Master.probe, try_catch, bind, Master.createJob_save, Master.in_ext, zoom,
    Master.answered, Master.failed. simpl.
  destruct (save _ _ _) as [[job|[e|]] w1]; simpl.
  - destruct (wait _ _ _ _) as [[res|[e|]] w2]; simpl.
    + unfold Master.now, Master.in_ext, zoom; simpl.
      destruct (Date_now w2) as [t w3]; reflexivity.
    + unfold bind, Master.now, Master.in_ext, zoom; simpl.
      destruct (Date_now w2) as [t w3]; reflexivity.
    + reflexivity.
  - unfold bind, Master.now, Master.in_ext, zoom; simpl.
    destruct (Date_now w1) as [t w3]; reflexivity.
  - reflexivity.
Qed.

Lemma probe_jobs request start key (s : MState) :
  Master.jobs (probe request start key s).2
  = (Master.jobs s ++ [(key, Master.health_data request)])%list
  /\ Master.reply (probe request start key s).2 = Master.reply s
  /\ forall p, (probe request start key s).1 = Normal p -> Master.entry_queue p = key.
Proof.
  rewrite probe_eq.
  destruct (save _ _ _) as [[job|[e|]] w1]; [destruct (wait _ _ _ _) as [[res|[e|]] w2]| |].
  all: cbn [fst snd Master.jobs Master.reply]; split; [reflexivity|]; split; [reflexivity|].
  all: intros p Hp; inversion Hp; reflexivity.
Qed.

(** [Promise.all] over the probes: every probe runs, whatever the outcome
    of the others. *)
Lemma Promise_all_cons request start key (keys : list string) (s : MState) :
  Master.Promise_all (map (probe request start) (key :: keys)) s =
    (match (probe request start key s).1,
           (Master.Promise_all (map (probe request start) keys)
              (probe request start key s).2).1 with
     | Normal p, Normal rest => Normal (p :: rest)
     | Normal _, Throw e => Throw e
     | Throw e, _ => Throw e
     end,
     (Master.Promise_all (map (probe request start) keys) (probe request start key s).2).2).
Proof.
  cbn [map Master.Promise_all].
  destruct (probe request start key s) as [r s1]. cbn [fst snd].
  destruct (Master.Promise_all _ s1) as [rs s2]. reflexivity.
Qed.

Lemma probe_all_jobs request start (keys : list string) (s : MState) :
  Master.jobs (Master.Promise_all (map (probe request start) keys) s).2
  = (Master.jobs s ++ map (fun key => (key, Master.health_data request)) keys)%list
  /\ Master.reply (Master.Promise_all (map (probe request start) keys) s).2 = Master.reply s
  /\ forall entries,
       (Master.Promise_all (map (probe request start) keys) s).1 = Normal entries ->
       map Master.entry_queue entries = keys.
Proof.
  revert s. induction keys as [|key keys IH]; intros s.
  - cbn. rewrite app_nil_r. split; [reflexivity|]. split; [reflexivity|].
    intros entries H. inversion H. reflexivity.
  - rewrite Promise_all_cons. cbn [fst snd].
    destruct (probe_jobs request start key s) as (Hj & Hr & Hq).
    destruct (IH (probe request start key s).2) as (Hjs & Hrs & Hqs).
    rewrite Hjs, Hj, Hrs, Hr, <- app_assoc. split; [reflexivity|]. split; [reflexivity|].
    intros entries H.
    destruct (probe request start key s).1 as [p|e]; [|discriminate].
    destruct (Master.Promise_all _ _).1 as [rest|e]; [|discriminate].
    inversion H; subst. cbn [map]. rewrite (Hq p eq_refl), (Hqs rest eq_refl). reflexivity.
Qed.

(** With a broker whose saves and waits are never rejected with [null] or
    [undefined], no probe is rejected. *)
Lemma probe_all_total request start (keys : list string) (s : MState) :
  (forall q d w, (save q d w).1 <> Throw Nullish) ->
  (forall q j ms w, (wait q j ms w).1 <> Throw Nullish) ->
  exists entries,
    (Master.Promise_all (map (probe request start) keys) s).1 = Normal entries.
Proof.
  intros Hsave Hwait. revert s. induction keys as [|key keys IH]; intros s.
  - eexists. reflexivity.
  - rewrite Promise_all_cons. cbn [fst].
    destruct (IH (probe request start key s).2) as (rest & ->).
    assert (Hp : exists p, (probe request start key s).1 = Normal p).
    { rewrite probe_eq.
      pose proof (Hsave (connectQueue "server" key) (Master.health_data request)
                    (Master.ext s)) as H1.
      destruct (save _ _ _) as [[job|[e|]] w1]; cbn [fst] in *; [|eauto|congruence].
      pose proof (Hwait (connectQueue "server" key) job (3 * 1000)%Z w1) as H2.
      destruct (wait _ _ _ _) as [[res|[e|]] w2]; cbn [fst] in *; [eauto|eauto|congruence]. }
    destruct Hp as (p & ->). eauto.
Qed.

(** The health check around its probes. *)
Lemma health_eq request (s : MState) :
  health request s =
    let s1 := Master.mkMState
                (Master.mkReply (Master.status (Master.reply s))
                   (Master.reply_headers (Master.reply s)
                      ++ [("cache-control", "no-cache, no-store")])%list)
                (Master.jobs s) (Date_now (Master.ext s)).2 in
    let start := (Date_now (Master.ext s)).1 in
    match Master.Promise_all (map (probe request start) health_keys) s1 with
    | (Normal entries, s2) =>
        let t := (Date_now (Master.ext s2)).1 in
        (Normal (if forallb Master.entry_ok entries
                 then Master.HealthResult Master.OK entries (t - start)
                 else Master.HealthError Master.SERVICE_UNAVAILABLE Master.NAME_500
                        (t - start)),
         Master.mkMState
           (Master.mkReply (if forallb Master.entry_ok entries
                            then Master.OK else Master.SERVICE_UNAVAILABLE)
              (Master.reply_headers (Master.reply s2)))
           (Master.jobs s2) (Date_now (Master.ext s2)).2)
    | (Throw e, s2) => (Throw e, s2)
    end.
Proof.
  assert (Hsome : forall l : list Master.ProbeEntry,
             forallb Master.entry_ok l =
             match List.find (fun r => negb (Master.response_statusCode (Master.entry r)
                                             =? Master.OK)%Z) l with
             | Some _ => false
             | None => true
             end).
  { induction l as [|p l IH]; [reflexivity|]. cbn [forallb List.find].
    unfold Master.entry_ok at 1. destruct (_ =? _)%Z; [exact IH|reflexivity]. }
  unfold Master.health, bind at 1. cbn [Master.reply_header].
  unfold bind at 1, Master.now at 1, Master.in_ext, zoom. cbn [Master.ext].
  destruct (Date_now (Master.ext s)) as [start w1]. cbn [fst snd Master.reply Master.jobs].
  unfold bind at 1.
  destruct (Master.Promise_all _ _) as [[entries|e] s2]; [|reflexivity].
  rewrite Hsome. unfold bind at 1. cbn [Master.reply_status].
  unfold bind at 1, Master.now at 1, Master.in_ext, zoom. cbn [Master.ext].
  destruct (Date_now (Master.ext s2)) as [t w3]. cbn [fst snd Master.reply Master.jobs].
  destruct (List.find _ entries); reflexivity.
Qed.

(** C6. A health check creates its probe jobs on the queues of
    [uniq(mapper.map((m) => m.queue))], one after the other and nothing
    else, whatever becomes of the probes: the names are distinct, and a
    queue receives exactly one probe when some entry of the mapper names
    it, however many do, and none otherwise. With a broker whose saves and
    waits are never rejected with [null] or [undefined], the check returns
    a response. *)
Theorem health_probes_each_queue_once (request : Master.Request) (s : MState) :
  Master.jobs (health request s).2 =
    (Master.jobs s ++ map (fun key => (key, Master.health_data request)) health_keys)%list
  /\ NoDup health_keys
  /\ (forall q : string,
         Master.submitted_to q (map (fun key => (key, Master.health_data request)) health_keys)
         = if bool_decide (q ∈ map Master.m_queue mapper) then 1 else 0)
  /\ ((forall q d w, (save q d w).1 <> Throw Nullish) ->
      (forall q j ms w, (wait q j ms w).1 <> Throw Nullish) ->
      exists resp s', health request s = (Normal resp, s')).
Proof.
  split; [|split; [|split]].
  - rewrite health_eq. cbv zeta.
    match goal with |- context [Master.Promise_all ?ps ?st] =>
      destruct (probe_all_jobs request (Date_now (Master.ext s)).1 health_keys st)
        as (Hj & _ & _);
      destruct (Master.Promise_all ps st) as [[entries|e] s2] end.
    all: cbn [snd Master.jobs] in *; exact Hj.
  - apply uniq_NoDup.
  - intros q. rewrite submitted_to_map, filter_eq_NoDup by apply uniq_NoDup.
    rewrite (bool_decide_ext _ _ (uniq_elem_of (map Master.m_queue mapper) q)). reflexivity.
  - intros Hsave Hwait. rewrite health_eq. cbv zeta.
    match goal with |- context [Master.Promise_all ?ps ?st] =>
      destruct (probe_all_total request (Date_now (Master.ext s)).1 health_keys st
                  Hsave Hwait) as (entries & He);
      destruct (Master.Promise_all ps st) as [[entries'|e] s2] end.
    + eauto.
    + discriminate.
Qed.

(** C7, as amended. The entry of a probe is made of what its save and its
    wait did: answered, it carries the status code of the answer; rejected
    with an error object, at the save or at the wait, it is the error
    entry of its queue, with the status code of the failure when that is
    present and not 0, and 500 otherwise; so a failure that carries the
    status code 200 makes an entry that counts as OK. Rejected with [null]
    or [undefined], the probe is rejected itself. Every probe runs,
    whatever becomes of the others. When no probe is rejected, the check
    gathers the entries, one per probed queue, in the order of the queues:
    when every entry carries the status OK, the response is OK with the
    entries; otherwise it is ServiceUnavailable with the generic error and
    no entry, and the reply's status is set alike. When a probe is
    rejected, so is the check. *)
Theorem health_aggregation (request : Master.Request) :
  (forall (start : Z) (key : string) (s : MState),
      probe request start key s =
        match save (connectQueue "server" key) (Master.health_data request) (Master.ext s) with
        | (Normal job, w1) =>
            match wait (connectQueue "server" key) job (3 * 1000) w1 with
            | (Normal res, w2) =>
                (Normal (Master.answered start key res (Date_now w2).1),
                 Master.mkMState (Master.reply s)
                   (Master.jobs s ++ [(key, Master.health_data request)])%list
                   (Date_now w2).2)
            | (Throw (Error_object e), w2) =>
                (Normal (Master.failed start key e (Date_now w2).1),
                 Master.mkMState (Master.reply s)
                   (Master.jobs s ++ [(key, Master.health_data request)])%list
                   (Date_now w2).2)
            | (Throw Nullish, w2) =>
                (Throw (TypeError "Cannot read properties of undefined"),
                 Master.mkMState (Master.reply s)
                   (Master.jobs s ++ [(key, Master.health_data request)])%list w2)
            end
        | (Throw (Error_object e), w1) =>
            (Normal (Master.failed start key e (Date_now w1).1),
             Master.mkMState (Master.reply s)
               (Master.jobs s ++ [(key, Master.health_data request)])%list (Date_now w1).2)
        | (Throw Nullish, w1) =>
            (Throw (TypeError "Cannot read properties of undefined"),
             Master.mkMState (Master.reply s)
               (Master.jobs s ++ [(key, Master.health_data request)])%list w1)
        end)
  /\
  (forall (start : Z) (key : string) (keys : list string) (s : MState),
      Master.Promise_all (map (probe request start) (key :: keys)) s =
        (match (probe request start key s).1,
               (Master.Promise_all (map (probe request start) keys)
                  (probe request start key s).2).1 with
         | Normal p, Normal rest => Normal (p :: rest)
         | Normal _, Throw e => Throw e
         | Throw e, _ => Throw e
         end,
         (Master.Promise_all (map (probe request start) keys)
            (probe request start key s).2).2))
  /\
  (forall (s s2 : MState) (entries : list Master.ProbeEntry),
      Master.Promise_all (map (probe request (Date_now (Master.ext s)).1) health_keys)
        (Master.mkMState
           (Master.mkReply (Master.status (Master.reply s))
              (Master.reply_headers (Master.reply s)
                 ++ [("cache-control", "no-cache, no-store")])%list)
           (Master.jobs s) (Date_now (Master.ext s)).2)
      = (Normal entries, s2) ->
      map Master.entry_queue entries = health_keys
      /\ health request s =
           (Normal (if forallb Master.entry_ok entries
                    then Master.HealthResult Master.OK entries
                           ((Date_now (Master.ext s2)).1 - (Date_now (Master.ext s)).1)
                    else Master.HealthError Master.SERVICE_UNAVAILABLE Master.NAME_500
                           ((Date_now (Master.ext s2)).1 - (Date_now (Master.ext s)).1)),
            Master.mkMState
              (Master.mkReply (if forallb Master.entry_ok entries
                               then Master.OK else Master.SERVICE_UNAVAILABLE)
                 (Master.reply_headers (Master.reply s2)))
              (Master.jobs s2) (Date_now (Master.ext s2)).2))
  /\
  (forall (s s2 : MState) (e : Thrown),
      Master.Promise_all (map (probe request (Date_now (Master.ext s)).1) health_keys)
        (Master.mkMState
           (Master.mkReply (Master.status (Master.reply s))
              (Master.reply_headers (Master.reply s)
                 ++ [("cache-control", "no-cache, no-store")])%list)
           (Master.jobs s) (Date_now (Master.ext s)).2)
      = (Throw e, s2) ->
      health request s = (Throw e, s2)).
Proof.
  split; [|split; [|split]].
  - intros start key s. apply probe_eq.
  - intros start key keys s. apply Promise_all_cons.
  - intros s s2 entries H. split.
    + match type of H with Master.Promise_all (map (probe _ ?st) _) ?s1 = _ =>
        destruct (probe_all_jobs request st health_keys s1) as (_ & _ & Hq) end.
      apply Hq. rewrite H. reflexivity.
    + rewrite health_eq. cbv zeta. rewrite H. reflexivity.
  - intros s s2 e H. rewrite health_eq. cbv zeta. rewrite H. reflexivity.
Qed.

End MasterProperties.

(** C1, on a mapper whose first entry leaves [method] out. The request
    GET /b matches the second entry and no other; the handler answers it
    with the Error Envelope of a TypeError, status 500, and creates no
    job. *)
Lemma restful_entry_without_method :
  Master.entry_matches Demo.exact_match Demo.get_b "/b" Demo.get_b_q2 = Some true
  /\ Demo.restful [Demo.a_without_method; Demo.get_b_q2] Demo.get_b Demo.state0
     = (Normal (Master.Error
                  (Master.mkError 500 "Cannot read properties of undefined" Undefined
                                  (Some 1%Z))),
        Master.mkMState (Master.mkReply 500 []) [] 2%Z)
  /\ Demo.restful [Demo.get_b_q2] Demo.get_b Demo.state0
     = (Normal (Master.Result (mkResult 200 (Some (Str "q2")) None (Some 1%Z))),
        Master.mkMState (Master.mkReply 200 [])
          [("q2", mkRequest "GET" "/b" Undefined Undefined Undefined None None Undefined)]
          2%Z).
Proof. repeat split. Qed.

(** GET /b on the mapper POST /b, GET /b, ALL /b goes to the second
    entry. *)
Lemma dispatch_first_match_witness :
  Master.for_of Demo.Date_now Demo.exact_match Demo.connectQueue Demo.save Demo.wait
    Demo.applyCache Demo.config Demo.get_b 0%Z "/b"
    ([Demo.post_b] ++ Demo.get_b_q2 :: [Demo.all_b_q3])%list Demo.state0
  = Master.forward Demo.Date_now Demo.connectQueue Demo.save Demo.wait Demo.applyCache
      Demo.config Demo.get_b 0%Z (toLocaleUpperCase (Master.req_method Demo.get_b))
      Demo.get_b_q2 Demo.state0.
Proof.
  apply (dispatch_first_match Demo.Date_now Demo.exact_match Demo.connectQueue Demo.save
           Demo.wait Demo.applyCache Demo.config Demo.get_b 0%Z "/b"
           [Demo.post_b] [Demo.all_b_q3] [] Demo.get_b_q2 Demo.state0).
  - repeat constructor.
  - reflexivity.
Defined.

(** C5, as stated, fails for a failure whose status code is 0: the code
    is present, and the Error Envelope carries 500. It fails as well for a
    [pre] hook rejected with [undefined]: the failure is caught, the
    [catch] block throws, and the handler returns no envelope. *)
Lemma restful_boundary_fails :
  exists (s1 s' s'' : @Master.MState Z),
    Master.restful_try Demo.Date_now Demo.URL_pathname Demo.exact_match Demo.connectQueue
      Demo.save Demo.wait Demo.applyCache Demo.config [Demo.get_b_boom] Demo.get_b 0%Z s1
    = (Throw Demo.boom, s1)
    /\ statusCode Demo.boom = Some 0%Z
    /\ Demo.restful [Demo.get_b_boom] Demo.get_b Demo.state0
       = (Normal (Master.Error (Master.mkError 500 "boom" Undefined (Some 1%Z))), s')
    /\ Master.restful_try Demo.Date_now Demo.URL_pathname Demo.exact_match
         Demo.connectQueue Demo.save Demo.wait Demo.applyCache Demo.config
         [Examples.get_b_null] Demo.get_b 0%Z s1
       = (Throw Nullish, s1)
    /\ Demo.restful [Examples.get_b_null] Demo.get_b Demo.state0
       = (Throw (TypeError "Cannot read properties of undefined"), s'').
Proof.
  exists (Master.mkMState (Master.mkReply 200 []) [] 1%Z). eexists _, _. repeat split.
Qed.

(** The failing [pre] hook of [get_b_boom] ends in an Error Envelope. *)
Lemma restful_boundary_witness :
  exists t s',
    Master.restful_guarded Demo.Date_now Demo.URL_pathname Demo.exact_match
      Demo.connectQueue Demo.save Demo.wait Demo.applyCache Demo.config [Demo.get_b_boom]
      Demo.get_b 0%Z Demo.state0
    = (Normal (Master.Error (Master.mkError 500 "boom" Undefined (Some (t - 0)%Z))), s')
    /\ Master.status (Master.reply s') = 500%Z.
Proof.
  apply (proj1 (restful_boundary Demo.Date_now Demo.URL_pathname Demo.exact_match
                  Demo.connectQueue Demo.save Demo.wait Demo.applyCache Demo.config
                  [Demo.get_b_boom] Demo.get_b)
           0%Z Demo.state0 Demo.state0 Demo.boom).
  reflexivity.
Defined.

(** A probe of the queue [orders], on which no job can be saved: the
    failure is an error object without a status code, and the entry of
    the queue carries 500 and its message. *)
Lemma health_aggregation_witness :
  Master.probe Demo.Date_now Demo.connectQueue Demo.save Demo.wait Demo.get_b 0%Z
    "orders" Demo.state0
  = (Normal (Master.mkProbe
               (Master.Error (Master.mkError 500 "ECONNREFUSED" Undefined (Some 0%Z)))
               "orders"),
     Master.mkMState (Master.mkReply 200 []) [("orders", Master.health_data Demo.get_b)] 1%Z).
Proof.
  etransitivity.
  - apply (proj1 (health_aggregation Demo.Date_now Demo.connectQueue Demo.save Demo.wait
                    [] Demo.get_b) 0%Z "orders" Demo.state0).
  - reflexivity.
Defined.

(** C7, as stated, fails on a master whose wait for the queue [stale] is
    rejected with an error that carries the status code 200: the probe did
    not return OK, and the check answers OK, with the error entry among
    its entries. It fails as well on a master whose save on the queue
    [down] is rejected with [null]: the failure is not captured as an
    entry, the check is rejected with a TypeError; the probe of the other
    queue has run all the same. *)
Lemma health_counts_failure_with_status_200 :
  Master.health Demo.Date_now Demo.connectQueue Demo.save Examples.wait_200
    [Examples.get_stale] Demo.get_b Demo.state0
  = (Normal (Master.HealthResult 200
               [Master.mkProbe (Master.Error (Master.mkError 200 "stale" Undefined
                                                (Some 1%Z))) "stale"]
               2),
     Master.mkMState (Master.mkReply 200 [("cache-control", "no-cache, no-store")])
       [("stale", Master.health_data Demo.get_b)] 3%Z)
  /\ Master.health Demo.Date_now Demo.connectQueue Examples.save_null Demo.wait
       [Examples.get_down; Demo.get_b_q2] Demo.get_b Demo.state0
     = (Throw (TypeError "Cannot read properties of undefined"),
        Master.mkMState (Master.mkReply 200 [("cache-control", "no-cache, no-store")])
          [("down", Master.health_data Demo.get_b); ("q2", Master.health_data Demo.get_b)]
          2%Z).
Proof. split; reflexivity. Qed.

(** ** The wait-with-timeout primitive *)

Lemma deliver_settled (o : Wait.Settlement) (st : Wait.Waiting) (sg : Wait.Signal) :
  Wait.deliver (Wait.settle o st) sg = Wait.settle o st.
Proof. destruct sg; reflexivity. Qed.

Lemma run_settled (o : Wait.Settlement) (st : Wait.Waiting) (sigs : list Wait.Signal) :
  Wait.run (Wait.settle o st) sigs = Wait.settle o st.
Proof.
  unfold Wait.run. induction sigs as [|sg sigs IH]; [reflexivity|].
  simpl. rewrite deliver_settled. exact IH.
Qed.

Lemma deliver_start (jobId : nat) (sg : Wait.Signal) :
  Wait.deliver (Wait.start jobId) sg =
    if Wait.concerns jobId sg
    then Wait.settle (Wait.outcome sg) (Wait.start jobId)
    else Wait.start jobId.
Proof.
  destruct sg as [j res|j code msg|]; simpl; [| |reflexivity].
  all: destruct (decide (j = jobId)) as [->|Hne];
    [rewrite !bool_decide_eq_true_2 by reflexivity; reflexivity
    |rewrite !bool_decide_eq_false_2 by congruence; reflexivity].
Qed.

Lemma run_start (jobId : nat) (sigs : list Wait.Signal) :
  Wait.run (Wait.start jobId) sigs =
    match List.find (Wait.concerns jobId) sigs with
    | Some sg => Wait.settle (Wait.outcome sg) (Wait.start jobId)
    | None => Wait.start jobId
    end.
Proof.
  induction sigs as [|sg sigs IH]; [reflexivity|].
  change (Wait.run (Wait.start jobId) (sg :: sigs))
    with (Wait.run (Wait.deliver (Wait.start jobId) sg) sigs).
  rewrite deliver_start. simpl. destruct (Wait.concerns jobId sg).
  - apply run_settled.
  - exact IH.
Qed.

(** C4. After any sequence of signals, the wait on a job is resolved by
    the first signal that concerns it (the job's success, the job's
    failure with the reported status code and message, or the timer, as
    Gateway Timeout), once, with both listeners detached and the timer
    cleared; until such a signal arrives it is unresolved. A resolved wait
    ignores every later signal. When the timer has fired, whatever is
    delivered afterwards changes nothing, and the wait holds exactly one
    resolution. *)
Theorem wait_resolves_once (jobId : nat) (sigs late : list Wait.Signal)
    (o : Wait.Settlement) (st : Wait.Waiting) :
  Wait.run (Wait.start jobId) sigs =
    match List.find (Wait.concerns jobId) sigs with
    | Some sg => Wait.settle (Wait.outcome sg) (Wait.start jobId)
    | None => Wait.start jobId
    end
  /\ Wait.run (Wait.settle o st) late = Wait.settle o st
  /\ Wait.run (Wait.start jobId) (sigs ++ Wait.TimerFired :: late) =
       Wait.run (Wait.start jobId) (sigs ++ [Wait.TimerFired])
  /\ length (Wait.settlements
               (Wait.run (Wait.start jobId) (sigs ++ Wait.TimerFired :: late))) = 1.
Proof.
  split; [apply run_start|]. split; [apply run_settled|].
  assert (H : forall tl, exists sg,
             Wait.run (Wait.start jobId) (sigs ++ Wait.TimerFired :: tl) =
               Wait.settle (Wait.outcome sg) (Wait.start jobId)
             /\ List.find (Wait.concerns jobId) (sigs ++ [Wait.TimerFired]) = Some sg).
  { intros tl. rewrite run_start. clear.
    induction sigs as [|x sigs' IH]; simpl.
    - exists Wait.TimerFired. auto.
    - destruct (Wait.concerns jobId x); [exists x; auto | exact IH]. }
  destruct (H late) as (sg & -> & Hs). destruct (H []) as (sg' & -> & Hs').
  split; [congruence | reflexivity].
Qed.

(** * Further properties *)

(** ** decorator.ts: registration and the order of decorators *)

Section RegistrationProperties.

Context {W : Type}.
Variable fixUrl : string -> string.
Variable match_ : string -> string -> Match.

Local Abbreviation Entry := (@Decorator.Entry W).
Local Abbreviation Path := (Decorator.Path fixUrl match_).
Local Abbreviation run := (Decorator.run fixUrl).
Local Abbreviation find := (Decorator.find fixUrl).
Local Abbreviation decorate := (Methods.decorate fixUrl match_).
Local Abbreviation check_of u :=
  (match u with
   | inl url_ => Decorator.string_check fixUrl match_ url_
   | inr check => check
   end).

(** X5. [Path] appends the route to the bin of its class and upper-cased
    method, behind the routes registered before, and leaves every other
    bin of every class as it was. *)
Theorem Path_registers_last (method_ : string) (url_ : string + Decorator.CheckData)
    (target : string) (func : Decorator.PathFunction)
    (paths : gmap string (gmap string (list Entry))) :
  Methods.bin_of (Path method_ url_ target func paths) target (toLocaleUpperCase method_)
    = (Methods.bin_of paths target (toLocaleUpperCase method_) ++ [(check_of url_, func)])%list
  /\ forall cname key : string,
       (cname, key) <> (target, toLocaleUpperCase method_) ->
       Methods.bin_of (Path method_ url_ target func paths) cname key
         = Methods.bin_of paths cname key.
Proof.
  unfold Methods.bin_of, Decorator.Path. split.
  - rewrite lookup_insert_eq. cbn [default from_option id]. rewrite lookup_insert_eq.
    destruct url_; reflexivity.
  - intros cname key Hne. destruct (decide (target = cname)) as [<-|Hc].
    + rewrite lookup_insert_eq. cbn [default from_option id].
      rewrite lookup_insert_ne by congruence. reflexivity.
    + rewrite lookup_insert_ne by exact Hc. reflexivity.
Qed.

(** The decorators written above [@Path] leave the registry as [@Path]
    made it. *)
Lemma decorate_above_Path (target method_ : string) (url_ : string + Decorator.CheckData)
    (above below : list Methods.MethodDecorator) (func : Decorator.PathFunction)
    (paths : gmap string (gmap string (list Entry))) :
  Forall (fun d => Methods.wraps d = true) above ->
  (decorate target (above ++ Methods.AtPath method_ url_ :: below) func paths).2
    = Path method_ url_ target (decorate target below func paths).1
        (decorate target below func paths).2.
Proof.
  induction 1 as [|d above Hd _ IH]; [reflexivity|].
  change (decorate target ((d :: above) ++ Methods.AtPath method_ url_ :: below) func paths)
    with (Methods.apply fixUrl match_ target d
            (decorate target (above ++ Methods.AtPath method_ url_ :: below) func paths)).
  destruct d; try discriminate; exact IH.
Qed.

(** Decorators that only wrap leave the registry alone. *)
Lemma decorate_wraps (target : string) (ds : list Methods.MethodDecorator)
    (func : Decorator.PathFunction) (paths : gmap string (gmap string (list Entry))) :
  Forall (fun d => Methods.wraps d = true) ds ->
  (decorate target ds func paths).2 = paths.
Proof.
  induction 1 as [|d ds Hd _ IH]; [reflexivity|].
  change (decorate target (d :: ds) func paths)
    with (Methods.apply fixUrl match_ target d (decorate target ds func paths)).
  destruct d; try discriminate; exact IH.
Qed.

(** [find] on a bin that exists searches it and leaves the registry as it
    is. *)
Lemma find_existing_bin (this : Decorator.QueueClass) (data : IRequest)
    (ps : gmap string (gmap string (list Entry))) (w : W) (table : gmap string (list Entry))
    (bin : list Entry) :
  ps !! Decorator.constructor_name this = Some table ->
  table !! method data = Some bin ->
  find this data (Decorator.mkStore ps w) =
    array_find (fun entry : Entry =>
                  Decorator.in_world (entry.1 (with_url (fixUrl (url data)) data)))
               bin (Decorator.mkStore ps w).
Proof. intros Ht Hb. unfold Decorator.find. simpl. rewrite Ht, Hb. reflexivity. Qed.

(** [run] on a class that has no table fails with a TypeError and touches
    nothing. *)
Lemma run_without_table (this : Decorator.QueueClass) (data : IRequest)
    (s : @Decorator.Store W) :
  Decorator.paths s !! Decorator.constructor_name this = None ->
  run this data s = (Throw (TypeError "Cannot read properties of undefined"), s).
Proof. intros H. unfold Decorator.run, bind, Decorator.find. rewrite H. reflexivity. Qed.

(** [run] dispatches to the first accepting entry of the bin of the
    request's method, with the instance as receiver, and leaves the
    registry as it is. *)
Lemma run_first_accepting (this : Decorator.QueueClass) (data : IRequest)
    (ps : gmap string (gmap string (list Entry))) (table : gmap string (list Entry))
    (before after : list Entry) (e : Entry) (w w1 w2 : W) :
  ps !! Decorator.constructor_name this = Some table ->
  table !! method data = Some (before ++ e :: after)%list ->
  Decorator.rejected_by_all (with_url (fixUrl (url data)) data) before w = Some w1 ->
  e.1 (with_url (fixUrl (url data)) data) w1 = (Normal true, w2) ->
  run this data (Decorator.mkStore ps w)
  = Decorator.in_world (e.2 (Decorator.Instance (Decorator.constructor_name this)) data)
      (Decorator.mkStore ps w2).
Proof.
  intros Ht Hb Hrej Hacc. unfold Decorator.run, bind.
  rewrite (find_existing_bin this data ps w table _ Ht Hb).
  rewrite (array_find_first _ before after e ps w w1 w2 Hrej Hacc). reflexivity.
Qed.

(** [run] throws NotFound when the bins of the request's method and of ALL
    reject. *)
Lemma run_none_accepting (this : Decorator.QueueClass) (data : IRequest)
    (ps : gmap string (gmap string (list Entry))) (table : gmap string (list Entry))
    (w w1 w2 : W) :
  ps !! Decorator.constructor_name this = Some table ->
  Decorator.rejected_by_all (with_url (fixUrl (url data)) data)
    (default [] (table !! method data)) w = Some w1 ->
  Decorator.rejected_by_all (with_url (fixUrl (url data)) (with_method "ALL" data))
    (default [] (table !! "ALL")) w1 = Some w2 ->
  exists ps', run this data (Decorator.mkStore ps w) = (Throw NotFound, Decorator.mkStore ps' w2).
Proof.
  intros Ht Hrej HrejA. unfold Decorator.run, bind.
  destruct (find_eq fixUrl this data ps w table Ht) as (ps' & -> & table' & Ht' & Hsame).
  rewrite (array_find_rejects _ _ ps' w w1 Hrej).
  destruct (find_eq fixUrl this (with_method "ALL" data) ps' w1 table' Ht') as (ps'' & -> & _).
  cbn [method with_method url]. rewrite Hsame.
  rewrite (array_find_rejects _ _ ps'' w1 w2 HrejA). eauto.
Qed.

(** X6. A route registered through [@Path] is reached, and with the
    wrappers written below [@Path] only. Let a method be decorated with
    [@Path] (bound by a predicate) between the wrapping decorators [above]
    and [below]. A request of the route's method that the routes
    registered earlier in that bin reject and the predicate accepts is
    dispatched to the method as [below] wraps it, with the instance as
    receiver: no guard or cache directive written above [@Path] takes
    part. *)
Theorem decorated_route_dispatch (target method_ b : string)
    (check : Decorator.CheckData) (above below : list Methods.MethodDecorator)
    (func : Decorator.PathFunction) (paths : gmap string (gmap string (list Entry)))
    (data : IRequest) (w w0 w1 : W) :
  Forall (fun d => Methods.wraps d = true) above ->
  Forall (fun d => Methods.wraps d = true) below ->
  method data = toLocaleUpperCase method_ ->
  Decorator.rejected_by_all (with_url (fixUrl (url data)) data)
    (Methods.bin_of paths target (toLocaleUpperCase method_)) w = Some w0 ->
  check (with_url (fixUrl (url data)) data) w0 = (Normal true, w1) ->
  run (Decorator.Queue b target) data
    (Decorator.mkStore
       (decorate target (above ++ Methods.AtPath method_ (inr check) :: below) func paths).2 w)
  = Decorator.in_world
      ((decorate target below func paths).1 (Decorator.Instance target) data)
      (Decorator.mkStore
         (decorate target (above ++ Methods.AtPath method_ (inr check) :: below) func paths).2
         w1).
Proof.
  intros Habove Hbelow Hm Hrej Hacc.
  rewrite (decorate_above_Path _ _ _ _ _ _ _ Habove).
  rewrite (decorate_wraps _ _ _ _ Hbelow).
  eapply (run_first_accepting (Decorator.Queue b target) _ _ _
            (Methods.bin_of paths target (toLocaleUpperCase method_)) []
            (check, (decorate target below func paths).1)).
  - unfold Decorator.Path. apply lookup_insert_eq.
  - rewrite Hm. apply lookup_insert_eq.
  - exact Hrej.
  - exact Hacc.
Qed.

End RegistrationProperties.

(** On [AdminQueue] the guard [g1], written above [@Path], rejects every
    request; GET /orders reaches the handler all the same, behind the
    guard [g2] written below. *)
Lemma decorated_route_dispatch_witness :
  Decorator.run Demo.fixUrl (Decorator.Queue "" "AdminQueue") Demo.get_orders
    (Decorator.mkStore Examples.AdminQueue_paths [])
  = (Normal (mkResult 200 None None None),
     Decorator.mkStore Examples.AdminQueue_paths ["is_orders"; "g2"; "handler"]).
Proof.
  apply (decorated_route_dispatch Demo.fixUrl Demo.exact_match "AdminQueue" "get" ""
           Demo.is_orders Examples.above Examples.below Demo.handler ∅ Demo.get_orders
           [] [] ["is_orders"]).
  - repeat constructor.
  - repeat constructor.
  - reflexivity.
  - reflexivity.
  - reflexivity.
Defined.

(** ** decorator.ts: stacked wrappers *)

Section WrapperProperties.

Context {W : Type}.

(** X7. [Cache] and [Guard] commute: in either order the guards run
    first, a rejection is Forbidden, and the handler's result gets the
    directives. Of two [Cache] decorators the outer one decides the
    directives. The status code and the payload of the handler's result
    are kept, and a failure of the handler is passed on. Whatever the
    receiver of the wrapped call, the handler is called without one. *)
Theorem Cache_composes (options inner : ICache) (guardFuncs : list Decorator.CheckData)
    (func : Decorator.PathFunction) (this : Decorator.Receiver) (data : IRequest) (w : W) :
  Decorator.Cache options (Decorator.Guard guardFuncs func) this data w
    = Decorator.Guard guardFuncs (Decorator.Cache options func) this data w
  /\ Decorator.Cache options (Decorator.Cache inner func) this data w
     = Decorator.Cache options func this data w
  /\ Decorator.Cache options func this data w =
       match func Decorator.Unbound data w with
       | (Normal r, w') =>
           (Normal (mkResult (res_statusCode r) (result r) (Some options) (res_elapsed r)), w')
       | (Throw e, w') => (Throw e, w')
       end.
Proof.
  split; [|split].
  - unfold Decorator.Cache, Decorator.Guard, bind.
    destruct (reduce _ guardFuncs true w) as [[[|]|e] w1]; reflexivity.
  - unfold Decorator.Cache, bind.
    destruct (func Decorator.Unbound data w) as [[r|e] w1]; reflexivity.
  - unfold Decorator.Cache, bind.
    destruct (func Decorator.Unbound data w) as [[r|e] w1]; reflexivity.
Qed.

(** X17. Two stacked [@Guard] decorators are one guard over the
    predicates of the upper one followed by those of the lower one: the
    same predicates are called in the same order, the first false one
    ends the call with Forbidden, and the handler runs after all of them. *)
Theorem Guard_stacks (upper lower : list Decorator.CheckData) (func : Decorator.PathFunction)
    (this : Decorator.Receiver) (data : IRequest) (w : W) :
  Decorator.Guard upper (Decorator.Guard lower func) this data w
    = Decorator.Guard (upper ++ lower)%list func this data w.
Proof.
  unfold Decorator.Guard. unfold bind at 1 3. rewrite reduce_app. unfold bind at 2.
  destruct (reduce _ upper true w) as [[[|]|e] w1]; simpl.
  - reflexivity.
  - rewrite reduce_after_false. reflexivity.
  - reflexivity.
Qed.

End WrapperProperties.

(** ** index.ts: the worker's job processor *)

Section WorkerProperties.

Context {W : Type}.
Variable fixUrl : string -> string.
Variable logger_info : IRequest -> W -> W.
Variable logger_error : Exn -> W -> W.

Local Abbreviation Entry := (@Decorator.Entry W).
Local Abbreviation process := (Worker.process fixUrl logger_info logger_error).

(** X8. What the job processor reports to the broker. A job for a class
    without routes fails with the TypeError itself. A job that no entry of
    its method bin and of the ALL bin accepts fails with an [Error] whose
    message is "404". A job whose route is guarded and rejected fails with
    an [Error] whose message is "403", the handler not having run. A job
    whose handler, called on the instance, returns reports the handler's
    result. The processor logs
    the job first and every failure as it was thrown. *)
Theorem worker_reports (queueInst : Decorator.QueueClass) (job_data : IRequest)
    (ps : gmap string (gmap string (list Entry))) :
  (forall w : W,
      ps !! Decorator.constructor_name queueInst = None ->
      process queueInst job_data (Decorator.mkStore ps w)
      = (Worker.Failed (TypeError "Cannot read properties of undefined"),
         Decorator.mkStore ps
           (logger_error (TypeError "Cannot read properties of undefined")
              (logger_info job_data w))))
  /\
  (forall (table : gmap string (list Entry)) (w w1 w2 : W),
      ps !! Decorator.constructor_name queueInst = Some table ->
      Decorator.rejected_by_all (with_url (fixUrl (url job_data)) job_data)
        (default [] (table !! method job_data)) (logger_info job_data w) = Some w1 ->
      Decorator.rejected_by_all
        (with_url (fixUrl (url job_data)) (with_method "ALL" job_data))
        (default [] (table !! "ALL")) w1 = Some w2 ->
      exists ps',
        process queueInst job_data (Decorator.mkStore ps w)
        = (Worker.Failed (mkExn "Error" None "404" Undefined),
           Decorator.mkStore ps' (logger_error NotFound w2)))
  /\
  (forall (table : gmap string (list Entry)) (before after : list Entry)
          (check : Decorator.CheckData) (pre post : list Decorator.CheckData)
          (g : Decorator.CheckData) (func : Decorator.PathFunction) (w w1 w2 w3 w4 : W),
      ps !! Decorator.constructor_name queueInst = Some table ->
      table !! method job_data
        = Some (before ++ (check, Decorator.Guard (pre ++ g :: post)%list func) :: after)%list ->
      Decorator.rejected_by_all (with_url (fixUrl (url job_data)) job_data) before
        (logger_info job_data w) = Some w1 ->
      check (with_url (fixUrl (url job_data)) job_data) w1 = (Normal true, w2) ->
      Decorator.all_true job_data pre w2 = Some w3 ->
      g job_data w3 = (Normal false, w4) ->
      process queueInst job_data (Decorator.mkStore ps w)
      = (Worker.Failed (mkExn "Error" None "403" Undefined),
         Decorator.mkStore ps (logger_error Forbidden w4)))
  /\
  (forall (table : gmap string (list Entry)) (before after : list Entry) (e : Entry)
          (res : IResult) (w w1 w2 w3 : W),
      ps !! Decorator.constructor_name queueInst = Some table ->
      table !! method job_data = Some (before ++ e :: after)%list ->
      Decorator.rejected_by_all (with_url (fixUrl (url job_data)) job_data) before
        (logger_info job_data w) = Some w1 ->
      e.1 (with_url (fixUrl (url job_data)) job_data) w1 = (Normal true, w2) ->
      e.2 (Decorator.Instance (Decorator.constructor_name queueInst)) job_data w2
        = (Normal res, w3) ->
      process queueInst job_data (Decorator.mkStore ps w)
      = (Worker.Done res, Decorator.mkStore ps w3)).
Proof.
  split; [|split; [|split]].
  - intros w Hnone. unfold Worker.process. cbn [Decorator.paths Decorator.world].
    rewrite run_without_table by exact Hnone. reflexivity.
  - intros table w w1 w2 Ht Hrej HrejA. unfold Worker.process.
    cbn [Decorator.paths Decorator.world].
    destruct (run_none_accepting fixUrl queueInst job_data ps table _ w1 w2 Ht Hrej HrejA)
      as (ps' & ->).
    exists ps'. reflexivity.
  - intros table before after check pre post g func w w1 w2 w3 w4 Ht Hb Hrej Hacc Hpre Hg.
    unfold Worker.process. cbn [Decorator.paths Decorator.world].
    rewrite (run_first_accepting fixUrl queueInst job_data ps table before after
               (check, Decorator.Guard (pre ++ g :: post)%list func) _ w1 w2 Ht Hb Hrej Hacc).
    unfold Decorator.in_world, zoom. cbn [snd Decorator.world Decorator.paths].
    rewrite (proj1 Guard_short_circuit pre post g func _ job_data w2 w3 w4 Hpre Hg).
    reflexivity.
  - intros table before after e res w w1 w2 w3 Ht Hb Hrej Hacc Hres.
    unfold Worker.process. cbn [Decorator.paths Decorator.world].
    rewrite (run_first_accepting fixUrl queueInst job_data ps table before after e
               _ w1 w2 Ht Hb Hrej Hacc).
    unfold Decorator.in_world, zoom. cbn [Decorator.world Decorator.paths].
    rewrite Hres. reflexivity.
Qed.

End WorkerProperties.

(** The worker on [AuditQueue]: the job GET /orders is rejected by the
    guard [g1] and reported as the error 403; the job GET /users finds no
    route and is reported as the error 404. *)
Lemma worker_reports_witness :
  Worker.process Demo.fixUrl Examples.logger_info Examples.logger_error
    (Decorator.Queue "" "AuditQueue") Demo.get_orders
    (Decorator.mkStore Examples.AuditQueue_paths [])
  = (Worker.Failed (mkExn "Error" None "403" Undefined),
     Decorator.mkStore Examples.AuditQueue_paths
       ["info"; "is_orders"; "g2"; "g1"; "error: Forbidden"])
  /\ exists ps',
       Worker.process Demo.fixUrl Examples.logger_info Examples.logger_error
         (Decorator.Queue "" "AuditQueue") Examples.get_users
         (Decorator.mkStore Examples.AuditQueue_paths [])
       = (Worker.Failed (mkExn "Error" None "404" Undefined),
          Decorator.mkStore ps' ["info"; "is_orders"; "error: Not Found"]).
Proof.
  split.
  - apply (proj1 (proj2 (proj2 (worker_reports Demo.fixUrl Examples.logger_info
                                  Examples.logger_error (Decorator.Queue "" "AuditQueue")
                                  Demo.get_orders Examples.AuditQueue_paths)))
             (<["GET" := [(Demo.is_orders,
                           Decorator.Guard [Demo.g2; Demo.g1] Demo.handler)]]> ∅)
             [] [] Demo.is_orders [Demo.g2] [] Demo.g1 Demo.handler
             [] ["info"] ["info"; "is_orders"] ["info"; "is_orders"; "g2"]
             ["info"; "is_orders"; "g2"; "g1"]); reflexivity.
  - apply (proj1 (proj2 (worker_reports Demo.fixUrl Examples.logger_info
                           Examples.logger_error (Decorator.Queue "" "AuditQueue")
                           Examples.get_users Examples.AuditQueue_paths))
             (<["GET" := [(Demo.is_orders,
                           Decorator.Guard [Demo.g2; Demo.g1] Demo.handler)]]> ∅)
             [] ["info"; "is_orders"] ["info"; "is_orders"]); reflexivity.
Defined.

(** ** index.ts: what the RESTful handler sends and answers *)

Section DispatcherProperties.

Context {W BeeQueue Job : Type}.
Variable Date_now : W -> Z * W.
Variable URL_pathname : string -> Z -> Completion string.
Variable match_ : string -> string -> Match.
Variable connectQueue : string -> string -> BeeQueue.
Variable save : BeeQueue -> IRequest -> M W Job.
Variable wait : BeeQueue -> Job -> Z -> M W IResult.
Variable applyCache : Master.Reply -> ICache -> Master.Reply.
Variable config : Master.IMasterConfig.
Variable mapper : list (@Master.IMapper W).

Local Abbreviation MState := (@Master.MState W).
Local Abbreviation entry_matches := (Master.entry_matches match_).
Local Abbreviation forward :=
  (Master.forward Date_now connectQueue save wait applyCache config).
Local Abbreviation for_of :=
  (Master.for_of Date_now match_ connectQueue save wait applyCache config).
Local Abbreviation restful :=
  (Master.restful Date_now URL_pathname match_ connectQueue save wait applyCache
     config mapper).
Local Abbreviation restful_catch := (Master.restful_catch Date_now).

(** Forwarding, step by step: the [pre] hook on the request and the
    fresh data; the body of the request as the hook left it, set on the
    data for POST, PUT and PATCH; the job; the wait; the status of the
    result on the reply; the [post] hook on the request as [pre] left it,
    the reply and the result; the cache directives of the result applied to
    the reply and taken off the result; the elapsed time. *)
Lemma forward_eq request start REQ (m : Master.IMapper) (s : MState) :
  forward request start REQ m s =
    match (match Master.pre m with
           | Some pre =>
               pre request
                 (mkRequest REQ (Master.req_url request) (Master.req_headers request)
                    (Master.req_query request) (Master.req_params request) None None
                    Undefined)
                 (Master.ext s)
           | None =>
               (Normal (request,
                        mkRequest REQ (Master.req_url request) (Master.req_headers request)
                          (Master.req_query request) (Master.req_params request) None None
                          Undefined),
                Master.ext s)
           end) with
    | (Throw e, w1) => (Throw e, Master.mkMState (Master.reply s) (Master.jobs s) w1)
    | (Normal hooked, w1) =>
        let data := if bool_decide (REQ ∈ ["POST"; "PUT"; "PATCH"])
                    then with_body (Master.req_body hooked.1) hooked.2 else hooked.2 in
        let js := (Master.jobs s ++ [(Master.m_queue m, data)])%list in
        match save (connectQueue "server" (Master.m_queue m)) data w1 with
        | (Throw e, w2) => (Throw e, Master.mkMState (Master.reply s) js w2)
        | (Normal job, w2) =>
            match wait (connectQueue "server" (Master.m_queue m)) job
                    (or_default (Master.timeout config) (30 * 1000)) w2 with
            | (Throw e, w3) => (Throw e, Master.mkMState (Master.reply s) js w3)
            | (Normal res, w3) =>
                match (match Master.post m with
                       | Some post =>
                           post hooked.1 res
                             (Master.mkReply (res_statusCode res)
                                (Master.reply_headers (Master.reply s)), w3)
                       | None =>
                           (Normal res,
                            (Master.mkReply (res_statusCode res)
                               (Master.reply_headers (Master.reply s)), w3))
                       end) with
                | (Throw e, rw) => (Throw e, Master.mkMState rw.1 js rw.2)
                | (Normal res', rw) =>
                    (Normal (Master.Result
                               (mkResult (res_statusCode res') (result res') None
                                  (Some ((Date_now rw.2).1 - start)%Z))),
                     Master.mkMState
                       (match cache res' with
                        | Some c => applyCache rw.1 c
                        | None => rw.1
                        end) js (Date_now rw.2).2)
                end
            end
        end
    end.
Proof.
  unfold Master.forward. unfold bind at 1.
  destruct (Master.pre m) as [p|].
  - unfold Master.in_ext at 1, zoom.
    destruct (p _ _ _) as [[hooked|e] w1]; [|reflexivity].
    cbv zeta. unfold bind at 1, Master.createJob_save, Master.in_ext at 1, zoom.
    cbn [Master.ext Master.reply Master.jobs fst snd].
    destruct (save _ _ w1) as [[job|e] w2]; [|reflexivity].
    unfold bind at 1, Master.in_ext at 1, zoom. cbn [Master.ext Master.reply Master.jobs].
    destruct (wait _ _ _ w2) as [[res|e] w3]; [|reflexivity].
    unfold bind at 1, Master.reply_status. cbn [Master.ext Master.reply Master.jobs].
    unfold bind at 1.
    destruct (Master.post m) as [q|].
    + unfold Master.in_reply_ext, zoom. cbn [Master.ext Master.reply Master.jobs].
      destruct (q _ _ _) as [[res'|e] [rp w4]]; [|reflexivity].
      cbn [fst snd]. unfold bind at 1.
      destruct (cache res') as [c|] eqn:Hc.
      * unfold bind at 1, Master.reply_applyCache, ret.
        cbn [Master.ext Master.reply Master.jobs].
        unfold bind, Master.now, Master.in_ext, zoom. cbn [Master.ext Master.reply Master.jobs].
        destruct (Date_now w4) as [t w5]. reflexivity.
      * unfold ret at 1. unfold bind, Master.now, Master.in_ext, zoom.
        cbn [Master.ext Master.reply Master.jobs].
        destruct (Date_now w4) as [t w5]. rewrite Hc. reflexivity.
    + unfold ret at 1. cbn [fst snd]. unfold bind at 1.
      destruct (cache res) as [c|] eqn:Hc.
      * unfold bind at 1, Master.reply_applyCache, ret.
        cbn [Master.ext Master.reply Master.jobs].
        unfold bind, Master.now, Master.in_ext, zoom. cbn [Master.ext Master.reply Master.jobs].
        destruct (Date_now w3) as [t w5]. reflexivity.
      * unfold ret at 1. unfold bind, Master.now, Master.in_ext, zoom.
        cbn [Master.ext Master.reply Master.jobs].
        destruct (Date_now w3) as [t w5]. rewrite Hc. reflexivity.
  - unfold ret at 1. destruct s as [rp0 js0 w0].
    cbv zeta. unfold bind at 1, Master.createJob_save, Master.in_ext at 1, zoom.
    cbn [Master.ext Master.reply Master.jobs fst snd].
    destruct (save _ _ w0) as [[job|e] w2]; [|reflexivity].
    unfold bind at 1, Master.in_ext at 1, zoom. cbn [Master.ext Master.reply Master.jobs].
    destruct (wait _ _ _ w2) as [[res|e] w3]; [|reflexivity].
    unfold bind at 1, Master.reply_status. cbn [Master.ext Master.reply Master.jobs].
    unfold bind at 1.
    destruct (Master.post m) as [q|].
    + unfold Master.in_reply_ext, zoom. cbn [Master.ext Master.reply Master.jobs].
      destruct (q _ _ _) as [[res'|e] [rp w4]]; [|reflexivity].
      cbn [fst snd]. unfold bind at 1.
      destruct (cache res') as [c|] eqn:Hc.
      * unfold bind at 1, Master.reply_applyCache, ret.
        cbn [Master.ext Master.reply Master.jobs].
        unfold bind, Master.now, Master.in_ext, zoom. cbn [Master.ext Master.reply Master.jobs].
        destruct (Date_now w4) as [t w5]. reflexivity.
      * unfold ret at 1. unfold bind, Master.now, Master.in_ext, zoom.
        cbn [Master.ext Master.reply Master.jobs].
        destruct (Date_now w4) as [t w5]. rewrite Hc. reflexivity.
    + unfold ret at 1. cbn [fst snd]. unfold bind at 1.
      destruct (cache res) as [c|] eqn:Hc.
      * unfold bind at 1, Master.reply_applyCache, ret.
        cbn [Master.ext Master.reply Master.jobs].
        unfold bind, Master.now, Master.in_ext, zoom. cbn [Master.ext Master.reply Master.jobs].
        destruct (Date_now w3) as [t w5]. reflexivity.
      * unfold ret at 1. unfold bind, Master.now, Master.in_ext, zoom.
        cbn [Master.ext Master.reply Master.jobs].
        destruct (Date_now w3) as [t w5]. rewrite Hc. reflexivity.
Qed.

(** The loop over entries that carry a method and do not match ends in
    the statements after it. *)
Lemma for_of_none request start pathname (entries : list Master.IMapper) (s : MState) :
  Forall (fun m' => entry_matches request pathname m' = Some false) entries ->
  for_of request start pathname entries s
    = (Throw NotFound,
       Master.mkMState (Master.mkReply Master.NOT_FOUND (Master.reply_headers (Master.reply s)))
         (Master.jobs s) (Master.ext s)).
Proof.
  intros H. rewrite <- (app_nil_r entries).
  rewrite (for_of_skips Date_now match_ connectQueue save wait applyCache config
             request start pathname entries [] s H).
  reflexivity.
Qed.

(** The state in which the handler enters its [try] block. *)
Lemma restful_start request (s : MState) start w0 :
  Date_now (Master.ext s) = (start, w0) ->
  restful request s =
    Master.restful_guarded Date_now URL_pathname match_ connectQueue save wait applyCache
      config mapper request start
      (Master.mkMState
         (match Master.config_cache config with
          | Some c => applyCache (Master.reply s) c
          | None => Master.reply s
          end) (Master.jobs s) w0).
Proof.
  intros Hnow. unfold Master.restful, bind.
  destruct (Master.config_cache config) as [c|].
  - unfold Master.reply_applyCache, Master.now, Master.in_ext, zoom. simpl.
    rewrite Hnow. reflexivity.
  - unfold ret, Master.now, Master.in_ext, zoom. rewrite Hnow. destruct s; reflexivity.
Qed.

(** The first matching entry is forwarded to. *)
Lemma for_of_first request start pathname (before after : list Master.IMapper)
    (m : Master.IMapper) (s : MState) :
  Forall (fun m' => entry_matches request pathname m' = Some false) before ->
  entry_matches request pathname m = Some true ->
  for_of request start pathname (before ++ m :: after)%list s
  = forward request start (toLocaleUpperCase (Master.req_method request)) m s.
Proof.
  intros Hbefore Hm.
  rewrite (for_of_skips Date_now match_ connectQueue save wait applyCache config
             request start pathname before (m :: after) _ Hbefore).
  simpl. unfold bind at 1. unfold Master.entry_matches in Hm.
  destruct (Master.m_method m); [|discriminate]. simpl.
  injection Hm as Hm. apply andb_true_iff in Hm as [-> ->]. reflexivity.
Qed.

(** The [catch] block creates no job. *)
Lemma restful_catch_jobs start (e : Thrown) (s : MState) :
  Master.jobs (restful_catch start e s).2 = Master.jobs s.
Proof.
  destruct e as [e|]; [|reflexivity].
  destruct (restful_catch_total Date_now start e s) as (t & s' & -> & _ & Hj). exact Hj.
Qed.

(** X9. The job of a request. When the request reaches the first entry
    [m] that matches it, the [pre] hook of [m], if any, is given the
    request and the data made of the upper-cased method and the request's
    url, headers, query and params; a hook that fails means that no job is
    created; otherwise exactly one job is created, on the queue of [m],
    whatever the save, the wait or the [post] hook do afterwards. Its data
    is the data as the hook left it; when the method is POST, PUT or PATCH
    the body of the request is set on it after the hook, over any body the
    hook put on the data, and it is the body of the request as the hook
    left it: a hook decides the body of the job through the request. For
    every other method the data goes as the hook left it. *)
Theorem restful_job_data request (before after : list Master.IMapper) (m : Master.IMapper)
    pathname (s s' : MState) start w0 resp :
  mapper = (before ++ m :: after)%list ->
  URL_pathname (Master.req_url request) (or_default (Master.port config) 8080)
    = Normal pathname ->
  Forall (fun m' => entry_matches request pathname m' = Some false) before ->
  entry_matches request pathname m = Some true ->
  Date_now (Master.ext s) = (start, w0) ->
  restful request s = (resp, s') ->
  match (match Master.pre m with
         | Some pre =>
             pre request
               (mkRequest (toLocaleUpperCase (Master.req_method request))
                  (Master.req_url request) (Master.req_headers request)
                  (Master.req_query request) (Master.req_params request) None None Undefined)
               w0
         | None =>
             (Normal (request,
                      mkRequest (toLocaleUpperCase (Master.req_method request))
                        (Master.req_url request) (Master.req_headers request)
                        (Master.req_query request) (Master.req_params request)
                        None None Undefined),
              w0)
         end) with
  | (Normal hooked, _) =>
      Master.jobs s' =
        (Master.jobs s ++
           [(Master.m_queue m,
             if bool_decide (toLocaleUpperCase (Master.req_method request)
                               ∈ ["POST"; "PUT"; "PATCH"])
             then with_body (Master.req_body hooked.1) hooked.2 else hooked.2)])%list
  | (Throw e, _) => Master.jobs s' = Master.jobs s
  end.
Proof.
  intros Hmapper Hurl Hbefore Hm Hnow H.
  rewrite (restful_start request s start w0 Hnow) in H.
  unfold Master.restful_guarded, try_catch, Master.restful_try, bind in H.
  rewrite Hurl, Hmapper in H.
  rewrite (for_of_first request start pathname before after m _ Hbefore Hm) in H.
  rewrite forward_eq in H. cbn [Master.ext Master.jobs Master.reply] in H.
  assert (Hn : forall (a : Master.IResponse) (st : MState),
             (Normal a, st) = (resp, s') -> Master.jobs s' = Master.jobs st).
  { intros a st Hc. inversion Hc; subst. reflexivity. }
  assert (Ht : forall (e : Thrown) (st : MState),
             restful_catch start e st = (resp, s') -> Master.jobs s' = Master.jobs st).
  { intros e st Hc. rewrite <- (restful_catch_jobs start e st), Hc. reflexivity. }
  destruct (match Master.pre m with Some _ => _ | None => _ end) as [[hooked|e] w1].
  - cbv zeta in H.
    destruct (save _ _ w1) as [[job|e] w2]; [|apply Ht in H; exact H].
    destruct (wait _ _ _ w2) as [[res|e] w3]; [|apply Ht in H; exact H].
    destruct (match Master.post m with Some _ => _ | None => _ end) as [[res'|e] rw];
      [apply Hn in H | apply Ht in H]; exact H.
  - apply Ht in H. exact H.
Qed.

(** X10. A request that no entry matches, on a mapper whose entries all
    carry a method: the handler answers the Error Envelope 404 with the
    message Not Found and the elapsed time, sets the status 404 on the
    reply, and creates no job. *)
Theorem restful_not_found request pathname (s : MState) start t w0 w1 :
  URL_pathname (Master.req_url request) (or_default (Master.port config) 8080)
    = Normal pathname ->
  Forall (fun m' => entry_matches request pathname m' = Some false) mapper ->
  Date_now (Master.ext s) = (start, w0) ->
  Date_now w0 = (t, w1) ->
  restful request s =
    (Normal (Master.Error (Master.mkError 404 "Not Found" Undefined (Some (t - start)%Z))),
     Master.mkMState
       (Master.mkReply 404
          (Master.reply_headers
             (match Master.config_cache config with
              | Some c => applyCache (Master.reply s) c
              | None => Master.reply s
              end)))
       (Master.jobs s) w1).
Proof.
  intros Hurl Hnone Hnow Hnow'.
  rewrite (restful_start request s start w0 Hnow).
  unfold Master.restful_guarded, try_catch, Master.restful_try, bind.
  rewrite Hurl, (for_of_none _ _ _ _ _ Hnone).
  unfold Master.restful_catch, Master.reply_status, Master.now, Master.in_ext, zoom, bind.
  simpl. rewrite Hnow'. reflexivity.
Qed.

(** X11. The cache directives of a worker's result end on the reply,
    not in the envelope. A success envelope of the handler never carries
    cache directives. When the request reaches the first entry [m] that
    matches it and the [pre] hook, the save, the wait and the [post] hook
    succeed, the handler sets the status of the awaited result on the
    reply, hands the reply and the result to the [post] hook, applies the
    directives of the result as the hook left it, if it has any, to the
    reply as the hook left it, and answers the status and the payload of
    that result with the elapsed time. *)
Theorem restful_result_without_cache request :
  (forall (s s' : MState) (r : IResult),
      restful request s = (Normal (Master.Result r), s') ->
      cache r = None)
  /\
  (forall (before after : list Master.IMapper) (m : Master.IMapper) (pathname : string)
          (s : MState) (start : Z) (w0 w1 w2 w3 w4 : W)
          (hooked : Master.Request * IRequest) (job : Job) (res res' : IResult)
          (rp : Master.Reply),
      mapper = (before ++ m :: after)%list ->
      URL_pathname (Master.req_url request) (or_default (Master.port config) 8080)
        = Normal pathname ->
      Forall (fun m' => entry_matches request pathname m' = Some false) before ->
      entry_matches request pathname m = Some true ->
      Date_now (Master.ext s) = (start, w0) ->
      (match Master.pre m with
       | Some pre =>
           pre request
             (mkRequest (toLocaleUpperCase (Master.req_method request))
                (Master.req_url request) (Master.req_headers request)
                (Master.req_query request) (Master.req_params request) None None Undefined)
             w0
       | None =>
           (Normal (request,
                    mkRequest (toLocaleUpperCase (Master.req_method request))
                      (Master.req_url request) (Master.req_headers request)
                      (Master.req_query request) (Master.req_params request)
                      None None Undefined),
            w0)
       end) = (Normal hooked, w1) ->
      save (connectQueue "server" (Master.m_queue m))
        (if bool_decide (toLocaleUpperCase (Master.req_method request)
                           ∈ ["POST"; "PUT"; "PATCH"])
         then with_body (Master.req_body hooked.1) hooked.2 else hooked.2) w1
        = (Normal job, w2) ->
      wait (connectQueue "server" (Master.m_queue m)) job
        (or_default (Master.timeout config) (30 * 1000)) w2 = (Normal res, w3) ->
      (match Master.post m with
       | Some post =>
           post hooked.1 res
             (Master.mkReply (res_statusCode res)
                (Master.reply_headers
                   (match Master.config_cache config with
                    | Some c => applyCache (Master.reply s) c
                    | None => Master.reply s
                    end)), w3)
       | None =>
           (Normal res,
            (Master.mkReply (res_statusCode res)
               (Master.reply_headers
                  (match Master.config_cache config with
                   | Some c => applyCache (Master.reply s) c
                   | None => Master.reply s
                   end)), w3))
       end) = (Normal res', (rp, w4)) ->
      restful request s =
        (Normal (Master.Result
                   (mkResult (res_statusCode res') (result res') None
                      (Some ((Date_now w4).1 - start)%Z))),
         Master.mkMState
           (match cache res' with
            | Some c => applyCache rp c
            | None => rp
            end)
           (Master.jobs s ++
              [(Master.m_queue m,
                if bool_decide (toLocaleUpperCase (Master.req_method request)
                                  ∈ ["POST"; "PUT"; "PATCH"])
                then with_body (Master.req_body hooked.1) hooked.2 else hooked.2)])%list
           (Date_now w4).2)).
Proof.
  split.
  - assert (Hf : forall start REQ m (st st' : MState) (r : IResult),
               forward request start REQ m st = (Normal (Master.Result r), st') ->
               cache r = None).
    { intros start REQ m st st' r H. rewrite forward_eq in H.
      destruct (match Master.pre m with Some _ => _ | None => _ end) as [[hooked|e] w1];
        [|discriminate].
      cbv zeta in H.
      destruct (save _ _ w1) as [[job|e] w2]; [|discriminate].
      destruct (wait _ _ _ w2) as [[res|e] w3]; [|discriminate].
      destruct (match Master.post m with Some _ => _ | None => _ end) as [[res'|e] rw];
        [|discriminate].
      inversion H; subst. reflexivity. }
    assert (Hl : forall start pathname entries (st st' : MState) (r : IResult),
               for_of request start pathname entries st = (Normal (Master.Result r), st') ->
               cache r = None).
    { intros start pathname entries. induction entries as [|m rest IH]; intros st st' r H.
      - discriminate.
      - simpl in H. unfold bind in H at 1.
        destruct (Master.m_method m); simpl in H; [|discriminate].
        destruct (_ || _); [destruct (matches _)|]; eauto. }
    intros s s' r H. destruct (Date_now (Master.ext s)) as [start w0] eqn:Hnow.
    rewrite (restful_start request s start w0 Hnow) in H.
    unfold Master.restful_guarded, try_catch, Master.restful_try, bind in H.
    destruct (URL_pathname _ _) as [pathname|e].
    + match type of H with context [for_of ?rq ?st ?p ?es ?s0] =>
        destruct (for_of rq st p es s0) as [[r0|e] s1] eqn:E end.
      * inversion H; subst. eauto.
      * destruct e as [e|]; [|discriminate].
        destruct (restful_catch_total Date_now start e s1) as (t & s2 & Hc & _).
        rewrite Hc in H. discriminate.
    + destruct e as [e|]; [|discriminate].
      match type of H with restful_catch _ _ ?st = _ =>
        destruct (restful_catch_total Date_now start e st) as (t & s2 & Hc & _) end.
      rewrite Hc in H. discriminate.
  - intros before after m pathname s start w0 w1 w2 w3 w4 hooked job res res' rp
           Hmapper Hurl Hbefore Hm Hnow Hpre Hsave Hwait Hpost.
    rewrite (restful_start request s start w0 Hnow).
    unfold Master.restful_guarded, try_catch, Master.restful_try, bind.
    rewrite Hurl, Hmapper.
    rewrite (for_of_first request start pathname before after m _ Hbefore Hm).
    rewrite forward_eq. cbn [Master.ext Master.jobs Master.reply].
    rewrite Hpre. cbv zeta. rewrite Hsave, Hwait, Hpost. reflexivity.
Qed.

End DispatcherProperties.

(** POST /b on the mapper GET /b, POST /b with a [pre] hook that sets
    one body on the data and another on the request: the job goes to the
    queue of the second entry and carries the body the hook set on the
    request. *)
Lemma restful_job_data_witness :
  Master.jobs (Demo.restful [Demo.get_b_q2; Examples.post_b_hook]
                 Examples.post_b_request Demo.state0).2
  = [("q1", mkRequest "POST" "/b" Undefined Undefined Undefined
              (Some (Str "set on the request")) None Undefined)].
Proof.
  apply (restful_job_data Demo.Date_now Demo.URL_pathname Demo.exact_match Demo.connectQueue
           Demo.save Demo.wait Demo.applyCache Demo.config
           [Demo.get_b_q2; Examples.post_b_hook] Examples.post_b_request
           [Demo.get_b_q2] [] Examples.post_b_hook "/b" Demo.state0
           (Demo.restful [Demo.get_b_q2; Examples.post_b_hook]
              Examples.post_b_request Demo.state0).2
           0%Z 1%Z
           (Demo.restful [Demo.get_b_q2; Examples.post_b_hook]
              Examples.post_b_request Demo.state0).1).
  - reflexivity.
  - reflexivity.
  - repeat constructor.
  - reflexivity.
  - reflexivity.
  - reflexivity.
Defined.

(** GET /c on the mapper POST /b, GET /b. *)
Lemma restful_not_found_witness :
  Demo.restful [Demo.post_b; Demo.get_b_q2] Examples.get_c Demo.state0
  = (Normal (Master.Error (Master.mkError 404 "Not Found" Undefined (Some 1%Z))),
     Master.mkMState (Master.mkReply 404 []) [] 2%Z).
Proof.
  apply (restful_not_found Demo.Date_now Demo.URL_pathname Demo.exact_match Demo.connectQueue
           Demo.save Demo.wait Demo.applyCache Demo.config [Demo.post_b; Demo.get_b_q2]
           Examples.get_c "/c" Demo.state0 0%Z 1%Z 1%Z 2%Z).
  - reflexivity.
  - repeat constructor.
  - reflexivity.
  - reflexivity.
Defined.

(** GET /b on a master whose worker answers with cache directives: the
    envelope carries none, and the reply has them. *)
Lemma restful_result_without_cache_witness :
  Master.restful Demo.Date_now Demo.URL_pathname Demo.exact_match Demo.connectQueue
    Demo.save Examples.wait_cached Examples.applyCache_header Demo.config [Demo.get_b_q2]
    Demo.get_b Demo.state0
  = (Normal (Master.Result (mkResult 200 (Some (Str "q2")) None (Some 1%Z))),
     Master.mkMState (Master.mkReply 200 [("cache-control", "private, max-age")])
       [("q2", mkRequest "GET" "/b" Undefined Undefined Undefined None None Undefined)]
       2%Z).
Proof.
  etransitivity.
  - apply (proj2 (restful_result_without_cache Demo.Date_now Demo.URL_pathname
                    Demo.exact_match Demo.connectQueue Demo.save Examples.wait_cached
                    Examples.applyCache_header Demo.config [Demo.get_b_q2] Demo.get_b)
             [] [] Demo.get_b_q2 "/b" Demo.state0 0%Z 1%Z 1%Z 1%Z 1%Z 1%Z
             (Demo.get_b,
              mkRequest "GET" "/b" Undefined Undefined Undefined None None Undefined)
             1 (mkResult 200 (Some (Str "q2")) (Some Examples.one_hour) None)
             (mkResult 200 (Some (Str "q2")) (Some Examples.one_hour) None)
             (Master.mkReply 200 [])).
    + reflexivity.
    + reflexivity.
    + constructor.
    + reflexivity.
    + reflexivity.
    + reflexivity.
    + reflexivity.
    + reflexivity.
    + reflexivity.
  - reflexivity.
Defined.

(** ** utils.ts: a scope inside a scope *)

Section NestedTransactionProperties.

Context {W Transaction T : Type}.
Variable sequelize_transaction : M W Transaction.
Variable commit : Transaction -> M W unit.
Variable rollback : Transaction -> M W unit.
Variable MyException : string -> Thrown -> Thrown.

Local Abbreviation inTransaction :=
  (Utils.inTransaction (T := T) sequelize_transaction commit rollback MyException).

(** X12. A scope that joins the transaction of the scope around it
    leaves the end of the transaction to that scope. When the callback
    succeeds the two scopes commit once, after the callback, and return
    its value; when it fails they roll back once, and the failure arrives
    wrapped by both scopes. Nothing but the start, the callback and that
    one commit or rollback touches the world. *)
Theorem inTransaction_nested (callback : Transaction -> M W T) (w w1 : W) (t : Transaction) :
  sequelize_transaction w = (Normal t, w1) ->
  inTransaction (fun t' => inTransaction callback (Some t')) None w =
    match callback t w1 with
    | (Normal v, w2) =>
        match commit t w2 with
        | (Normal _, w3) => (Normal v, w3)
        | (Throw e, w3) => (Throw e, w3)
        end
    | (Throw e, w2) =>
        match rollback t w2 with
        | (Normal _, w3) =>
            (Throw (MyException "inTransaction" (MyException "inTransaction" e)), w3)
        | (Throw e', w3) =>
            match commit t w3 with
            | (Normal _, w4) => (Throw e', w4)
            | (Throw e'', w4) => (Throw e'', w4)
            end
        end
    end.
Proof.
  intros Ht. run_scope. rewrite Ht. simpl.
  destruct (callback t w1) as [[v|e] w2]; simpl.
  - destruct (commit t w2) as [[[]|e] w3]; reflexivity.
  - destruct (rollback t w2) as [[[]|e'] w3]; simpl; [reflexivity|].
    destruct (commit t w3) as [[[]|e''] w4]; reflexivity.
Qed.

End NestedTransactionProperties.

(** On the recording storage layer: a scope inside a scope commits once,
    and rolls back once. *)
Lemma inTransaction_nested_witness :
  Utils.inTransaction Demo.begin Demo.commit Demo.rollback Demo.MyException
    (fun t => Utils.inTransaction Demo.begin Demo.commit Demo.rollback Demo.MyException
                Demo.insert_row (Some t)) None []
  = (Normal 42%Z, ["BEGIN"; "INSERT"; "COMMIT"])
  /\ Utils.inTransaction Demo.begin Demo.commit Demo.rollback Demo.MyException
       (fun t => Utils.inTransaction Demo.begin Demo.commit Demo.rollback Demo.MyException
                   Demo.violate (Some t)) None []
     = (Throw (Demo.MyException "inTransaction"
                 (Demo.MyException "inTransaction" (InternalServerError "constraint"))),
        ["BEGIN"; "INSERT"; "ROLLBACK"]).
Proof.
  split.
  - apply (inTransaction_nested Demo.begin Demo.commit Demo.rollback Demo.MyException
             Demo.insert_row [] ["BEGIN"] 7). reflexivity.
  - apply (inTransaction_nested Demo.begin Demo.commit Demo.rollback Demo.MyException
             Demo.violate [] ["BEGIN"] 7). reflexivity.
Defined.

(** ** interface.ts: one registry for the process *)

(** [new Dependencies()] keeps the heap well formed. *)
Lemma new_allocated (h : Dependencies.Heap) :
  Dependencies.allocated h -> Dependencies.allocated (Dependencies.new h).2.
Proof.
  unfold Dependencies.allocated, Dependencies.new. simpl.
  destruct (Dependencies.instance h); lia.
Qed.

(** X13. The class is a singleton whose registry survives construction.
    Every [new Dependencies()] evaluates to the instance the first one
    made, and the registrations on that instance are as before, although
    each call initialises the field of a fresh object. A method called
    through the instance acts on that one registry as [register] and [get]
    do on a registry of their own. *)
Theorem Dependencies_singleton (h : Dependencies.Heap) :
  Dependencies.allocated h ->
  (exists d h',
      Dependencies.new h = (Normal d, h')
      /\ Dependencies.instance h' = Some d
      /\ (forall i, Dependencies.instance h = Some i -> d = i)
      /\ (is_Some (Dependencies.instance h) ->
          Dependencies.the_registry h' = Dependencies.the_registry h)
      /\ (Dependencies.instance h = None -> Dependencies.the_registry h' = ∅)
      /\ Dependencies.allocated h')
  /\
  (forall (A : Type) (m : M (gmap string value) A) (d : nat),
      Dependencies.instance h = Some d ->
      exists h',
        Dependencies.on d m h = ((m (Dependencies.the_registry h)).1, h')
        /\ Dependencies.the_registry h' = (m (Dependencies.the_registry h)).2
        /\ Dependencies.instance h' = Some d
        /\ Dependencies.allocated h').
Proof.
  intros Hwf. split.
  - eexists _, _. split; [reflexivity|]. simpl.
    unfold Dependencies.the_registry, Dependencies.allocated in *. simpl.
    destruct (Dependencies.instance h) as [i|] eqn:Hi.
    + split; [reflexivity|]. split; [congruence|]. split.
      * intros _. rewrite lookup_insert_ne by lia. reflexivity.
      * split; [discriminate|lia].
    + split; [reflexivity|]. split; [discriminate|]. split.
      * intros [? ?]; discriminate.
      * split; [|lia]. intros _. rewrite lookup_insert_eq. reflexivity.
  - intros A m d Hd. unfold Dependencies.on, zoom, Dependencies.the_registry.
    rewrite Hd. destruct (m _) as [r reg'] eqn:Hm. eexists. split; [reflexivity|].
    unfold Dependencies.allocated in *. simpl. rewrite Hd in *.
    rewrite lookup_insert_eq. auto.
Qed.

(** After one registration, a second [new Dependencies()] is the first
    instance, with the registration in place. *)
Lemma Dependencies_singleton_witness :
  exists h',
    Dependencies.new Examples.one_registered = (Normal 0, h')
    /\ Dependencies.the_registry h' = <["Sequelize" := Obj "Sequelize" 1]> ∅.
Proof.
  assert (H : Dependencies.allocated Examples.one_registered) by (vm_compute; lia).
  destruct (proj1 (Dependencies_singleton Examples.one_registered H))
    as (d & h' & Hnew & _ & Hd & Hreg & _).
  exists h'. split.
  - rewrite Hnew. rewrite (Hd 0 eq_refl). reflexivity.
  - rewrite Hreg by (exists 0; reflexivity). reflexivity.
Defined.

(** ** index.ts: the processes of a deployment *)

Lemma count_forks (n : nat) (l : list Main.Action) :
  Main.Fork ∉ l ->
  Main.count Main.Fork (replicate n Main.Fork ++ l)%list = n.
Proof.
  intros Hl. unfold Main.count. rewrite filter_app, length_app.
  replace (filter (fun x => x = Main.Fork) l) with (@nil Main.Action).
  - rewrite Nat.add_0_r. induction n as [|n IH]; [reflexivity|].
    cbn [replicate]. rewrite filter_cons. destruct (decide _); [|congruence].
    cbn [length]. f_equal. exact IH.
  - symmetry. induction l as [|x l IH]; [reflexivity|].
    rewrite filter_cons. destruct (decide (x = Main.Fork)) as [->|_].
    + exfalso. apply Hl. left.
    + apply IH. intros Hin. apply Hl. right. exact Hin.
Qed.

Lemma running_cons (a : Main.Action) (p : list Main.Action) (ps : list (list Main.Action)) :
  Main.running a (p :: ps) = ((if bool_decide (a ∈ p) then 1 else 0) + Main.running a ps)%nat.
Proof.
  unfold Main.running. rewrite filter_cons. destruct (decide (a ∈ p)) as [Hin|Hin].
  - rewrite bool_decide_eq_true_2 by exact Hin. reflexivity.
  - rewrite bool_decide_eq_false_2 by exact Hin. reflexivity.
Qed.

Lemma running_replicate (a : Main.Action) (p : list Main.Action) (n : nat) :
  Main.running a (replicate n p) = if bool_decide (a ∈ p) then n else 0%nat.
Proof.
  induction n as [|n IH]; cbn [replicate].
  - destruct (bool_decide _); reflexivity.
  - rewrite running_cons, IH. destruct (bool_decide _); reflexivity.
Qed.

Lemma elem_of_primary (a : Main.Action) (k : nat) (l : list Main.Action) :
  bool_decide (a ∈ (replicate (S k) Main.Fork ++ l)%list)
  = bool_decide (a = Main.Fork) || bool_decide (a ∈ l).
Proof.
  apply eq_true_iff_eq. rewrite orb_true_iff, !bool_decide_eq_true.
  rewrite elem_of_app, elem_of_replicate. intuition lia.
Qed.

(** X14. Who serves what. With [clusters] off (false, 0 or absent) there
    is one process; it runs the master unless the configuration is a
    worker's and the worker unless it is a master's, so a configuration
    with neither [port] nor [modules] runs both. With a positive number of
    clusters the primary forks that many children, none of which forks; a
    hybrid runs its one master in the primary and a worker in every
    child, a master runs in the children only, and everything else runs
    workers in the children only. A negative number forks nothing and
    runs no worker; only a hybrid then runs a master. *)
Theorem main_topology (config : Main.IConfig) (cpus_length : Z) :
  (forall isPrimary,
      Main.clusters config cpus_length = None \/ Main.clusters config cpus_length = Some 0%Z ->
      Main.main isPrimary config cpus_length =
        ((if Main.is_type Main.WORKER (Main.serverType config) then [] else [Main.MasterMain]) ++
         (if Main.is_type Main.MASTER (Main.serverType config) then [] else [Main.WorkerMain]))%list)
  /\
  (forall n : Z,
      Main.clusters config cpus_length = Some n -> (0 < n)%Z ->
      length (Main.processes config cpus_length) = S (Z.to_nat n)
      /\ Main.running Main.Fork (Main.processes config cpus_length) = 1%nat
      /\ Main.running Main.MasterMain (Main.processes config cpus_length)
         = match Main.serverType config with
           | Some Main.HYBRID => 1%nat
           | Some Main.MASTER => Z.to_nat n
           | _ => 0%nat
           end
      /\ Main.running Main.WorkerMain (Main.processes config cpus_length)
         = match Main.serverType config with
           | Some Main.MASTER => 0%nat
           | _ => Z.to_nat n
           end)
  /\
  (forall n : Z,
      Main.clusters config cpus_length = Some n -> (n < 0)%Z ->
      Main.processes config cpus_length
      = [if Main.is_type Main.HYBRID (Main.serverType config) then [Main.MasterMain] else []]).
Proof.
  assert (Hmain : forall n isPrimary,
             Main.clusters config cpus_length = Some n -> n <> 0%Z ->
             Main.main isPrimary config cpus_length =
               if isPrimary
               then (Main.forks n ++
                     (if Main.is_type Main.HYBRID (Main.serverType config)
                      then [Main.MasterMain] else []))%list
               else if Main.is_type Main.MASTER (Main.serverType config)
                    then [Main.MasterMain] else [Main.WorkerMain]).
  { intros n isPrimary Hn Hne. unfold Main.main. rewrite Hn. cbn [to_boolean default from_option id].
    destruct (Z.eqb_spec n 0); [contradiction|]. reflexivity. }
  split; [|split].
  - intros isPrimary [H|H]; unfold Main.main; rewrite H; simpl;
      destruct (Main.serverType config) as [[]|]; reflexivity.
  - intros n Hn Hpos.
    assert (Hk : exists k, Z.to_nat n = S k) by (exists (Nat.pred (Z.to_nat n)); lia).
    destruct Hk as [k Hk].
    unfold Main.processes. rewrite !(Hmain n) by (exact Hn || lia).
    unfold Main.forks. rewrite count_forks.
    2:{ destruct (Main.is_type _ _); [rewrite list_elem_of_singleton; discriminate|].
        apply not_elem_of_nil. }
    cbn [length]. rewrite length_replicate. split; [reflexivity|].
    rewrite !running_cons, !running_replicate. rewrite Hk, !elem_of_primary.
    destruct (Main.serverType config) as [[]|]; repeat split; reflexivity.
  - intros n Hn Hneg.
    assert (Hk : Z.to_nat n = 0%nat) by lia.
    unfold Main.processes. rewrite !(Hmain n) by (exact Hn || lia).
    unfold Main.forks. rewrite Hk. cbn [replicate app].
    destruct (Main.is_type _ _); reflexivity.
Qed.

(** ** plugin.ts: authentication on the way in *)

(** [substring(7)] takes the scheme off a Bearer header. *)
Lemma substring_7_Bearer (token : string) :
  Plugin.substring_7 ("Bearer " ++ token) = token.
Proof.
  unfold Plugin.substring_7.
  change ("Bearer " ++ token) with
    (String "B" (String "e" (String "a" (String "r" (String "e" (String "r"
       (String " " token))))))).
  cbn [String.length substring Nat.sub]. rewrite Nat.sub_0_r. induction token as [|c token IH]; [reflexivity|].
  cbn [String.length substring]. f_equal. exact IH.
Qed.

Section PluginProperties.

Context {W URL : Type}.
Variable new_URL : string -> option Z -> Completion URL.
Variable pathname : URL -> string.
Variable matchUrl : string -> URL -> list Plugin.IMapper -> option Plugin.IMapper.
Variable verify : string -> option string -> M W value.
Variable Date_now : W -> Z * W.
Variable the_daoHelper : value.
Variable config : Plugin.IMasterConfig.

Local Abbreviation onRequest :=
  (Plugin.onRequest new_URL pathname matchUrl verify Date_now the_daoHelper config).

(** The request as the hooks before [authenticate] leave it. *)
Local Abbreviation mapped req access m :=
  (Plugin.mkFastifyRequest (Plugin.req_method req) (Plugin.req_url req)
     (Plugin.req_headers req) the_daoHelper
     (Some (Plugin.mkExtra (Plugin.req_headers req !! "x-device-token") access
              (Plugin.req_headers req !! "x-refresh-token")))
     m (Plugin.jwtPayload req) (Plugin.start req)).

(** X15. Authentication of a request that a mapping entry [m] matches,
    by the chain of [onRequest] hooks. Without an Authorization header the
    request passes with no payload set and [verify] is never called, even
    when [m] lists the plugin [authenticate]. With the header
    [Bearer <token>] and [authenticate] listed: a missing device token is a
    BadRequest before anything is verified; otherwise [verify] is called on
    the token with the configured secret, its failure fails the request and
    its payload is set on the request. *)
Theorem onRequest_authentication (req : Plugin.FastifyRequest) (url : URL) (m : Plugin.IMapper) :
  Plugin.extra req = None ->
  new_URL (Plugin.req_url req) (Plugin.port config) = Normal url ->
  matchUrl (Plugin.req_method req) url (Plugin.mapper config) = Some m ->
  (forall (w w' : W) (t : Z),
      Plugin.req_headers req !! "authorization" = None ->
      Date_now w = (t, w') ->
      onRequest req w = (Normal (Plugin.with_start t (mapped req None (Some m))), w'))
  /\
  (forall (token : string) (ps : list string) (w : W),
      Plugin.req_headers req !! "authorization" = Some ("Bearer " ++ token) ->
      token <> "" ->
      Plugin.plugins m = Some ps ->
      "authenticate" ∈ ps ->
      Plugin.truthy (Plugin.req_headers req !! "x-device-token") = false ->
      onRequest req w = (Throw (Plugin.BadRequest "Missing Device Token"), w))
  /\
  (forall (token : string) (ps : list string) (w : W),
      Plugin.req_headers req !! "authorization" = Some ("Bearer " ++ token) ->
      token <> "" ->
      Plugin.plugins m = Some ps ->
      "authenticate" ∈ ps ->
      Plugin.truthy (Plugin.req_headers req !! "x-device-token") = true ->
      onRequest req w =
        match verify token (Plugin.access_token_secret config) w with
        | (Normal payload, w1) =>
            let '(t, w2) := Date_now w1 in
            (Normal (Plugin.with_start t
                       (Plugin.with_jwtPayload payload (mapped req (Some token) (Some m)))),
             w2)
        | (Throw e, w1) => (Throw e, w1)
        end).
Proof.
  intros Hextra Hurl Hm.
  assert (Hfind : forall ps, "authenticate" ∈ ps ->
             Plugin.truthy (List.find (fun p => p =? "authenticate") ps) = true).
  { intros ps Hin. induction ps as [|p ps IH]; [inversion Hin|].
    cbn [List.find]. destruct (String.eqb_spec p "authenticate") as [->|Hne]; [reflexivity|].
    apply IH. apply elem_of_cons in Hin as [Heq|Hin]; [congruence|exact Hin]. }
  assert (Hbearer : forall token, token <> "" ->
             Plugin.truthy (Some ("Bearer " ++ token)) = true) by reflexivity.
  assert (Htoken : forall token, token <> "" -> Plugin.truthy (Some token) = true).
  { intros token Hne. simpl. destruct (String.eqb_spec token ""); [contradiction|reflexivity]. }
  split; [|split].
  - intros w w' t Hauth Hnow.
    unfold Plugin.onRequest, Plugin.connectDB, Plugin.getDeviceToken, Plugin.getAccessToken,
      Plugin.getRefreshToken, Plugin.mapUrl, Plugin.authenticate, Plugin.markElapsed,
      Plugin.deviceTokenKey, Plugin.refreshTokenKey, bind, ret.
    cbn. rewrite Hextra, Hauth. cbn. rewrite Hurl, Hm. cbn. rewrite Hnow. reflexivity.
  - intros token ps w Hauth Hne Hps Hin Hdev.
    unfold Plugin.onRequest, Plugin.connectDB, Plugin.getDeviceToken, Plugin.getAccessToken,
      Plugin.getRefreshToken, Plugin.mapUrl, Plugin.authenticate, Plugin.markElapsed,
      Plugin.deviceTokenKey, Plugin.refreshTokenKey, bind, ret.
    cbn -[Plugin.truthy Plugin.substring_7 String.append].
    rewrite Hextra, Hauth, (Hbearer token Hne).
    cbn -[Plugin.truthy Plugin.substring_7 String.append].
    rewrite Hurl, Hm. cbn -[Plugin.truthy Plugin.substring_7 String.append].
    rewrite substring_7_Bearer, (Htoken token Hne), Hps, (Hfind ps Hin), Hdev. reflexivity.
  - intros token ps w Hauth Hne Hps Hin Hdev.
    unfold Plugin.onRequest, Plugin.connectDB, Plugin.getDeviceToken, Plugin.getAccessToken,
      Plugin.getRefreshToken, Plugin.mapUrl, Plugin.authenticate, Plugin.markElapsed,
      Plugin.deviceTokenKey, Plugin.refreshTokenKey, bind, ret.
    cbn -[Plugin.truthy Plugin.substring_7 String.append].
    rewrite Hextra, Hauth, (Hbearer token Hne).
    cbn -[Plugin.truthy Plugin.substring_7 String.append].
    rewrite Hurl, Hm. cbn -[Plugin.truthy Plugin.substring_7 String.append].
    rewrite substring_7_Bearer, (Htoken token Hne), Hps, (Hfind ps Hin), Hdev.
    cbn -[Plugin.truthy Plugin.substring_7 String.append].
    destruct (verify token _ w) as [[payload|e] w1]; [|reflexivity].
    destruct (Date_now w1) as [t w2]. reflexivity.
Qed.

(** X16. A request that no mapping entry matches. Any path but
    [/health] is NotFound. [/health] passes with [req.mapper] left
    undefined when the request has no Authorization header; with a Bearer
    token the hook [authenticate] reads [req.mapper.plugins] and the
    request fails with a TypeError. *)
Theorem onRequest_unmatched (req : Plugin.FastifyRequest) (url : URL) :
  Plugin.extra req = None ->
  new_URL (Plugin.req_url req) (Plugin.port config) = Normal url ->
  matchUrl (Plugin.req_method req) url (Plugin.mapper config) = None ->
  (forall w : W,
      pathname url <> "/health" ->
      onRequest req w = (Throw NotFound, w))
  /\
  (forall (w w' : W) (t : Z),
      pathname url = "/health" ->
      Plugin.req_headers req !! "authorization" = None ->
      Date_now w = (t, w') ->
      onRequest req w = (Normal (Plugin.with_start t (mapped req None None)), w'))
  /\
  (forall (token : string) (w : W),
      pathname url = "/health" ->
      Plugin.req_headers req !! "authorization" = Some ("Bearer " ++ token) ->
      token <> "" ->
      onRequest req w = (Throw (TypeError "Cannot read properties of undefined"), w)).
Proof.
  intros Hextra Hurl Hm.
  assert (Htoken : forall token, token <> "" -> Plugin.truthy (Some token) = true).
  { intros token Hne. simpl. destruct (String.eqb_spec token ""); [contradiction|reflexivity]. }
  split; [|split].
  - intros w Hpath.
    unfold Plugin.onRequest, Plugin.connectDB, Plugin.getDeviceToken, Plugin.getAccessToken,
      Plugin.getRefreshToken, Plugin.mapUrl, bind, ret.
    cbn -[Plugin.substring_7]. rewrite Hextra.
    destruct (Plugin.truthy (Plugin.req_headers req !! "authorization"));
      cbn -[Plugin.substring_7]; rewrite Hurl, Hm;
      destruct (String.eqb_spec (pathname url) "/health"); try contradiction; reflexivity.
  - intros w w' t Hpath Hauth Hnow.
    unfold Plugin.onRequest, Plugin.connectDB, Plugin.getDeviceToken, Plugin.getAccessToken,
      Plugin.getRefreshToken, Plugin.mapUrl, Plugin.authenticate, Plugin.markElapsed,
      Plugin.deviceTokenKey, Plugin.refreshTokenKey, bind, ret.
    cbn. rewrite Hextra, Hauth. cbn. rewrite Hurl, Hm, Hpath. cbn. rewrite Hnow. reflexivity.
  - intros token w Hpath Hauth Hne.
    unfold Plugin.onRequest, Plugin.connectDB, Plugin.getDeviceToken, Plugin.getAccessToken,
      Plugin.getRefreshToken, Plugin.mapUrl, Plugin.authenticate, Plugin.markElapsed,
      Plugin.deviceTokenKey, Plugin.refreshTokenKey, bind, ret.
    cbn -[Plugin.truthy Plugin.substring_7 String.append].
    rewrite Hextra, Hauth.
    change (Plugin.truthy (Some ("Bearer " ++ token))) with true.
    cbn -[Plugin.truthy Plugin.substring_7 String.append].
    rewrite Hurl, Hm, Hpath. cbn -[Plugin.truthy Plugin.substring_7 String.append].
    rewrite substring_7_Bearer, (Htoken token Hne). reflexivity.
Qed.

End PluginProperties.

(** GET /me without an Authorization header passes unauthenticated; with
    a Bearer token and no device token it is a BadRequest, and [verify]
    was not called. *)
Lemma onRequest_authentication_witness :
  Examples.onRequest (Examples.get_me ∅) []
  = (Normal (Plugin.mkFastifyRequest "GET" "/me" ∅ (Obj "DaoHelper" 2)
               (Some (Plugin.mkExtra None None None)) (Some Examples.me) None (Some 0%Z)),
     ["now"])
  /\ Examples.onRequest (Examples.get_me (<["authorization" := "Bearer abc"]> ∅)) []
     = (Throw (Plugin.BadRequest "Missing Device Token"), []).
Proof.
  split.
  - etransitivity.
    + apply (proj1 (onRequest_authentication Examples.new_URL Examples.pathname
                      Examples.matchUrl Examples.verify Examples.Date_now (Obj "DaoHelper" 2)
                      Examples.plugin_config (Examples.get_me ∅) "/me" Examples.me
                      eq_refl eq_refl eq_refl)
               [] ["now"] 0%Z); reflexivity.
    + reflexivity.
  - apply (proj1 (proj2 (onRequest_authentication Examples.new_URL Examples.pathname
                           Examples.matchUrl Examples.verify Examples.Date_now
                           (Obj "DaoHelper" 2) Examples.plugin_config
                           (Examples.get_me (<["authorization" := "Bearer abc"]> ∅))
                           "/me" Examples.me eq_refl eq_refl eq_refl))
             "abc" ["signTokens"; "authenticate"] []).
    + reflexivity.
    + discriminate.
    + reflexivity.
    + repeat constructor.
    + reflexivity.
Defined.

(** GET /health with a Bearer token, on a mapper without an entry for
    [/health]. *)
Lemma onRequest_unmatched_witness :
  Examples.onRequest (Examples.get_health (<["authorization" := "Bearer abc"]> ∅)) []
  = (Throw (TypeError "Cannot read properties of undefined"), []).
Proof.
  apply (proj2 (proj2 (onRequest_unmatched Examples.new_URL Examples.pathname
                         Examples.matchUrl Examples.verify Examples.Date_now
                         (Obj "DaoHelper" 2) Examples.plugin_config
                         (Examples.get_health (<["authorization" := "Bearer abc"]> ∅))
                         "/health" eq_refl eq_refl eq_refl))
           "abc" []).
  - reflexivity.
  - reflexivity.
  - discriminate.
Defined.

(** ** decorator.ts: dispatch and the route table *)

Section RouteTableProperties.

Context {W : Type}.
Variable fixUrl : string -> string.
Variable match_ : string -> string -> Match.

Local Abbreviation Entry := (@Decorator.Entry W).
Local Abbreviation run := (Decorator.run fixUrl).
Local Abbreviation find := (Decorator.find fixUrl).

(** A search with predicates that act on the world leaves the registry
    alone. *)
Lemma array_find_paths (d : IRequest) (bin : list Entry) (s : @Decorator.Store W) :
  Decorator.paths
    (array_find (fun entry : Entry => Decorator.in_world (entry.1 d)) bin s).2
  = Decorator.paths s.
Proof.
  revert s. induction bin as [|e bin IH]; intros s; [reflexivity|].
  cbn [array_find]. unfold bind.
  destruct (Decorator.in_world (e.1 d) s) as [[[|]|ex] s1] eqn:E.
  all: assert (Hp : Decorator.paths s1 = Decorator.paths s)
    by (unfold Decorator.in_world, zoom in E; destruct (e.1 d _); inversion E; reflexivity).
  - exact Hp.
  - rewrite IH. exact Hp.
  - exact Hp.
Qed.

(** [find] changes no bin: the bin it may create is empty, where there
    was none. *)
Lemma find_bins (this : Decorator.QueueClass) (data : IRequest) (s : @Decorator.Store W)
    (cname key : string) :
  Methods.bin_of (Decorator.paths (find this data s).2) cname key
  = Methods.bin_of (Decorator.paths s) cname key.
Proof.
  unfold Decorator.find.
  destruct (Decorator.paths s !! Decorator.constructor_name this) as [table|] eqn:Ht;
    [|reflexivity].
  rewrite array_find_paths.
  destruct (table !! method data) as [bin|] eqn:Hb; [reflexivity|].
  cbn [Decorator.paths]. unfold Methods.bin_of.
  destruct (decide (Decorator.constructor_name this = cname)) as [<-|Hc].
  - rewrite lookup_insert_eq, Ht. cbn [default from_option id].
    destruct (decide (method data = key)) as [<-|Hk].
    + rewrite lookup_insert_eq, Hb. reflexivity.
    + rewrite lookup_insert_ne by exact Hk. reflexivity.
  - rewrite lookup_insert_ne by exact Hc. reflexivity.
Qed.

(** X18. Dispatch never alters the routes. Whatever [run] does (a
    handler's result, a handler's failure, NotFound, a TypeError), every
    bin of every class holds the entries it held before, in the same
    order; all that [run] may add to the registry is an empty bin for the
    method of the request and for ALL. *)
Theorem run_preserves_routes (this : Decorator.QueueClass) (data : IRequest)
    (s : @Decorator.Store W) (cname key : string) :
  Methods.bin_of (Decorator.paths (run this data s).2) cname key
  = Methods.bin_of (Decorator.paths s) cname key.
Proof.
  assert (Hw : forall (A : Type) (m : M W A) (st : @Decorator.Store W),
             Decorator.paths (Decorator.in_world m st).2 = Decorator.paths st).
  { intros A m st. unfold Decorator.in_world, zoom. destruct (m _). reflexivity. }
  unfold Decorator.run, bind.
  pose proof (find_bins this data s cname key) as H1.
  destruct (find this data s) as [[[t|]|e] s1]; cbn [snd] in H1.
  - cbn [ret]. rewrite Hw. exact H1.
  - pose proof (find_bins this (with_method "ALL" data) s1 cname key) as H2.
    destruct (find this (with_method "ALL" data) s1) as [[[t|]|e] s2]; cbn [snd] in H2.
    + rewrite Hw, H2. exact H1.
    + cbn [throw snd]. rewrite H2. exact H1.
    + cbn [snd]. rewrite H2. exact H1.
  - exact H1.
Qed.

(** X19. A health probe is dispatched like any job. The master's probe
    has the method HEALTH and an empty url; on a module without a HEALTH
    bin whose ALL bin starts with a route that [Path] bound to a string,
    [run] hands the probe to the handler of that route, whatever its path:
    the probe of a healthy worker executes that handler. *)
Theorem health_probe_dispatch (this : Decorator.QueueClass) (request : Master.Request)
    (ps : gmap string (gmap string (list Entry))) (table : gmap string (list Entry))
    (url_ : string) (func : Decorator.PathFunction) (rest : list Entry) (w : W) :
  ps !! Decorator.constructor_name this = Some table ->
  table !! "HEALTH" = None ->
  table !! "ALL"
    = Some (((Decorator.string_check fixUrl match_ url_, func) : Entry) :: rest) ->
  exists ps',
    run this (Master.health_data request) (Decorator.mkStore ps w)
    = Decorator.in_world
        (func (Decorator.Instance (Decorator.constructor_name this))
           (Master.health_data request))
        (Decorator.mkStore ps' w)
    /\ forall cname key, Methods.bin_of ps' cname key = Methods.bin_of ps cname key.
Proof.
  intros Ht Hh Ha. unfold Decorator.run, bind.
  pose proof (find_bins this (Master.health_data request) (Decorator.mkStore ps w)) as B1.
  destruct (find_eq fixUrl this (Master.health_data request) ps w table Ht)
    as (ps1 & E1 & table1 & Ht1 & Hsame).
  rewrite E1 in B1 |- *. change (method (Master.health_data request)) with "HEALTH" in *.
  rewrite Hh in B1 |- *. cbn [default from_option id array_find ret snd Decorator.paths] in *.
  pose proof (find_bins this (with_method "ALL" (Master.health_data request))
                (Decorator.mkStore ps1 w)) as B2.
  destruct (find_eq fixUrl this (with_method "ALL" (Master.health_data request)) ps1 w
              table1 Ht1) as (ps2 & E2 & _).
  rewrite E2 in B2 |- *.
  change (method (with_method "ALL" (Master.health_data request))) with "ALL" in *.
  rewrite Hsame, Ha in B2 |- *. cbn [default from_option id array_find] in *.
  unfold bind, Decorator.in_world, zoom, Decorator.string_check, ret in B2.
  cbn [fst snd Decorator.world Decorator.paths Match_to_boolean] in B2.
  unfold bind, Decorator.in_world at 1, zoom, Decorator.string_check, ret.
  cbn [fst snd Decorator.world Decorator.paths Match_to_boolean].
  exists ps2. split; [reflexivity|].
  intros cname key. rewrite B2. apply B1.
Qed.

End RouteTableProperties.

(** On [UserQueue], whose ALL bin holds the route [/orders], a health
    probe runs the handler [orders]. *)
Lemma health_probe_dispatch_witness :
  exists ps',
    Decorator.run Demo.fixUrl (Decorator.Queue "" "UserQueue")
      (Master.health_data Demo.get_b) (Decorator.mkStore Demo.UserQueue_paths [])
    = Decorator.in_world
        (Demo.orders (Decorator.Instance "UserQueue") (Master.health_data Demo.get_b))
        (Decorator.mkStore ps' [])
    /\ forall cname key,
         Methods.bin_of ps' cname key = Methods.bin_of Demo.UserQueue_paths cname key.
Proof.
  apply (health_probe_dispatch Demo.fixUrl Demo.exact_match (Decorator.Queue "" "UserQueue")
           Demo.get_b Demo.UserQueue_paths
           (<["ALL" := [(Decorator.string_check Demo.fixUrl Demo.exact_match "/orders",
                         Demo.orders)]]>
              (<["GET" := [(Decorator.string_check Demo.fixUrl Demo.exact_match "/users",
                            Demo.users)]]> ∅))
           "/orders" Demo.orders [] []); reflexivity.
Defined.
